(** * Celestine validation scripts: a shallow embedding

    The two scripts under [.references/validation] call the Swiss Ephemeris
    binding ([swisseph]) and print or export reference values:

    - [generate_reference_data.py] queries ten planets at six fixed Julian
      Days, prints a table and writes [reference_ephemeris.json];
    - [einstein_chart.py] computes one birth chart and prints it.

    Conventions of the embedding:

    - Python floats are idealised as exact rationals ([Q]); [==] is equality
      of rationals.  Rounding errors of the float operations are not modelled:
      an equation between numbers holds of the floats up to rounding.  A strict
      bound or a whole-number result is stated on the range of inputs on which
      the float operation gives what the exact one gives; the definitions
      below say where that range ends.  [Float64] has the rounded operations
      for those places, and [Float64Facts] relates them to the exact ones.
    - The ephemeris library, the clock and [repr] of a float lie outside the
      repository and enter as an environment.  A library call may raise.
    - A script runs in a state that records the library calls made, the lines
      printed and the files written; an exception ends the run and keeps the
      state reached.
    - A printed line keeps its interpolated values with their format
      specifications; the digits a float is printed with are not modelled.
    - A dictionary with fixed keys is a record together with the function
      that lists its items in order; a dictionary with computed keys is an
      association list in insertion order. *)

From Stdlib Require Import ZArith QArith Qround Qabs Qpower List String Ascii Bool Lia Lqa.
From Stdlib Require Import DecimalString.
Import ListNotations.
Open Scope string_scope.
Open Scope Z_scope.
Open Scope Q_scope.

(** ** Python arithmetic on idealised floats *)
Module Py.

(** [int(x)]: truncation toward zero. *)
Definition int (x : Q) : Z := Z.quot (Qnum x) (Zpos (Qden x)).

(** [math.floor(x)], the mathematical floor the specification speaks of. *)
Definition floor (x : Q) : Z := Qfloor x.

(** [x % m] on floats for a positive modulus [m]: the result takes the sign of
    the divisor, that is [x - m * floor(x / m)].  For a float [x >= 0] Python
    computes this remainder without rounding.  For [x < 0] it adds [m] to the
    remainder of the truncated division, and that sum is rounded: on a
    negative [x] very close to zero the float result is [m] itself, where the
    value here lies just below [m]. *)
Definition fmod (x m : Q) : Q := x - m * inject_Z (Qfloor (x / m)).

(** 2^53: up to this magnitude every whole number is a float, and the whole
    part of a float quotient by 30 is that of the exact quotient. *)
Definition two_53 : Q := 9007199254740992.

(** [a % m] on ints for a positive modulus [m]. *)
Definition imod (a m : Z) : Z := Z.modulo a m.

(** Nearest integer, ties to the even neighbour. *)
Definition round_half_even (x : Q) : Z :=
  let f := Qfloor x in
  let r := x - inject_Z f in
  match Qcompare r (1 # 2) with
  | Lt => f
  | Gt => (f + 1)%Z
  | Eq => if Z.even f then f else (f + 1)%Z
  end.

(** [round(x, 6)]: the nearest multiple of 10^-6, ties to even. *)
Definition round6 (x : Q) : Q :=
  inject_Z (round_half_even (x * 1000000)) / 1000000.

(** [x < y] on floats. *)
Definition ltb (x y : Q) : bool :=
  match Qcompare x y with Lt => true | _ => false end.

(** [x >= y] on floats. *)
Definition geb (x y : Q) : bool := negb (ltb x y).

(** [s * n] on a string. *)
Fixpoint str_mul (s : string) (n : nat) : string :=
  match n with
  | O => ""
  | S n' => s ++ str_mul s n'
  end.

(** The newline character and the degree sign (U+00B0 in UTF-8). *)
Definition nl : string := String (ascii_of_nat 10) "".
Definition degree_sign : string :=
  String (ascii_of_nat 194) (String (ascii_of_nat 176) "").

(** *** Dictionaries with string keys, in insertion order *)
Section Dict.
Context {V : Type}.

(** [d[k] = v]: an existing key keeps its place, a new one goes last. *)
Fixpoint setitem (d : list (string * V)) (k : string) (v : V) : list (string * V) :=
  match d with
  | [] => [(k, v)]
  | (k', v') :: d' =>
      if String.eqb k' k then (k', v) :: d' else (k', v') :: setitem d' k v
  end.

(** [d[k]], [None] standing for [KeyError]. *)
Fixpoint getitem (d : list (string * V)) (k : string) : option V :=
  match d with
  | [] => None
  | (k', v') :: d' => if String.eqb k' k then Some v' else getitem d' k
  end.

Definition keys (d : list (string * V)) : list string := map fst d.

End Dict.

(** *** Data handed to [json.dump] *)
#[warnings="-register-all"]
Inductive json :=
| JStr (s : string)
| JFloat (x : Q)
| JBool (b : bool)
| JList (l : list json)
| JObj (d : list (string * json)).

(** *** Printed text

    A formatted string is kept as its pieces: the literal parts and each
    interpolated value with its format specification.  How a float is turned
    into digits is not modelled. *)
#[warnings="-register-all"]
Inductive text :=
| Lit (s : string)
| Fmt (a : atom) (spec : string)
with atom :=
| AFloat (x : Q)
| AInt (n : Z)
| AStr (s : string)
| ABool (b : bool)
| AText (t : list text).

(** *** [json.dump(obj, f, indent=2)] *)

Definition hex_digit (n : nat) : ascii :=
  match n with
  | 0 => "0" | 1 => "1" | 2 => "2" | 3 => "3" | 4 => "4" | 5 => "5" | 6 => "6"
  | 7 => "7" | 8 => "8" | 9 => "9" | 10 => "a" | 11 => "b" | 12 => "c"
  | 13 => "d" | 14 => "e" | _ => "f"
  end%char%nat.

(** One character of [py_encode_basestring_ascii]; a string is read as a
    sequence of code points below 256. *)
Definition backslash : string := String (ascii_of_nat 92) "".
Definition quote : string := String (ascii_of_nat 34) "".

Definition escape_char (c : ascii) : string :=
  let n := nat_of_ascii c in
  if Nat.eqb n 92 then backslash ++ backslash
  else if Nat.eqb n 34 then backslash ++ quote
  else if Nat.eqb n 8 then backslash ++ "b"
  else if Nat.eqb n 12 then backslash ++ "f"
  else if Nat.eqb n 10 then backslash ++ "n"
  else if Nat.eqb n 13 then backslash ++ "r"
  else if Nat.eqb n 9 then backslash ++ "t"
  else if (Nat.leb 32 n && Nat.leb n 126)%bool then String c ""
  else backslash ++ "u00"
       ++ String (hex_digit (Nat.div n 16)) (String (hex_digit (Nat.modulo n 16)) "").

Fixpoint escape (s : string) : string :=
  match s with
  | EmptyString => ""
  | String c s' => escape_char c ++ escape s'
  end.

Definition encode_string (s : string) : string := quote ++ escape s ++ quote.

Definition newline_indent (level : nat) : string := nl ++ str_mul "  " level.

Section Dumps.
(** [float.__repr__], which belongs to the interpreter. *)
Variable repr : Q -> string.

Fixpoint dumps_at (level : nat) (o : json) : string :=
  match o with
  | JStr s => encode_string s
  | JFloat x => repr x
  | JBool b => if b then "true" else "false"
  | JList [] => "[]"
  | JList (x :: xs) =>
      "[" ++ newline_indent (S level) ++ dumps_at (S level) x
      ++ (fix rest (l : list json) : string :=
            match l with
            | [] => ""
            | y :: l' => "," ++ newline_indent (S level) ++ dumps_at (S level) y ++ rest l'
            end) xs
      ++ newline_indent level ++ "]"
  | JObj [] => "{}"
  | JObj ((k, v) :: kvs) =>
      "{" ++ newline_indent (S level) ++ encode_string k ++ ": " ++ dumps_at (S level) v
      ++ (fix rest (l : list (string * json)) : string :=
            match l with
            | [] => ""
            | (k', v') :: l' =>
                "," ++ newline_indent (S level) ++ encode_string k' ++ ": "
                ++ dumps_at (S level) v' ++ rest l'
            end) kvs
      ++ newline_indent level ++ "}"
  end.

Definition dumps (o : json) : string := dumps_at 0 o.

End Dumps.

End Py.

(** ** [format_zodiac], as written in both scripts *)
Module Zodiac.

(** [sign_idx = int(longitude / 30) % 12].  The quotient is the exact one;
    Python truncates the rounded quotient, which has the same whole part for
    every float of magnitude below 2^53, where each multiple of 30 is a
    float. *)
Definition sign_idx (longitude : Q) : Z := Py.imod (Py.int (longitude / 30)) 12.

(** [degrees = longitude % 30], see [Py.fmod]. *)
Definition degrees (longitude : Q) : Q := Py.fmod longitude 30.

(** The index the specification names: [floor(longitude / 30) mod 12]. *)
Definition spec_sign_idx (longitude : Q) : Z :=
  Z.modulo (Py.floor (longitude / 30)) 12.

End Zodiac.


(** ** The Swiss Ephemeris binding, as the scripts see it *)
Module Swe.

(** Body numbers ([swe.SUN] ... [swe.MEAN_APOG], [swe.ECL_NUT]). *)
Inductive body :=
| SUN | MOON | MERCURY | VENUS | MARS | JUPITER | SATURN | URANUS | NEPTUNE
| PLUTO | MEAN_NODE | TRUE_NODE | MEAN_APOG | ECL_NUT.

(** Calculation flags; the scripts use [swe.FLG_SPEED] only. *)
Inductive iflag := FLG_SPEED.

(** The six-tuple [xx] returned by [calc] and [calc_ut]:
    [lon, lat, dist, lon_speed, lat_speed, dist_speed] at indices 0..5. *)
Record xx := {
  xx0 : Q;
  xx1 : Q;
  xx2 : Q;
  xx3 : Q;
  xx4 : Q;
  xx5 : Q
}.

(** Exceptions a run can end with: [swisseph.Error] raised by the library,
    and Python's [KeyError] and [IndexError]. *)
Inductive exn :=
| Error (msg : string)
| KeyError (key : string)
| IndexError.

Inductive result (A : Type) :=
| Ok (a : A)
| Raise (e : exn).
Arguments Ok {A} a.
Arguments Raise {A} e.

(** A call into the library, with the arguments it was given. *)
Inductive call :=
| Julday (year month day : Z) (hour : Q)
| Deltat (jd : Q)
| Sidtime (jd : Q)
| Calc (jd : Q) (planet : body)
| CalcUt (jd : Q) (planet : body) (flags : iflag)
| Houses (jd lat lon : Q) (hsys : string).

(** What the library answers.  Every call may raise. *)
Record api := {
  version : string;
  julday : Z -> Z -> Z -> Q -> result Q;
  deltat : Q -> result Q;
  sidtime : Q -> result Q;
  calc : Q -> body -> result (xx * Z);
  calc_ut : Q -> body -> iflag -> result (xx * Z);
  houses : Q -> Q -> Q -> string -> result (list Q * list Q)
}.

End Swe.

(** ** Running a script: library calls, console and files as state *)
Module Run.
Import Swe.

(** What lies outside the script: the library, the clock reading returned by
    [datetime.now().isoformat()] and [repr] of a float. *)
Record env := {
  swe : api;
  now_isoformat : string;
  repr : Q -> string
}.

Record world := {
  queries : list call;              (* library calls made so far, oldest first *)
  stdout : list (list Py.text);     (* one entry per [print] *)
  files : list (string * string)    (* path and content of files written *)
}.

Definition start : world := {| queries := []; stdout := []; files := [] |}.

Definition M (A : Type) : Type := world -> result A * world.

Definition ret {A} (a : A) : M A := fun w => (Ok a, w).

Definition bind {A B} (m : M A) (k : A -> M B) : M B :=
  fun w =>
    match m w with
    | (Ok a, w') => k a w'
    | (Raise e, w') => (Raise e, w')
    end.

Definition raise {A} (e : exn) : M A := fun w => (Raise e, w).

Notation "x <- m ;; k" := (bind m (fun x => k))
  (at level 61, m at next level, right associativity).
Notation "' p <- m ;; k" := (bind m (fun x => match x with p => k end))
  (at level 61, p pattern, m at next level, right associativity).
Notation "m ;; k" := (bind m (fun _ => k))
  (at level 61, right associativity).

Definition print (line : list Py.text) : M unit :=
  fun w => (Ok tt, {| queries := queries w; stdout := stdout w ++ [line]; files := files w |}).

(** [with open(path, 'w') as f: ...] leaving [content] in the file. *)
Definition write_file (path content : string) : M unit :=
  fun w => (Ok tt, {| queries := queries w; stdout := stdout w;
                      files := Py.setitem (files w) path content |}).

Definition lift {A} (o : option A) (e : exn) : M A :=
  match o with
  | Some a => ret a
  | None => raise e
  end.

(** A library call: the call is recorded, then its answer is returned or its
    exception raised. *)
Definition invoke {A} (c : call) (r : result A) : M A :=
  fun w => (r, {| queries := queries w ++ [c]; stdout := stdout w; files := files w |}).

(** [for x in xs: s = body(x, s)] *)
Fixpoint for_each {A S} (xs : list A) (body : A -> S -> M S) (s : S) : M S :=
  match xs with
  | [] => ret s
  | x :: xs' => s' <- body x s ;; for_each xs' body s'
  end.

Section Calls.
Variable e : env.

Definition swe_julday (y m d : Z) (h : Q) : M Q :=
  invoke (Julday y m d h) (julday (swe e) y m d h).
Definition swe_deltat (jd : Q) : M Q :=
  invoke (Deltat jd) (deltat (swe e) jd).
Definition swe_sidtime (jd : Q) : M Q :=
  invoke (Sidtime jd) (sidtime (swe e) jd).
Definition swe_calc (jd : Q) (p : body) : M (xx * Z) :=
  invoke (Calc jd p) (calc (swe e) jd p).
Definition swe_calc_ut (jd : Q) (p : body) (f : iflag) : M (xx * Z) :=
  invoke (CalcUt jd p f) (calc_ut (swe e) jd p f).
Definition swe_houses (jd lat lon : Q) (hsys : string) : M (list Q * list Q) :=
  invoke (Houses jd lat lon hsys) (houses (swe e) jd lat lon hsys).

End Calls.

(** The outcome and the final state of a whole run. *)
Definition run {A} (m : M A) : result A * world := m start.

End Run.

(** ** [generate_reference_data.py] *)
Module GenerateReferenceData.
Import Swe Run Py.

Definition CALC_FLAGS : iflag := FLG_SPEED.

Definition PLANETS : list (string * body) :=
  [ ("Sun", SUN); ("Moon", MOON); ("Mercury", MERCURY); ("Venus", VENUS);
    ("Mars", MARS); ("Jupiter", JUPITER); ("Saturn", SATURN);
    ("Uranus", URANUS); ("Neptune", NEPTUNE); ("Pluto", PLUTO) ].

Definition TEST_DATES : list (Q * string) :=
  [ (2451545.0, "2000-Jan-01 12:00 TT (J2000.0)");
    (2448724.5, "1992-Apr-12 00:00 TT (Meeus Ex 47.a)");
    (2415020.5, "1900-Jan-01 00:00 TT");
    (2440587.5, "1970-Jan-01 00:00 TT (Unix epoch)");
    (2459580.5, "2022-Jan-01 00:00 TT");
    (2488069.5, "2100-Jan-01 00:00 TT") ].

(** The dictionary returned by [calculate_position]; its keys are fixed, so it
    is a record, and [position_dict] gives the dictionary itself. *)
Record Position := {
  longitude : Q;
  latitude : Q;
  distance : Q;
  longitude_speed : Q;
  latitude_speed : Q;
  is_retrograde : bool
}.

Definition position_dict (pos : Position) : json :=
  JObj [ ("longitude", JFloat (longitude pos));
         ("latitude", JFloat (latitude pos));
         ("distance", JFloat (distance pos));
         ("longitude_speed", JFloat (longitude_speed pos));
         ("latitude_speed", JFloat (latitude_speed pos));
         ("is_retrograde", JBool (is_retrograde pos)) ].

(** [date_data] and [all_data] of [main]. *)
Record DateData := {
  description : string;
  jd : Q;
  positions : list (string * Position)
}.

Record AllData := {
  generator : string;
  version : string;
  generated_at : string;
  dates : list (string * DateData);
  planets : list string
}.

Definition date_data_dict (d : DateData) : json :=
  JObj [ ("description", JStr (description d));
         ("jd", JFloat (jd d));
         ("positions", JObj (map (fun kv => (fst kv, position_dict (snd kv))) (positions d))) ].

Definition all_data_dict (a : AllData) : json :=
  JObj [ ("generator", JStr (generator a));
         ("version", JStr (version a));
         ("generated_at", JStr (generated_at a));
         ("dates", JObj (map (fun kv => (fst kv, date_data_dict (snd kv))) (dates a)));
         ("planets", JList (map JStr (planets a))) ].

(** [date_data['positions'][planet_name] = pos] *)
Definition set_position (d : DateData) (planet_name : string) (pos : Position) : DateData :=
  {| description := description d; jd := jd d;
     positions := setitem (positions d) planet_name pos |}.

(** [all_data['dates'][key] = date_data] *)
Definition set_date (a : AllData) (key : string) (d : DateData) : AllData :=
  {| generator := generator a; version := version a; generated_at := generated_at a;
     dates := setitem (dates a) key d; planets := planets a |}.

Definition signs : list string :=
  ["Ari"; "Tau"; "Gem"; "Can"; "Leo"; "Vir"; "Lib"; "Sco"; "Sag"; "Cap"; "Aqu"; "Pis"].

Definition format_zodiac (longitude : Q) : list text :=
  let sign_idx := Zodiac.sign_idx longitude in
  let degrees := Zodiac.degrees longitude in
  [ Fmt (AFloat degrees) ".2f"; Lit (degree_sign ++ " ");
    Fmt (AStr (nth (Z.to_nat sign_idx) signs "")) "" ].

Section Script.
Variable e : env.

Definition calculate_position (planet_id : body) (jd : Q) : M Position :=
  '(result, retflag) <- swe_calc_ut e jd planet_id CALC_FLAGS ;;
  ret {| longitude := round6 (xx0 result);
         latitude := round6 (xx1 result);
         distance := round6 (xx2 result);
         longitude_speed := round6 (xx3 result);
         latitude_speed := round6 (xx4 result);
         is_retrograde := ltb (xx3 result) 0 |}.

(** The body of the inner loop of [main]. *)
Definition planet_step (jd : Q) (planet : string * body) (date_data : DateData) : M DateData :=
  let '(planet_name, planet_id) := planet in
  pos <- calculate_position planet_id jd ;;
  let date_data := set_position date_data planet_name pos in
  let zodiac := format_zodiac (longitude pos) in
  let retro := if is_retrograde pos then "R" else "" in
  let dist_str :=
    if String.eqb planet_name "Moon"
    then [Fmt (AFloat (distance pos)) ".6f"; Lit " AU"]
    else [Fmt (AFloat (distance pos)) ".4f"; Lit " AU"] in
  print [ Fmt (AStr planet_name) "<10"; Lit " ";
          Fmt (AFloat (longitude pos)) ">12.4f"; Lit (degree_sign ++ " ");
          Fmt (AText zodiac) ">15"; Lit " ";
          Fmt (AFloat (latitude pos)) ">+10.4f"; Lit (degree_sign ++ " ");
          Fmt (AText dist_str) ">12"; Lit " ";
          Fmt (AFloat (longitude_speed pos)) ">+10.4f"; Lit " ";
          Fmt (AStr retro) ">6" ] ;;
  ret date_data.

(** The body of the outer loop of [main]. *)
Definition date_step (date : Q * string) (all_data : AllData) : M AllData :=
  let '(jd, date_desc) := date in
  print [Lit nl; Fmt (AStr (str_mul "=" 80)) ""] ;;
  print [Lit "DATE: "; Fmt (AStr date_desc) ""] ;;
  print [Lit "Julian Date: "; Fmt (AFloat jd) ""] ;;
  print [Lit (str_mul "=" 80)] ;;
  let date_data := {| description := date_desc; jd := jd; positions := [] |} in
  print [ Lit nl; Fmt (AStr "Planet") "<10"; Lit " "; Fmt (AStr "Longitude") ">12"; Lit " ";
          Fmt (AStr "Zodiac") ">15"; Lit " "; Fmt (AStr "Latitude") ">10"; Lit " ";
          Fmt (AStr "Distance") ">12"; Lit " "; Fmt (AStr "Speed") ">10"; Lit " ";
          Fmt (AStr "Retro") ">6" ] ;;
  print [Lit (str_mul "-" 80)] ;;
  date_data <- for_each PLANETS (planet_step jd) date_data ;;
  ret (set_date all_data (repr e jd) date_data).

(** The body of the last loop of [main]. *)
Definition key_values_step (j2000_data : list (string * Position)) (planet_name : string)
  (_ : unit) : M unit :=
  pos <- lift (getitem j2000_data planet_name) (KeyError planet_name) ;;
  print [ Lit (nl ++ "// "); Fmt (AStr planet_name) "";
          Lit (" at J2000.0 (Swiss Ephemeris reference)" ++ nl ++ "// Longitude: ");
          Fmt (AFloat (longitude pos)) ""; Lit (degree_sign ++ " (");
          Fmt (AText (format_zodiac (longitude pos))) "";
          Lit (")" ++ nl ++ "// Latitude: ");
          Fmt (AFloat (latitude pos)) ""; Lit (degree_sign ++ nl ++ "// Distance: ");
          Fmt (AFloat (distance pos)) ""; Lit (" AU" ++ nl ++ "// Speed: ");
          Fmt (AFloat (longitude_speed pos)) "";
          Lit (degree_sign ++ "/day" ++ nl ++ "// Retrograde: ");
          Fmt (ABool (is_retrograde pos)) ""; Lit nl ].

(** [all_data] as [main] creates it, before the loop over the dates. *)
Definition initial_all_data : AllData :=
  {| generator := "pyswisseph";
     version := Swe.version (swe e);
     generated_at := now_isoformat e;
     dates := [];
     planets := keys PLANETS |}.

Definition json_path : string := "reference_ephemeris.json".

(** The last block of [main]: key values for copy-paste into tests. *)
Definition key_values (all_data : AllData) : M unit :=
  print [Lit (nl ++ str_mul "=" 80)] ;;
  print [Lit "KEY VALUES FOR TEST ASSERTIONS (J2000.0)"] ;;
  print [Lit (str_mul "=" 80)] ;;
  j2000 <- lift (getitem (dates all_data) "2451545.0") (KeyError "2451545.0") ;;
  let j2000_data := positions j2000 in
  for_each ["Sun"; "Moon"; "Mercury"; "Venus"; "Mars"; "Jupiter"]
           (key_values_step j2000_data) tt.

Definition main : M unit :=
  print [Lit (str_mul "=" 80)] ;;
  print [Lit "SWISS EPHEMERIS REFERENCE DATA FOR CELESTINE VALIDATION"] ;;
  print [Lit (str_mul "=" 80)] ;;
  print [Lit "Swiss Ephemeris version: "; Fmt (AStr (Swe.version (swe e))) ""] ;;
  print [] ;;
  all_data <- for_each TEST_DATES date_step initial_all_data ;;
  write_file json_path (dumps (repr e) (all_data_dict all_data)) ;;
  print [Lit (nl ++ nl ++ "JSON data saved to: "); Fmt (AStr json_path) ""] ;;
  key_values all_data.

End Script.

End GenerateReferenceData.

(** ** [einstein_chart.py] *)
Module EinsteinChart.
Import Swe Run Py.

(** The birth data the script fixes in module constants. *)
Record BirthData := {
  YEAR : Z;
  MONTH : Z;
  DAY : Z;
  HOUR_UT : Z;
  MINUTE_UT : Z;
  SECOND_UT : Z;
  LATITUDE : Q;
  LONGITUDE : Q
}.

Definition einstein : BirthData :=
  {| YEAR := 1879; MONTH := 3; DAY := 14;
     HOUR_UT := 10; MINUTE_UT := 50; SECOND_UT := 0;
     LATITUDE := 48.4; LONGITUDE := 10.0 |}.

Definition CALC_FLAGS : iflag := FLG_SPEED.

Definition PLANETS : list (string * body) :=
  [ ("Sun", SUN); ("Moon", MOON); ("Mercury", MERCURY); ("Venus", VENUS);
    ("Mars", MARS); ("Jupiter", JUPITER); ("Saturn", SATURN);
    ("Uranus", URANUS); ("Neptune", NEPTUNE); ("Pluto", PLUTO) ].

Definition SIGNS : list string :=
  [ "Aries"; "Taurus"; "Gemini"; "Cancer"; "Leo"; "Virgo";
    "Libra"; "Scorpio"; "Sagittarius"; "Capricorn"; "Aquarius"; "Pisces" ].

(** [SIGNS[int(x / 30) % 12]] *)
Definition sign_of (x : Q) : string := nth (Z.to_nat (Zodiac.sign_idx x)) SIGNS "".

Definition format_zodiac (longitude : Q) : list text :=
  let sign_idx := Zodiac.sign_idx longitude in
  let degrees := Zodiac.degrees longitude in
  let deg := Py.int degrees in
  let minutes := (degrees - inject_Z deg) * 60 in
  [ Fmt (AInt deg) ""; Lit degree_sign; Fmt (AFloat minutes) ".1f"; Lit "' ";
    Fmt (AStr (nth (Z.to_nat sign_idx) SIGNS "")) "" ].

(** [lst = armc + LONGITUDE; if lst >= 360: lst -= 360].  The sum is the
    exact one; the comparison with 360 is made on the rounded sum in Python,
    which matters only where the sum is within rounding of 360 or of 720. *)
Definition local_sidereal_time (armc longitude : Q) : Q :=
  let lst := armc + longitude in
  if geb lst 360 then lst - 360 else lst.

(** [retro = " R" if speed < 0 else ""] *)
Definition retro_mark (speed : Q) : string := if ltb speed 0 then " R" else "".

(** One entry of the closing summary: longitude, sign name and degree in sign. *)
Definition summary_entry (name : string) (lon : Q) (sign : string) (degree : Q) : list text :=
  [ Lit ("  " ++ name ++ ": { longitude: "); Fmt (AFloat lon) "%.4f";
    Lit ", sign: '"; Fmt (AStr sign) "%s"; Lit "', degree: "; Fmt (AFloat degree) "%.1f";
    Lit (" }," ++ nl) ].

Section Script.
Variable e : env.
Variable b : BirthData.

(** A line showing an angle and its zodiac position:
    the label, [x] with four decimals, the degree sign and [format_zodiac(x)]. *)
Definition angle_line (label : string) (x : Q) : M unit :=
  print [ Lit label; Fmt (AFloat x) ".4f"; Lit (degree_sign ++ " = ");
          Fmt (AText (format_zodiac x)) "" ].

(** The body of the loop over the house cusps. *)
Definition house_step (cusps : list Q) (i : nat) (_ : unit) : M unit :=
  c <- lift (nth_error cusps i) IndexError ;;
  print [ Lit "  House "; Fmt (AInt (Z.of_nat i)) "2d"; Lit ": ";
          Fmt (AFloat c) "8.4f"; Lit (degree_sign ++ " = ");
          Fmt (AText (format_zodiac c)) "" ].

(** The body of the loop over the planets. *)
Definition planet_step (jd : Q) (planet : string * body) (_ : unit) : M unit :=
  let '(planet_name, planet_id) := planet in
  '(result, retflag) <- swe_calc_ut e jd planet_id CALC_FLAGS ;;
  let longitude := xx0 result in
  let latitude := xx1 result in
  let speed := xx3 result in
  let retro := retro_mark speed in
  print [ Fmt (AStr planet_name) "<10"; Lit " ";
          Fmt (AFloat longitude) ">12.4f"; Lit (degree_sign ++ " ");
          Fmt (AText (format_zodiac longitude)) ">22"; Lit " ";
          Fmt (AFloat latitude) ">+10.4f"; Lit (degree_sign ++ " ");
          Fmt (AFloat speed) ">+10.4f"; Fmt (AStr retro) "" ].

(** One of the additional points: a query followed by its line. *)
Definition point_line (label : string) (jd : Q) (point : body) : M unit :=
  '(result, _) <- swe_calc_ut e jd point CALC_FLAGS ;;
  angle_line label (xx0 result).

(** The three arguments one body contributes to the closing summary; the
    script queries the library once for each of them. *)
Definition summary_body (name : string) (jd : Q) (planet : body) : M (list text) :=
  r1 <- swe_calc_ut e jd planet CALC_FLAGS ;;
  r2 <- swe_calc_ut e jd planet CALC_FLAGS ;;
  r3 <- swe_calc_ut e jd planet CALC_FLAGS ;;
  ret (summary_entry name (xx0 (fst r1)) (sign_of (xx0 (fst r2)))
                     (Zodiac.degrees (xx0 (fst r3)))).

(** [main], one definition per commented block of the source. *)

Definition hour_decimal : Q :=
  inject_Z (HOUR_UT b) + inject_Z (MINUTE_UT b) / 60 + inject_Z (SECOND_UT b) / 3600.

Definition banner : M unit :=
  print [Lit (str_mul "=" 80)] ;;
  print [Lit "ALBERT EINSTEIN BIRTH CHART - SWISS EPHEMERIS VERIFICATION"] ;;
  print [Lit (str_mul "=" 80)] ;;
  print [Lit "Swiss Ephemeris version: "; Fmt (AStr (Swe.version (swe e))) ""] ;;
  print [] ;;
  print [Lit "Birth Data:"] ;;
  print [ Lit "  Date: "; Fmt (AInt (YEAR b)) ""; Lit "-"; Fmt (AInt (MONTH b)) "02d";
          Lit "-"; Fmt (AInt (DAY b)) "02d" ] ;;
  print [Lit "  Time: 11:30 AM LMT (Local Mean Time)"] ;;
  print [ Lit "  UT:   "; Fmt (AInt (HOUR_UT b)) ""; Lit ":"; Fmt (AInt (MINUTE_UT b)) "02d";
          Lit ":"; Fmt (AInt (SECOND_UT b)) "02d" ] ;;
  print [Lit "  Location: Ulm, Germany"] ;;
  print [Lit "  Latitude: "; Fmt (AFloat (LATITUDE b)) ""; Lit (degree_sign ++ "N")] ;;
  print [Lit "  Longitude: "; Fmt (AFloat (LONGITUDE b)) ""; Lit (degree_sign ++ "E")] ;;
  print [].

(** Calculate Julian Date *)
Definition julian_date : M Q :=
  jd <- swe_julday e (YEAR b) (MONTH b) (DAY b) hour_decimal ;;
  print [Lit "Julian Date (UT): "; Fmt (AFloat jd) ""] ;;
  print [] ;;
  ret jd.

(** Get Delta T (difference between TT and UT) *)
Definition delta_t_block (jd : Q) : M unit :=
  delta_t <- swe_deltat e jd ;;
  let jd_tt := jd + delta_t in
  print [Lit "Delta T: "; Fmt (AFloat (delta_t * 86400)) ".2f"; Lit " seconds"] ;;
  print [Lit "Julian Date (TT): "; Fmt (AFloat jd_tt) ""] ;;
  print [].

(** Calculate sidereal time *)
Definition sidereal_time_block (jd : Q) : M unit :=
  gmst <- swe_sidtime e jd ;;
  let armc := gmst * 15 in
  gmst' <- swe_sidtime e jd ;;
  print [ Lit "GMST (Greenwich Mean Sidereal Time): "; Fmt (AFloat gmst') ".6f";
          Lit " hours = "; Fmt (AFloat armc) ".4f"; Lit degree_sign ] ;;
  let lst := local_sidereal_time armc (LONGITUDE b) in
  print [Lit "LST (Local Sidereal Time): "; Fmt (AFloat lst) ".4f"; Lit degree_sign] ;;
  print [].

(** Get obliquity of ecliptic *)
Definition obliquity_block (jd : Q) : M unit :=
  eps_data <- swe_calc e jd ECL_NUT ;;
  let obliquity := xx0 (fst eps_data) in
  print [Lit "Obliquity of Ecliptic: "; Fmt (AFloat obliquity) ".6f"; Lit degree_sign] ;;
  print [].

(** Calculate house cusps using Placidus; returns [ascmc] for the summary. *)
Definition houses_block (jd : Q) : M (list Q) :=
  print [Lit (str_mul "=" 80)] ;;
  print [Lit "HOUSE CUSPS (PLACIDUS)"] ;;
  print [Lit (str_mul "=" 80)] ;;
  '(cusps, ascmc) <- swe_houses e jd (LATITUDE b) (LONGITUDE b) "P" ;;
  print [Lit (nl ++ "Angles:")] ;;
  asc <- lift (nth_error ascmc 0) IndexError ;;
  angle_line "  Ascendant (ASC):  " asc ;;
  mc <- lift (nth_error ascmc 1) IndexError ;;
  angle_line "  Midheaven (MC):   " mc ;;
  a2 <- lift (nth_error ascmc 2) IndexError ;;
  print [Lit "  ARMC:             "; Fmt (AFloat a2) ".4f"; Lit degree_sign] ;;
  vertex <- lift (nth_error ascmc 3) IndexError ;;
  angle_line "  Vertex:           " vertex ;;
  print [Lit (nl ++ "House Cusps (indices 1-12):")] ;;
  for_each (seq 1 (Nat.min 13 (List.length cusps) - 1)) (house_step cusps) tt ;;
  ret ascmc.

(** Calculate planetary positions *)
Definition planets_block (jd : Q) : M unit :=
  print [] ;;
  print [Lit (str_mul "=" 80)] ;;
  print [Lit "PLANETARY POSITIONS"] ;;
  print [Lit (str_mul "=" 80)] ;;
  print [ Lit nl; Fmt (AStr "Planet") "<10"; Lit " "; Fmt (AStr "Longitude") ">12"; Lit " ";
          Fmt (AStr "Zodiac") ">22"; Lit " "; Fmt (AStr "Latitude") ">10"; Lit " ";
          Fmt (AStr "Speed") ">10" ] ;;
  print [Lit (str_mul "-" 70)] ;;
  for_each PLANETS (planet_step jd) tt.

(** Also calculate lunar nodes and Lilith *)
Definition points_block (jd : Q) : M unit :=
  print [] ;;
  print [Lit "Additional Points:"] ;;
  point_line "  True Node:    " jd TRUE_NODE ;;
  point_line "  Mean Node:    " jd MEAN_NODE ;;
  point_line "  Mean Lilith:  " jd MEAN_APOG.

(** The closing summary; the arguments of [%] are evaluated left to right
    before anything is printed. *)
Definition summary_block (jd : Q) (ascmc : list Q) : M unit :=
  print [] ;;
  print [Lit (str_mul "=" 80)] ;;
  print [Lit "SUMMARY FOR CELESTINE VALIDATION"] ;;
  print [Lit (str_mul "=" 80)] ;;
  sun <- summary_body "sun" jd SUN ;;
  moon <- summary_body "moon" jd MOON ;;
  mercury <- summary_body "mercury" jd MERCURY ;;
  asc0 <- lift (nth_error ascmc 0) IndexError ;;
  asc1 <- lift (nth_error ascmc 0) IndexError ;;
  asc2 <- lift (nth_error ascmc 0) IndexError ;;
  mc0 <- lift (nth_error ascmc 1) IndexError ;;
  mc1 <- lift (nth_error ascmc 1) IndexError ;;
  mc2 <- lift (nth_error ascmc 1) IndexError ;;
  print ([ Lit (nl ++ "These are the AUTHORITATIVE values from Swiss Ephemeris that our" ++ nl
                ++ "Celestine library should match:" ++ nl ++ nl
                ++ "const EINSTEIN_SWISSEPH = {" ++ nl ++ "  jd: ");
           Fmt (AFloat jd) "%.6f"; Lit ("," ++ nl) ]
         ++ sun ++ moon ++ mercury
         ++ summary_entry "ascendant" asc0 (sign_of asc1) (Zodiac.degrees asc2)
         ++ summary_entry "midheaven" mc0 (sign_of mc1) (Zodiac.degrees mc2)
         ++ [Lit ("};" ++ nl)]).

Definition chart : M unit :=
  banner ;;
  jd <- julian_date ;;
  delta_t_block jd ;;
  sidereal_time_block jd ;;
  obliquity_block jd ;;
  ascmc <- houses_block jd ;;
  planets_block jd ;;
  points_block jd ;;
  summary_block jd ascmc.

End Script.

(** [main]: the chart of the birth data fixed in the script. *)
Definition main (e : env) : M unit := chart e einstein.

End EinsteinChart.

(** ** Vocabulary for the statements about runs *)
Module Props.
Import Swe Run Py.
Local Open Scope list_scope.

(** [emits P R Q m]: whatever the state before, [m] only appends library
    calls satisfying [P] and printed lines satisfying [R], writes no file,
    and a value it returns satisfies [Q]. *)
Definition emits (P : call -> Prop) (R : list text -> Prop) {A} (Q : A -> Prop)
  (m : M A) : Prop :=
  forall w, exists q s,
    queries (snd (m w)) = queries w ++ q /\
    stdout (snd (m w)) = stdout w ++ s /\
    files (snd (m w)) = files w /\
    Forall P q /\ Forall R s /\
    forall a, fst (m w) = Ok a -> Q a.

Definition any {A} : A -> Prop := fun _ => True.

(** [prints_only m]: [m] always finishes normally and only prints. *)
Definition prints_only (m : M unit) : Prop :=
  forall w, exists s,
    m w = (Ok tt, {| queries := queries w; stdout := stdout w ++ s; files := files w |}).

(** What the library does on a call: [None] when it answers. *)
Definition outcome (lib : api) (c : call) : option exn :=
  match c with
  | Julday y m d h => match julday lib y m d h with Ok _ => None | Raise x => Some x end
  | Deltat jd => match deltat lib jd with Ok _ => None | Raise x => Some x end
  | Sidtime jd => match sidtime lib jd with Ok _ => None | Raise x => Some x end
  | Calc jd p => match calc lib jd p with Ok _ => None | Raise x => Some x end
  | CalcUt jd p f => match calc_ut lib jd p f with Ok _ => None | Raise x => Some x end
  | Houses jd la lo h => match houses lib jd la lo h with Ok _ => None | Raise x => Some x end
  end.

(** Going through a list of calls in order and stopping at the first one that
    raises: the calls made, and the exception if any. *)
Fixpoint replay (lib : api) (cs : list call) : list call * option exn :=
  match cs with
  | [] => ([], None)
  | c :: cs' =>
      match outcome lib c with
      | Some x => ([c], Some x)
      | None => let '(made, r) := replay lib cs' in (c :: made, r)
      end
  end.

(** A value on the grid of six decimal places. *)
Definition six_decimals (v : Q) : Prop := exists k : Z, v == inject_Z k / 1000000.

Definition obj_keys (o : json) : list string :=
  match o with
  | JObj d => keys d
  | _ => []
  end.

End Props.

(** ** Vocabulary for the statements about [einstein_chart.py] *)
Module ChartProps.
Import Swe Run Py EinsteinChart.
Local Open Scope list_scope.

(** [jd] is the Julian Day the library returned for the birth data. *)
Definition jd_is (e : env) (b : BirthData) (jd : Q) : Prop :=
  julday (swe e) (YEAR b) (MONTH b) (DAY b) (hour_decimal b) = Ok jd.

(** A position query is made at the Julian Day (UT) that [julday] returned. *)
Definition ut_query (e : env) (b : BirthData) (c : call) : Prop :=
  match c with
  | CalcUt j _ _ => jd_is e b j
  | _ => True
  end.


Definition delta_t_line (seconds : Q) : list text :=
  [Lit "Delta T: "; Fmt (AFloat seconds) ".2f"; Lit " seconds"].

Definition jd_tt_line (jd_tt : Q) : list text :=
  [Lit "Julian Date (TT): "; Fmt (AFloat jd_tt) ""].

Definition lst_line (lst : Q) : list text :=
  [Lit "LST (Local Sidereal Time): "; Fmt (AFloat lst) ".4f"; Lit degree_sign].

End ChartProps.

(** ** Vocabulary for the statements about [generate_reference_data.py] *)
Module GenProps.
Import Swe Run Py Props GenerateReferenceData.
Local Open Scope list_scope.

(** The queries of one date, and of the whole run, in the order of the loops. *)
Definition schedule_for (jd : Q) (planets : list (string * body)) : list call :=
  map (fun p => CalcUt jd (snd p) CALC_FLAGS) planets.

Definition schedule : list call :=
  flat_map (fun d => schedule_for (fst d) PLANETS) TEST_DATES.

(** The loop of [main] over the dates, from the initial [all_data]. *)
Definition build (e : env) : M AllData :=
  for_each TEST_DATES (date_step e) (initial_all_data e).

(** The state in which that loop starts: the five lines of the heading are
    on the console. *)
Definition after_heading (e : env) : world :=
  {| queries := [];
     stdout := [ [Lit (str_mul "=" 80)];
                 [Lit "SWISS EPHEMERIS REFERENCE DATA FOR CELESTINE VALIDATION"];
                 [Lit (str_mul "=" 80)];
                 [Lit "Swiss Ephemeris version: "; Fmt (AStr (Swe.version (swe e))) ""];
                 [] ];
     files := [] |}.

(** The dictionary [calculate_position] makes from a library result. *)
Definition position_of (result : xx) : Position :=
  {| longitude := round6 (xx0 result);
     latitude := round6 (xx1 result);
     distance := round6 (xx2 result);
     longitude_speed := round6 (xx3 result);
     latitude_speed := round6 (xx4 result);
     is_retrograde := ltb (xx3 result) 0 |}.

(** [pos] is what [calculate_position] returns for the planet called [name]
    at [jd], from the library result [result]. *)
Definition position_from (e : env) (jd : Q) (name : string) (pos : Position)
  (result : xx) : Prop :=
  exists planet_id retflag,
    In (name, planet_id) PLANETS /\
    calc_ut (swe e) jd planet_id CALC_FLAGS = Ok (result, retflag) /\
    pos = position_of result.

(** Every stored position comes from a library result for its planet at the
    Julian Day of its date, unchanged apart from the rounding. *)
Definition date_sound (e : env) (d : DateData) : Prop :=
  In (jd d, description d) TEST_DATES /\
  forall name pos, In (name, pos) (positions d) ->
    exists result, position_from e (jd d) name pos result.

Definition dataset_sound (e : env) (a : AllData) : Prop :=
  generator a = "pyswisseph"%string /\
  version a = Swe.version (swe e) /\
  generated_at a = now_isoformat e /\
  planets a = keys PLANETS /\
  forall key d, In (key, d) (dates a) -> key = repr e (jd d) /\ date_sound e d.

(** The same environment with another clock reading. *)
Definition with_clock (e : env) (t : string) : env :=
  {| swe := swe e; now_isoformat := t; repr := repr e |}.

(** [all_data] with another value under ['generated_at']. *)
Definition with_generated_at (t : string) (a : AllData) : AllData :=
  {| generator := generator a; version := version a; generated_at := t;
     dates := dates a; planets := planets a |}.

Definition map_outcome {A B} (f : A -> B) (r : result A * world) : result B * world :=
  match r with
  | (Ok a, w) => (Ok (f a), w)
  | (Raise x, w) => (Raise x, w)
  end.

(** A value rounded to six decimal places from [raw]. *)
Definition rounded_from (raw v : Q) : Prop :=
  six_decimals v /\ Qabs (v - raw) <= 1 # 2000000.

Definition record_keys : list string :=
  ["longitude"; "latitude"; "distance"; "longitude_speed"; "latitude_speed";
   "is_retrograde"]%string.

(** A query of the build: one of the ten planets at one of the six dates. *)
Definition dataset_query (c : call) : Prop :=
  exists jd desc name planet_id,
    In (jd, desc) TEST_DATES /\ In (name, planet_id) PLANETS /\
    c = CalcUt jd planet_id FLG_SPEED.

(** The text of the file before and after the value under ['generated_at']. *)
Definition dump_prefix (a : AllData) : string :=
  ("{" ++ newline_indent 1 ++ encode_string "generator" ++ ": "
   ++ encode_string (generator a) ++ "," ++ newline_indent 1
   ++ encode_string "version" ++ ": " ++ encode_string (version a) ++ ","
   ++ newline_indent 1 ++ encode_string "generated_at" ++ ": ")%string.

Definition dump_suffix (repr : Q -> string) (a : AllData) : string :=
  ("," ++ newline_indent 1 ++ encode_string "dates" ++ ": "
   ++ dumps_at repr 1
        (JObj (map (fun kv => (fst kv, date_data_dict (snd kv))) (dates a)))
   ++ "," ++ newline_indent 1 ++ encode_string "planets" ++ ": "
   ++ dumps_at repr 1 (JList (map JStr (planets a)))
   ++ newline_indent 0 ++ "}")%string.

End GenProps.

(** ** Example environments for the closed statements *)
Module Examples.
Import Swe Run Py.
Local Open Scope list_scope.

(** The usual Julian Day formula for the Gregorian calendar.  It answers for
    any month and day, as the library's [julday] does. *)
Definition julday_formula (year month day : Z) (hour : Q) : Q :=
  let u := if (month <? 3)%Z then (year - 1)%Z else year in
  let u0 := (u + 4712)%Z in
  let u1 := if (month + 1 <? 4)%Z then (month + 1 + 12)%Z else (month + 1)%Z in
  let u2 := (Z.abs u / 100 - Z.abs u / 400)%Z in
  inject_Z (Qfloor (inject_Z u0 * 365.25))
  + inject_Z (Qfloor (30.6 * inject_Z u1 + 0.000001))
  + inject_Z day + hour / 24 - 63.5
  - inject_Z (if (u <? 0)%Z then (- u2)%Z else u2) + 2.

(** Positions with Mercury retrograde and Saturn almost stationary. *)
Definition sample_xx (planet : body) : xx :=
  match planet with
  | MERCURY =>
      {| xx0 := 271.8892744; xx1 := -0.9948331; xx2 := 1.4152469;
         xx3 := -1.5562541; xx4 := -0.1017036; xx5 := 0.0012 |}
  | SATURN =>
      {| xx0 := 40.3956351; xx1 := -2.4448277; xx2 := 8.6528097;
         xx3 := -0.0000005; xx4 := 0.0052305; xx5 := 0.0101 |}
  | _ =>
      {| xx0 := 280.3689174; xx1 := 0.0002275; xx2 := 0.9833276;
         xx3 := 1.0194321; xx4 := 0.0000003; xx5 := -0.0000129 |}
  end.

(** A library that answers every call. *)
Definition lib_ok : api :=
  {| version := "2.10.03";
     julday := fun y m d h => Ok (julday_formula y m d h);
     deltat := fun jd => Ok (-5.2 / 86400);
     sidtime := fun jd => Ok 23.9;
     calc := fun jd p =>
       Ok ({| xx0 := 23.4576; xx1 := 23.4561; xx2 := 0.0012; xx3 := -0.0015;
              xx4 := 0; xx5 := 0 |}, 0%Z);
     calc_ut := fun jd p f => Ok (sample_xx p, 258%Z);
     houses := fun jd lat lon hsys =>
       Ok ([0; 191.2; 216.1; 247.3; 283.5; 318.7; 348.2; 11.2; 36.1; 67.3; 103.5;
            138.7; 168.2],
           [191.2; 103.5; 101.6; 15.6; 190.1; 192.3; 170.5; 195.6; 0; 0]) |}.

(** The same library without the ephemeris file for Pluto. *)
Definition lib_no_pluto : api :=
  {| version := version lib_ok;
     julday := julday lib_ok;
     deltat := deltat lib_ok;
     sidtime := sidtime lib_ok;
     calc := calc lib_ok;
     calc_ut := fun jd p f =>
       match p with
       | PLUTO => Raise (Error "ephemeris file not found")
       | _ => calc_ut lib_ok jd p f
       end;
     houses := houses lib_ok |}.

(** A printer of decimals with at most six fractional digits, standing for
    [repr] on the values of the examples. *)
Fixpoint frac_digits (n : nat) (r scale : Z) : string :=
  match n with
  | O => ""
  | S n' =>
      String (ascii_of_nat (48 + Z.to_nat (r / scale)))
             (if (r mod scale =? 0)%Z then "" else frac_digits n' (r mod scale) (scale / 10))
  end.

Definition repr_decimal (x : Q) : string :=
  let n := Qfloor (Qabs x * 1000000) in
  ((if ltb x 0 then "-" else "")
   ++ DecimalString.NilZero.string_of_uint (N.to_uint (Z.to_N (n / 1000000)))
   ++ "." ++ frac_digits 6 (n mod 1000000) 100000)%string.

Definition env_at (lib : api) (now : string) : env :=
  {| swe := lib; now_isoformat := now; repr := repr_decimal |}.

(** Two runs of the same library at different times of the day. *)
Definition morning : env := env_at lib_ok "2024-05-01T09:15:02.123456".
Definition evening : env := env_at lib_ok "2024-05-01T21:40:37.654321".
Definition no_pluto : env := env_at lib_no_pluto "2024-05-01T09:15:02.123456".

(** Birth data with a month that does not exist, and a birth place west of
    Greenwich. *)
Definition month_13 : EinsteinChart.BirthData :=
  {| EinsteinChart.YEAR := 1879; EinsteinChart.MONTH := 13; EinsteinChart.DAY := 14;
     EinsteinChart.HOUR_UT := 10; EinsteinChart.MINUTE_UT := 50;
     EinsteinChart.SECOND_UT := 0;
     EinsteinChart.LATITUDE := 48.4; EinsteinChart.LONGITUDE := 10.0 |}.

Definition west_of_greenwich : EinsteinChart.BirthData :=
  {| EinsteinChart.YEAR := 1879; EinsteinChart.MONTH := 3; EinsteinChart.DAY := 14;
     EinsteinChart.HOUR_UT := 10; EinsteinChart.MINUTE_UT := 50;
     EinsteinChart.SECOND_UT := 0;
     EinsteinChart.LATITUDE := 48.4; EinsteinChart.LONGITUDE := -10.0 |}.

(** The same library at a moment when Greenwich sidereal time is half an hour. *)
Definition lib_small_gmst : api :=
  {| version := version lib_ok;
     julday := julday lib_ok;
     deltat := deltat lib_ok;
     sidtime := fun jd => Ok 0.5;
     calc := calc lib_ok;
     calc_ut := calc_ut lib_ok;
     houses := houses lib_ok |}.

Definition small_gmst : env := env_at lib_small_gmst "2024-05-01T09:15:02.123456".

(** The Julian Day (UT) and Delta T (in days) of the example library for the
    birth data of the script. *)
Definition einstein_jd : Q :=
  julday_formula 1879 3 14 (EinsteinChart.hour_decimal EinsteinChart.einstein).
Definition einstein_delta_t : Q := -5.2 / 86400.

End Examples.

(** ** Binary64 arithmetic

    Where a script truncates or compares the result of a float operation,
    the rounding of that operation decides the outcome.  These are the
    operations as Python carries them out on binary64 floats: the exact
    result rounded to the nearest float, ties to the even significand.
    Overflow, infinities and NaN are not modelled. *)
Module Float64.

(** [2^z] *)
Definition pow2 (z : Z) : Q := Qpower 2 z.

(** The exponent [e] with [2^e <= |x| < 2^(e+1)], for [x] other than zero. *)
Definition binade (x : Q) : Z :=
  let e := (Z.log2 (Z.abs (Qnum x)) - Z.log2 (Zpos (Qden x)))%Z in
  if Qle_bool (pow2 e) (Qabs x) then e else (e - 1)%Z.

(** The spacing of the floats around [x]: 53 significant bits, and 2^-1074
    for the subnormal numbers. *)
Definition ulp (x : Q) : Q := pow2 (Z.max (binade x - 52) (-1074)).

(** The float nearest to [x], ties to even. *)
Definition b64 (x : Q) : Q := inject_Z (Py.round_half_even (x / ulp x)) * ulp x.

(** [x] is a float. *)
Definition is_b64 (x : Q) : Prop := b64 x == x.

(** [x % m] on floats, for [m > 0]: the remainder of the truncated division
    is exact and has the sign of [x]; [m] is added to a negative one, and
    that sum is rounded. *)
Definition fmod64 (x m : Q) : Q :=
  let r := x - m * inject_Z (Py.int (x / m)) in
  if Py.ltb r 0 then b64 (r + m) else r.

(** [sign_idx = int(longitude / 30) % 12] with the quotient rounded. *)
Definition sign_idx64 (longitude : Q) : Z :=
  Py.imod (Py.int (b64 (longitude / 30))) 12.


(** [armc = gmst * 15; lst = armc + LONGITUDE; if lst >= 360: lst -= 360]
    with product, sum and difference rounded. *)
Definition local_sidereal_time64 (gmst longitude : Q) : Q :=
  let armc := b64 (gmst * 15) in
  let lst := b64 (armc + longitude) in
  if Py.geb lst 360 then b64 (lst - 360) else lst.

End Float64.

(** ** Vocabulary for the further statements *)
Module MoreProps.
Import Swe Run Py Props.
Local Open Scope list_scope.

(** [r] is what the library [lib] does on the call [c]. *)
Definition answered {A} (lib : api) (c : call) (r : result A) : Prop :=
  match r with
  | Ok _ => outcome lib c = None
  | Raise x => outcome lib c = Some x
  end.

(** [follows lib cs Q m]: whatever the state before, [m] makes the calls of
    [cs] in order up to the first that raises and writes no file; if one
    raises, [m] ends with its exception, otherwise [m] returns a value
    satisfying [Q]. *)
Definition follows (lib : api) (cs : list call) {A} (Q : A -> Prop) (m : M A) : Prop :=
  forall w,
    queries (snd (m w)) = queries w ++ fst (replay lib cs) /\
    files (snd (m w)) = files w /\
    match snd (replay lib cs) with
    | Some x => fst (m w) = Raise x
    | None => exists a, fst (m w) = Ok a /\ Q a
    end.

(** The calls of the chart after [julday], in the order of the script. *)
Definition chart_schedule (b : EinsteinChart.BirthData) (jd : Q) : list call :=
  [ Deltat jd; Sidtime jd; Sidtime jd; Calc jd ECL_NUT;
    Houses jd (EinsteinChart.LATITUDE b) (EinsteinChart.LONGITUDE b) "P" ]
  ++ map (fun p => CalcUt jd (snd p) EinsteinChart.CALC_FLAGS) EinsteinChart.PLANETS
  ++ map (fun p => CalcUt jd p EinsteinChart.CALC_FLAGS)
       [ TRUE_NODE; MEAN_NODE; MEAN_APOG; SUN; SUN; SUN; MOON; MOON; MOON;
         MERCURY; MERCURY; MERCURY ].

(** A call of the chart carries the birth data, or the Julian Day (UT) that
    [julday] returned for them, and nothing else. *)
Definition chart_call_ok (e : env) (b : EinsteinChart.BirthData) (c : call) : Prop :=
  match c with
  | Julday y m d h =>
      y = EinsteinChart.YEAR b /\ m = EinsteinChart.MONTH b /\
      d = EinsteinChart.DAY b /\ h = EinsteinChart.hour_decimal b
  | Deltat j | Sidtime j | Calc j _ | CalcUt j _ _ => ChartProps.jd_is e b j
  | Houses j lat lon hsys =>
      ChartProps.jd_is e b j /\ lat = EinsteinChart.LATITUDE b /\
      lon = EinsteinChart.LONGITUDE b /\ hsys = "P"%string
  end.

(** If [houses] answers, its second tuple has the four entries the chart
    reads. *)
Definition ascmc_complete (e : env) (b : EinsteinChart.BirthData) (jd : Q) : Prop :=
  match houses (swe e) jd (EinsteinChart.LATITUDE b) (EinsteinChart.LONGITUDE b) "P" with
  | Ok (_, ascmc) => (4 <= List.length ascmc)%nat
  | Raise _ => True
  end.

(** The line the chart prints for house [i] with cusp [c]. *)
Definition house_line (i : nat) (c : Q) : list text :=
  [ Lit "  House "; Fmt (AInt (Z.of_nat i)) "2d"; Lit ": ";
    Fmt (AFloat c) "8.4f"; Lit (degree_sign ++ " = ")%string;
    Fmt (AText (EinsteinChart.format_zodiac c)) "" ].

(** No string occurs twice. *)
Fixpoint distinctb (l : list string) : bool :=
  match l with
  | [] => true
  | x :: l' => negb (existsb (String.eqb x) l') && distinctb l'
  end.

(** The keys of the six dates: [str(jd)] for each of them. *)
Definition date_keys (e : env) : list string :=
  map (fun d => repr e (fst d)) GenerateReferenceData.TEST_DATES.

(** [entry] is the item of ['positions'] for [planet] at [jd]: the planet's
    name with the rounded answer of the library. *)
Definition record_for (e : env) (jd : Q) (planet : string * body)
  (entry : string * GenerateReferenceData.Position) : Prop :=
  fst entry = fst planet /\
  exists result retflag,
    calc_ut (swe e) jd (snd planet) GenerateReferenceData.CALC_FLAGS
    = Ok (result, retflag) /\
    snd entry = GenProps.position_of result.

(** [entry] is the item of ['dates'] for [date]: its key is [str(jd)], and it
    holds the description, the Julian Day and one record per planet, in the
    order of [PLANETS]. *)
Definition date_entry_for (e : env) (date : Q * string)
  (entry : string * GenerateReferenceData.DateData) : Prop :=
  fst entry = repr e (fst date) /\
  GenerateReferenceData.jd (snd entry) = fst date /\
  GenerateReferenceData.description (snd entry) = snd date /\
  Forall2 (record_for e (fst date)) GenerateReferenceData.PLANETS
    (GenerateReferenceData.positions (snd entry)).

End MoreProps.

(** ** Further example environments *)
Module MoreExamples.
Import Swe Run Py Examples.
Local Open Scope list_scope.

(** A library that places every body at the very end of Pisces. *)
Definition lib_end_of_pisces : api :=
  {| version := version lib_ok;
     julday := julday lib_ok;
     deltat := deltat lib_ok;
     sidtime := sidtime lib_ok;
     calc := calc lib_ok;
     calc_ut := fun jd p f =>
       Ok ({| xx0 := 359.9999997; xx1 := 0.0000004; xx2 := 1.0167103;
              xx3 := 0.9856473; xx4 := 0; xx5 := 0 |}, 258%Z);
     houses := houses lib_ok |}.

(** A library whose [houses] returns only three angles. *)
Definition lib_three_angles : api :=
  {| version := version lib_ok;
     julday := julday lib_ok;
     deltat := deltat lib_ok;
     sidtime := sidtime lib_ok;
     calc := calc lib_ok;
     calc_ut := calc_ut lib_ok;
     houses := fun jd lat lon hsys =>
       Ok ([0; 191.2; 216.1; 247.3; 283.5; 318.7; 348.2; 11.2; 36.1; 67.3; 103.5;
            138.7; 168.2],
           [191.2; 103.5; 101.6]) |}.

Definition three_angles : env := env_at lib_three_angles "2024-05-01T09:15:02.123456".

(** A library whose [houses] fails, as Placidus does beyond the polar circle. *)
Definition lib_no_houses : api :=
  {| version := version lib_ok;
     julday := julday lib_ok;
     deltat := deltat lib_ok;
     sidtime := sidtime lib_ok;
     calc := calc lib_ok;
     calc_ut := calc_ut lib_ok;
     houses := fun jd lat lon hsys => Raise (Error "within polar circle") |}.

Definition no_houses : env := env_at lib_no_houses "2024-05-01T09:15:02.123456".

Definition end_of_pisces : env := env_at lib_end_of_pisces "2024-05-01T09:15:02.123456".

End MoreExamples.

(** * Facts about the arithmetic *)
Module PyFacts.

Lemma int_nonneg (x : Q) : 0 <= x -> Py.int x = Qfloor x.
Proof.
  destruct x as [n d]. unfold Qle, Py.int, Qfloor. simpl. intros H.
  apply Z.quot_div_nonneg; lia.
Qed.

Lemma floor_bounds (x : Q) (a b : Z) :
  inject_Z a <= x -> x < inject_Z b -> (a <= Qfloor x < b)%Z.
Proof.
  intros Ha Hb. split.
  - apply Qfloor_resp_le in Ha. now rewrite Qfloor_Z in Ha.
  - rewrite Zlt_Qlt. eapply Qle_lt_trans; [apply Qfloor_le | exact Hb].
Qed.

Lemma fmod_range (x m : Q) : 0 < m -> 0 <= Py.fmod x m /\ Py.fmod x m < m.
Proof.
  intros Hm. unfold Py.fmod.
  pose proof (Qfloor_le (x / m)) as H1.
  pose proof (Qlt_floor (x / m)) as H2.
  rewrite inject_Z_plus in H2. 
  set (f := inject_Z (Qfloor (x / m))) in *.
  assert (Hx : x == (x / m) * m) by (field; intro E; rewrite E in Hm; now apply Qlt_irrefl in Hm).
  set (q := x / m) in *.
  split.
  - assert (E : q * m - m * f == (q - f) * m) by ring.
    rewrite Hx at 1. rewrite E. apply Qmult_le_0_compat; lra.
  - assert (E : m - (q * m - m * f) == (f + inject_Z 1 - q) * m) by (unfold inject_Z at 1; ring).
    apply Qlt_minus_iff. rewrite Hx at 1. rewrite E.
    apply Qmult_lt_0_compat; lra.
Qed.

Lemma sign_idx_range (L : Q) : (0 <= Zodiac.sign_idx L < 12)%Z.
Proof. unfold Zodiac.sign_idx, Py.imod. apply Z.mod_pos_bound. lia. Qed.

Lemma degrees_range (L : Q) : 0 <= Zodiac.degrees L /\ Zodiac.degrees L < 30.
Proof. apply fmod_range. reflexivity. Qed.

Lemma div30_nonneg (L : Q) : 0 <= L -> 0 <= L / 30.
Proof. intros H. unfold Qdiv. apply Qmult_le_0_compat; [exact H | discriminate]. Qed.

Lemma sign_idx_nonneg (L : Q) : 0 <= L -> Zodiac.sign_idx L = Zodiac.spec_sign_idx L.
Proof.
  intros H. unfold Zodiac.sign_idx, Zodiac.spec_sign_idx, Py.imod, Py.floor.
  now rewrite int_nonneg by now apply div30_nonneg.
Qed.

Lemma sign_idx_reduced (L : Q) :
  0 <= L -> L < 360 -> Zodiac.sign_idx L = Qfloor (L / 30).
Proof.
  intros H0 H1. rewrite sign_idx_nonneg by exact H0.
  unfold Zodiac.spec_sign_idx, Py.floor. apply Z.mod_small.
  apply floor_bounds.
  - now apply div30_nonneg.
  - apply Qlt_shift_div_r; [reflexivity | exact H1].
Qed.

Lemma reconstruction (L : Q) :
  0 <= L -> L < 360 -> inject_Z (Zodiac.sign_idx L) * 30 + Zodiac.degrees L == L.
Proof.
  intros H0 H1. rewrite sign_idx_reduced by assumption.
  unfold Zodiac.degrees, Py.fmod. ring.
Qed.

(** Truncation and floor differ by one on negative non-integers. *)
Lemma int_negative (x : Q) :
  x < 0 -> ~ x == inject_Z (Qfloor x) -> Py.int x = (Qfloor x + 1)%Z.
Proof.
  destruct x as [n d]. unfold Qlt, Qeq, Py.int, Qfloor. simpl. intros H Hne.
  assert (Hn : (n < 0)%Z) by lia.
  pose proof (Z.div_mod n (Zpos d) ltac:(lia)) as Hdm.
  pose proof (Z.mod_pos_bound n (Zpos d) ltac:(lia)) as Hb.
  assert (Hr : (n mod Zpos d <> 0)%Z).
  { intro E. apply Hne. rewrite E in Hdm. nia. }
  rewrite <- (Z.opp_involutive n) at 1.
  rewrite Z.quot_opp_l by lia.
  rewrite Z.quot_div_nonneg by lia.
  rewrite Z_div_nz_opp_full; solve [lia | assumption].
Qed.

Lemma round_half_even_near (x : Q) : Qabs (x - inject_Z (Py.round_half_even x)) <= 1 # 2.
Proof.
  unfold Py.round_half_even.
  pose proof (Qfloor_le x) as H1. pose proof (Qlt_floor x) as H2.
  rewrite inject_Z_plus in H2.
  set (f := Qfloor x) in *.
  apply Qabs_Qle_condition.
  destruct (Qcompare (x - inject_Z f) (1 # 2)) eqn:E.
  - apply Qeq_alt in E.
    destruct (Z.even f); [| rewrite inject_Z_plus]; change (inject_Z 1) with 1 in *; split; lra.
  - apply Qlt_alt in E. change (inject_Z 1) with 1 in *. split; lra.
  - apply Qgt_alt in E. rewrite inject_Z_plus. change (inject_Z 1) with 1 in *. split; lra.
Qed.

Lemma round6_near (x : Q) : Qabs (Py.round6 x - x) <= 1 # 2000000.
Proof.
  pose proof (round_half_even_near (x * 1000000)) as H.
  apply Qabs_Qle_condition in H. apply Qabs_Qle_condition.
  unfold Py.round6. set (k := inject_Z _) in *.
  assert (Hk : k == (k / 1000000) * 1000000) by field.
  set (y := k / 1000000) in *. lra.
Qed.


Lemma ltb_spec (x y : Q) : Py.ltb x y = true <-> x < y.
Proof.
  unfold Py.ltb. rewrite Qlt_alt. destruct (Qcompare x y); split; congruence.
Qed.

Lemma geb_spec (x y : Q) : Py.geb x y = true <-> y <= x.
Proof.
  unfold Py.geb. rewrite negb_true_iff. 
  destruct (Py.ltb x y) eqn:E.
  - apply ltb_spec in E. split; [discriminate | lra].
  - split; [intros _ | reflexivity]. apply Qnot_lt_le. intro H. apply ltb_spec in H. congruence.
Qed.

(** On a negative longitude that is not a multiple of 30 degrees the index of
    the script is one more than the floor index, around the zodiac. *)
Lemma sign_idx_negative (L : Q) :
  L < 0 -> ~ L / 30 == inject_Z (Qfloor (L / 30)) ->
  Zodiac.sign_idx L = ((Zodiac.spec_sign_idx L + 1) mod 12)%Z.
Proof.
  intros Hneg Hfrac. unfold Zodiac.sign_idx, Zodiac.spec_sign_idx, Py.imod, Py.floor.
  rewrite int_negative; [| | exact Hfrac].
  - now rewrite Z.add_mod_idemp_l by lia.
  - unfold Qdiv. setoid_replace 0 with (0 * / 30) by ring.
    apply Qmult_lt_compat_r; [reflexivity | exact Hneg].
Qed.

(** One conditional subtraction reduces a sum below 720 degrees. *)
Lemma local_sidereal_time_range (gmst lon : Q) :
  0 <= gmst -> gmst < 24 -> 0 <= lon -> lon <= 360 ->
  EinsteinChart.local_sidereal_time (gmst * 15) lon == Py.fmod (gmst * 15 + lon) 360 /\
  0 <= EinsteinChart.local_sidereal_time (gmst * 15) lon /\
  EinsteinChart.local_sidereal_time (gmst * 15) lon < 360.
Proof.
  intros Hg0 Hg1 Hl0 Hl1. unfold EinsteinChart.local_sidereal_time, Py.fmod.
  set (x := gmst * 15 + lon).
  assert (Hx0 : 0 <= x) by (unfold x; lra).
  assert (Hx1 : x < 720) by (unfold x; lra).
  destruct (Py.geb x 360) eqn:E.
  - apply geb_spec in E.
    assert (Hf : Qfloor (x / 360) = 1%Z).
    { assert (B : (1 <= Qfloor (x / 360) < 2)%Z).
      { apply floor_bounds.
        - apply Qle_shift_div_l; [reflexivity | unfold inject_Z; lra].
        - apply Qlt_shift_div_r; [reflexivity | unfold inject_Z; lra]. }
      lia. }
    rewrite Hf. unfold inject_Z. repeat split; lra.
  - assert (Hlt : x < 360).
    { apply Qnot_le_lt. intro H. apply geb_spec in H. congruence. }
    assert (Hf : Qfloor (x / 360) = 0%Z).
    { assert (B : (0 <= Qfloor (x / 360) < 1)%Z).
      { apply floor_bounds.
        - apply Qle_shift_div_l; [reflexivity | unfold inject_Z; lra].
        - apply Qlt_shift_div_r; [reflexivity | unfold inject_Z; lra]. }
      lia. }
    rewrite Hf. unfold inject_Z. repeat split; lra.
Qed.

Lemma round_half_even_between (x : Q) :
  (Qfloor x <= Py.round_half_even x <= Qfloor x + 1)%Z.
Proof.
  unfold Py.round_half_even.
  destruct (Qcompare _ _); [destruct (Z.even _) | |]; lia.
Qed.

(** Rounding to six decimals keeps the sign, or gives zero. *)
Lemma round6_of_nonneg (x : Q) : 0 <= x -> 0 <= Py.round6 x.
Proof.
  intros H. unfold Py.round6.
  assert (B : (0 <= Qfloor (x * 1000000))%Z).
  { change 0%Z with (Qfloor 0). apply Qfloor_resp_le. lra. }
  pose proof (round_half_even_between (x * 1000000)) as K.
  apply Qle_shift_div_l; [reflexivity |]. rewrite Qmult_0_l.
  change 0 with (inject_Z 0). rewrite <- Zle_Qle. lia.
Qed.

Lemma round6_of_negative (x : Q) : x < 0 -> Py.round6 x <= 0.
Proof.
  intros H. unfold Py.round6.
  assert (B : (Qfloor (x * 1000000) < 0)%Z).
  { rewrite Zlt_Qlt. eapply Qle_lt_trans; [apply Qfloor_le |]. unfold inject_Z. lra. }
  pose proof (round_half_even_between (x * 1000000)) as K.
  apply Qle_shift_div_r; [reflexivity |]. rewrite Qmult_0_l.
  change 0 with (inject_Z 0). rewrite <- Zle_Qle. lia.
Qed.

End PyFacts.

(** * Facts about runs *)
Module RunFacts.
Import Swe Run Py Props.
Local Open Scope list_scope.

Lemma in_setitem {V} (d : list (string * V)) (k k' : string) (v v' : V) :
  In (k, v) (setitem d k' v') -> (k, v) = (k', v') \/ In (k, v) d.
Proof.
  induction d as [| [k0 v0] d IH]; simpl.
  - intros [H | []]. left. now symmetry.
  - destruct (String.eqb k0 k') eqn:E.
    + apply String.eqb_eq in E. subst k0. simpl. intros [H | H]; [now left | now right; right].
    + simpl. intros [H | H]; [now right; left |].
      destruct (IH H) as [H' | H']; [now left | now right; right].
Qed.

Lemma bind_ok {A B} (m : M A) (k : A -> M B) (w w1 : world) (a : A) :
  m w = (Ok a, w1) -> bind m k w = k a w1.
Proof. intros E. unfold bind. now rewrite E. Qed.

Lemma bind_raise {A B} (m : M A) (k : A -> M B) (w w1 : world) (x : exn) :
  m w = (Raise x, w1) -> bind m k w = (Raise x, w1).
Proof. intros E. unfold bind. now rewrite E. Qed.

Lemma print_bind {B} (line : list text) (k : unit -> M B) (w : world) :
  bind (print line) k w
  = k tt {| queries := queries w; stdout := stdout w ++ [line]; files := files w |}.
Proof. reflexivity. Qed.

Lemma write_file_bind {B} (path content : string) (k : unit -> M B) (w : world) :
  bind (write_file path content) k w
  = k tt {| queries := queries w; stdout := stdout w;
            files := setitem (files w) path content |}.
Proof. reflexivity. Qed.

Lemma prints_only_print (line : list text) : prints_only (print line).
Proof. intros w. now exists [line]. Qed.

Lemma prints_only_seq (m1 m2 : M unit) :
  prints_only m1 -> prints_only m2 -> prints_only (m1 ;; m2).
Proof.
  intros H1 H2 w. destruct (H1 w) as [s1 E1].
  rewrite (bind_ok _ _ _ _ _ E1).
  destruct (H2 {| queries := queries w; stdout := stdout w ++ s1; files := files w |})
    as [s2 E2].
  exists (s1 ++ s2). rewrite E2. simpl. now rewrite app_assoc.
Qed.

Section Emits.
Variable P : call -> Prop.
Variable R : list text -> Prop.

Lemma emits_ret {A} (Q : A -> Prop) (a : A) : Q a -> emits P R Q (ret a).
Proof.
  intros H w. exists [], []. simpl. rewrite !app_nil_r. repeat split; auto.
  intros a' E. now inversion E; subst.
Qed.

Lemma emits_raise {A} (Q : A -> Prop) (x : exn) : emits P R Q (raise x).
Proof.
  intros w. exists [], []. simpl. rewrite !app_nil_r. repeat split; auto.
  intros a' E. discriminate.
Qed.

Lemma emits_lift {A} (Q : A -> Prop) (o : option A) (x : exn) :
  (forall a, o = Some a -> Q a) -> emits P R Q (lift o x).
Proof.
  intros H. destruct o; [apply emits_ret; auto | apply emits_raise].
Qed.

Lemma emits_print (Q : unit -> Prop) (line : list text) :
  R line -> Q tt -> emits P R Q (print line).
Proof.
  intros H HQ w. exists [], [line]. simpl. rewrite app_nil_r. repeat split; auto.
  intros [] _. exact HQ.
Qed.

Lemma emits_invoke {A} (Q : A -> Prop) (c : call) (r : result A) :
  P c -> (forall a, r = Ok a -> Q a) -> emits P R Q (invoke c r).
Proof.
  intros H HQ w. exists [c], []. simpl. rewrite app_nil_r. repeat split; auto.
Qed.

Lemma emits_bind {A B} (Q1 : A -> Prop) (Q : B -> Prop) (m : M A) (k : A -> M B) :
  emits P R Q1 m -> (forall a, Q1 a -> emits P R Q (k a)) -> emits P R Q (bind m k).
Proof.
  intros Hm Hk w. unfold bind.
  destruct (Hm w) as (q1 & s1 & Eq & Es & Ef & Fq & Fs & Ha).
  destruct (m w) as [[a | x] w1]; simpl in *.
  - destruct (Hk a (Ha a eq_refl) w1) as (q2 & s2 & Eq2 & Es2 & Ef2 & Fq2 & Fs2 & Hb).
    exists (q1 ++ q2), (s1 ++ s2).
    rewrite Eq2, Es2, Ef2, Eq, Es, Ef, !app_assoc.
    repeat split; auto; apply Forall_app; auto.
  - exists q1, s1. repeat split; auto. intros b E. discriminate.
Qed.

Lemma emits_seq {A B} (Q : B -> Prop) (m : M A) (k : A -> M B) :
  emits P R any m -> (forall a, emits P R Q (k a)) -> emits P R Q (bind m k).
Proof. intros Hm Hk. apply emits_bind with (Q1 := any); auto. Qed.

Lemma emits_call {A B} (Q : B -> Prop) (c : call) (r : result A) (k : A -> M B) :
  P c -> (forall a, r = Ok a -> emits P R Q (k a)) -> emits P R Q (bind (invoke c r) k).
Proof.
  intros Hc Hk. apply emits_bind with (Q1 := fun a => r = Ok a); auto.
  apply emits_invoke; auto.
Qed.

Lemma emits_for_each {A S} (I : S -> Prop) (xs : list A) (body : A -> S -> M S) (s : S) :
  (forall x s', In x xs -> I s' -> emits P R I (body x s')) -> I s ->
  emits P R I (for_each xs body s).
Proof.
  revert s. induction xs as [| x xs IH]; intros s Hb Hs; simpl.
  - now apply emits_ret.
  - apply emits_bind with (Q1 := I).
    + apply Hb; [now left | exact Hs].
    + intros s' Hs'. apply IH; [| exact Hs']. intros y s2 Hy. apply Hb. now right.
Qed.

End Emits.

(** One step through a computation built from the operations above. *)
Ltac emits_step :=
  lazymatch goal with
  | |- emits _ _ _ (bind (invoke _ _) _) => apply emits_call; [ | intros ? ?]
  | |- emits _ _ _ (bind _ _) => apply emits_seq; [ | intros ?]
  | |- emits _ _ _ (ret _) => apply emits_ret
  | |- emits _ _ _ (print _) => apply emits_print
  | |- emits _ _ _ (lift _ _) => apply emits_lift; intros ? ?
  | |- emits _ _ _ (invoke _ _) => apply emits_invoke; [ | intros ? ?]
  | |- emits _ _ _ (for_each _ _ _) =>
      apply emits_for_each with (I := any); [intros ? ? ? ? | ]
  | |- emits _ _ _ (match ?x with _ => _ end) => destruct x
  | |- emits _ _ _ (let '(_, _) := ?x in _) => destruct x
  end.

(** What [emits] says about a run from the empty state. *)
Lemma emits_run (P : call -> Prop) (R : list text -> Prop) {A} (Q : A -> Prop) (m : M A) :
  emits P R Q m ->
  Forall P (queries (snd (run m))) /\ Forall R (stdout (snd (run m))) /\
  files (snd (run m)) = [].
Proof.
  intros H. destruct (H start) as (q & s & Eq & Es & Ef & Fq & Fs & _).
  unfold run. rewrite Eq, Es, Ef. simpl. auto.
Qed.

Lemma emits_keeps_lines (P : call -> Prop) (R : list text -> Prop) {A} (Q : A -> Prop)
  (m : M A) (w : world) (l : list text) :
  emits P R Q m -> In l (stdout w) -> In l (stdout (snd (m w))).
Proof.
  intros H Hl. destruct (H w) as (q & s & _ & Es & _). rewrite Es.
  apply in_or_app. now left.
Qed.

Lemma emits_keeps_queries (P : call -> Prop) (R : list text -> Prop) {A} (Q : A -> Prop)
  (m : M A) (w : world) :
  emits P R Q m -> exists q, queries (snd (m w)) = queries w ++ q.
Proof.
  intros H. destruct (H w) as (q & s & Eq & _). now exists q.
Qed.

(** A computation that makes no library call leaves the calls and the files
    as they were. *)
Lemma emits_silent (R : list text -> Prop) {A} (Q : A -> Prop) (m : M A) (w : world) :
  emits (fun _ => False) R Q m ->
  queries (snd (m w)) = queries w /\ files (snd (m w)) = files w.
Proof.
  intros H. destruct (H w) as (q & s & Eq & _ & Ef & Fq & _).
  destruct q as [| c q]; [| now inversion Fq].
  rewrite app_nil_r in Eq. auto.
Qed.

End RunFacts.

(** * Facts about [einstein_chart.py] *)
Module EinsteinFacts.
Import Swe Run Py Props RunFacts PyFacts EinsteinChart ChartProps.
Local Open Scope list_scope.

Ltac unfold_blocks :=
  unfold chart, banner, julian_date, delta_t_block, sidereal_time_block,
    obliquity_block, houses_block, planets_block, points_block, summary_block,
    summary_body, point_line, angle_line, planet_step, house_step,
    swe_julday, swe_deltat, swe_sidtime, swe_calc, swe_calc_ut, swe_houses.


Section Chart.
Variable e : env.
Variable b : BirthData.

Lemma chart_ut_queries : emits (ut_query e b) any any (chart e b).
Proof.
  unfold chart.
  apply emits_seq; [unfold_blocks; repeat emits_step; exact I |]. intros _.
  apply emits_bind with (Q1 := jd_is e b).
  { unfold_blocks. repeat emits_step; solve [exact I | assumption]. }
  intros jd Hjd.
  unfold_blocks. repeat emits_step; solve [exact I | exact Hjd].
Qed.


Lemma banner_run : prints_only (banner e b).
Proof.
  unfold banner. repeat (apply prints_only_seq; [apply prints_only_print |]).
  apply prints_only_print.
Qed.

Lemma julian_date_ok (w : world) (jd : Q) :
  jd_is e b jd ->
  julian_date e b w
  = (Ok jd,
     {| queries := queries w ++ [Julday (YEAR b) (MONTH b) (DAY b) (hour_decimal b)];
        stdout := stdout w ++ [[Lit "Julian Date (UT): "; Fmt (AFloat jd) ""]; []];
        files := files w |}).
Proof.
  intros H. unfold julian_date, swe_julday, invoke, bind, print, ret. rewrite H.
  simpl. now rewrite <- app_assoc.
Qed.

Lemma julian_date_raise (w : world) (x : exn) :
  julday (swe e) (YEAR b) (MONTH b) (DAY b) (hour_decimal b) = Raise x ->
  julian_date e b w
  = (Raise x,
     {| queries := queries w ++ [Julday (YEAR b) (MONTH b) (DAY b) (hour_decimal b)];
        stdout := stdout w; files := files w |}).
Proof.
  intros H. unfold julian_date, swe_julday, invoke, bind. now rewrite H.
Qed.

Lemma delta_t_block_ok (w : world) (jd dt : Q) :
  deltat (swe e) jd = Ok dt ->
  delta_t_block e jd w
  = (Ok tt,
     {| queries := queries w ++ [Deltat jd];
        stdout := stdout w ++ [delta_t_line (dt * 86400); jd_tt_line (jd + dt); []];
        files := files w |}).
Proof.
  intros H. unfold delta_t_block, swe_deltat, invoke, bind, print. rewrite H.
  simpl. now rewrite <- !app_assoc.
Qed.

Lemma sidereal_time_block_ok (w : world) (jd gmst : Q) :
  sidtime (swe e) jd = Ok gmst ->
  exists l,
    sidereal_time_block e b jd w
    = (Ok tt,
       {| queries := queries w ++ [Sidtime jd; Sidtime jd];
          stdout := stdout w
                    ++ [l; lst_line (local_sidereal_time (gmst * 15) (LONGITUDE b)); []];
          files := files w |}).
Proof.
  intros H. unfold sidereal_time_block, swe_sidtime, invoke, bind, print. rewrite H.
  simpl. rewrite <- !app_assoc. simpl.
  eexists. reflexivity.
Qed.

Lemma after_sidereal_emits (jd : Q) :
  emits any any any
    (obliquity_block e jd ;; ascmc <- houses_block e b jd ;; planets_block e jd ;;
     points_block e jd ;; summary_block e jd ascmc).
Proof. unfold_blocks. repeat emits_step; exact I. Qed.

Lemma after_delta_t_emits (jd : Q) :
  emits any any any
    (sidereal_time_block e b jd ;; obliquity_block e jd ;; ascmc <- houses_block e b jd ;;
     planets_block e jd ;; points_block e jd ;; summary_block e jd ascmc).
Proof. unfold_blocks. repeat emits_step; exact I. Qed.

Lemma delta_t_block_raise (w : world) (jd : Q) (x : exn) :
  deltat (swe e) jd = Raise x ->
  delta_t_block e jd w
  = (Raise x,
     {| queries := queries w ++ [Deltat jd]; stdout := stdout w; files := files w |}).
Proof.
  intros H. unfold delta_t_block, swe_deltat, invoke, bind. now rewrite H.
Qed.

(** The lines about Delta T are printed as soon as the two calls succeed. *)
Lemma chart_prints_delta_t (jd dt : Q) :
  jd_is e b jd -> deltat (swe e) jd = Ok dt ->
  In (delta_t_line (dt * 86400)) (stdout (snd (run (chart e b)))) /\
  In (jd_tt_line (jd + dt)) (stdout (snd (run (chart e b)))).
Proof.
  intros Hjd Hdt. unfold run, chart.
  destruct (banner_run start) as [s0 Hb]. rewrite (bind_ok _ _ _ _ _ Hb).
  rewrite (bind_ok _ _ _ _ _ (julian_date_ok _ _ Hjd)).
  rewrite (bind_ok _ _ _ _ _ (delta_t_block_ok _ _ _ Hdt)).
  split; (eapply emits_keeps_lines; [apply after_delta_t_emits |]);
    simpl; apply in_or_app; right; simpl; auto.
Qed.

(** The line about the local sidereal time is printed as soon as the calls
    before it succeed. *)
Lemma chart_prints_lst (jd dt gmst : Q) :
  jd_is e b jd -> deltat (swe e) jd = Ok dt -> sidtime (swe e) jd = Ok gmst ->
  In (lst_line (local_sidereal_time (gmst * 15) (LONGITUDE b)))
     (stdout (snd (run (chart e b)))).
Proof.
  intros Hjd Hdt Hst. unfold run, chart.
  destruct (banner_run start) as [s0 Hb]. rewrite (bind_ok _ _ _ _ _ Hb).
  rewrite (bind_ok _ _ _ _ _ (julian_date_ok _ _ Hjd)).
  rewrite (bind_ok _ _ _ _ _ (delta_t_block_ok _ _ _ Hdt)).
  destruct (sidereal_time_block_ok
              {| queries := (queries start ++ [Julday (YEAR b) (MONTH b) (DAY b) (hour_decimal b)])
                            ++ [Deltat jd];
                 stdout := ((stdout start ++ s0)
                            ++ [[Lit "Julian Date (UT): "; Fmt (AFloat jd) ""]; []])
                           ++ [delta_t_line (dt * 86400); jd_tt_line (jd + dt); []];
                 files := files start |} jd gmst Hst) as [l Hs].
  simpl in *. rewrite (bind_ok _ _ _ _ _ Hs).
  eapply emits_keeps_lines; [apply after_sidereal_emits |].
  simpl. apply in_or_app; right; simpl; auto.
Qed.

(** The first library call is [julday] on the birth data as they are; only
    its own exception stops the run there. *)
Lemma chart_julday_first :
  match julday (swe e) (YEAR b) (MONTH b) (DAY b) (hour_decimal b) with
  | Ok jd =>
      exists rest,
        queries (snd (run (chart e b)))
        = Julday (YEAR b) (MONTH b) (DAY b) (hour_decimal b) :: Deltat jd :: rest
  | Raise x =>
      fst (run (chart e b)) = Raise x /\
      queries (snd (run (chart e b)))
      = [Julday (YEAR b) (MONTH b) (DAY b) (hour_decimal b)]
  end.
Proof.
  destruct (julday (swe e) (YEAR b) (MONTH b) (DAY b) (hour_decimal b)) as [jd | x] eqn:Hjd.
  - unfold run, chart.
    destruct (banner_run start) as [s0 Hb]. rewrite (bind_ok _ _ _ _ _ Hb).
    rewrite (bind_ok _ _ _ _ _ (julian_date_ok _ _ Hjd)).
    destruct (deltat (swe e) jd) as [dt | x] eqn:Hdt.
    + rewrite (bind_ok _ _ _ _ _ (delta_t_block_ok _ _ _ Hdt)).
      match goal with
      | |- context [snd (?m ?w)] =>
          destruct (emits_keeps_queries any any any m w (after_delta_t_emits jd)) as [q Hq]
      end.
      exists q. rewrite Hq. simpl. reflexivity.
    + rewrite (bind_raise _ _ _ _ _ (delta_t_block_raise _ _ _ Hdt)).
      exists []. reflexivity.
  - unfold run, chart.
    destruct (banner_run start) as [s0 Hb]. rewrite (bind_ok _ _ _ _ _ Hb).
    rewrite (bind_raise _ _ _ _ _ (julian_date_raise _ _ Hjd)).
    split; reflexivity.
Qed.

End Chart.

End EinsteinFacts.

(** * Facts about [generate_reference_data.py] *)
Module GenFacts.
Import Swe Run Py Props RunFacts PyFacts GenerateReferenceData GenProps.
Local Open Scope list_scope.

Lemma replay_app (lib : api) (l1 l2 : list call) :
  replay lib (l1 ++ l2)
  = match snd (replay lib l1) with
    | Some x => replay lib l1
    | None => (fst (replay lib l1) ++ fst (replay lib l2), snd (replay lib l2))
    end.
Proof.
  induction l1 as [| c l1 IH]; simpl.
  - now destruct (replay lib l2).
  - destruct (outcome lib c); simpl; [reflexivity |].
    rewrite IH. destruct (replay lib l1) as [made [x |]]; simpl; [reflexivity |].
    reflexivity.
Qed.

(** Up to the first call that raises, the calls made are the calls listed. *)
Lemma replay_first_failure (lib : api) (pre post : list call) (c : call) (x : exn) :
  Forall (fun c' => outcome lib c' = None) pre -> outcome lib c = Some x ->
  replay lib (pre ++ c :: post) = (pre ++ [c], Some x).
Proof.
  intros Hpre Hc. induction Hpre as [| c' pre Hc' Hpre IH]; simpl.
  - now rewrite Hc.
  - rewrite Hc', IH. reflexivity.
Qed.

Lemma replay_all_answered (lib : api) (cs : list call) :
  Forall (fun c => outcome lib c = None) cs -> replay lib cs = (cs, None).
Proof.
  intros H. induction H as [| c cs Hc Hcs IH]; simpl; [reflexivity |].
  now rewrite Hc, IH.
Qed.

Section Script.
Variable e : env.

Lemma calculate_position_run (planet_id : body) (jd : Q) (w : world) :
  calculate_position e planet_id jd w
  = (match calc_ut (swe e) jd planet_id CALC_FLAGS with
     | Ok (result, _) => Ok (position_of result)
     | Raise x => Raise x
     end,
     {| queries := queries w ++ [CalcUt jd planet_id CALC_FLAGS];
        stdout := stdout w; files := files w |}).
Proof.
  unfold calculate_position, swe_calc_ut, invoke, bind, ret.
  destruct (calc_ut (swe e) jd planet_id CALC_FLAGS) as [[result retflag] | x]; reflexivity.
Qed.

Lemma planet_step_run (jd : Q) (name : string) (planet_id : body) (dd : DateData)
  (w : world) :
  exists w',
    planet_step e jd (name, planet_id) dd w
    = (match calc_ut (swe e) jd planet_id CALC_FLAGS with
       | Ok (result, _) => Ok (set_position dd name (position_of result))
       | Raise x => Raise x
       end, w') /\
    queries w' = queries w ++ [CalcUt jd planet_id CALC_FLAGS] /\
    files w' = files w.
Proof.
  unfold planet_step, bind. rewrite calculate_position_run.
  destruct (calc_ut (swe e) jd planet_id CALC_FLAGS) as [[result retflag] | x].
  - eexists. split; [reflexivity |]. simpl. auto.
  - eexists. split; [reflexivity |]. simpl. auto.
Qed.

(** The inner loop makes the scheduled calls up to the first that raises. *)
Lemma planets_loop_replay (jd : Q) (ps : list (string * body)) (dd : DateData) (w : world) :
  let r := for_each ps (planet_step e jd) dd w in
  queries (snd r) = queries w ++ fst (replay (swe e) (schedule_for jd ps)) /\
  files (snd r) = files w /\
  match snd (replay (swe e) (schedule_for jd ps)) with
  | Some x => fst r = Raise x
  | None => exists dd', fst r = Ok dd'
  end.
Proof.
  revert dd w. induction ps as [| [name pid] ps IH]; intros dd w;
    cbn [for_each schedule_for map snd replay outcome].
  - cbn. rewrite app_nil_r. repeat split. now exists dd.
  - destruct (planet_step_run jd name pid dd w) as (w1 & E1 & Eq1 & Ef1).
    unfold bind. rewrite E1.
    destruct (calc_ut (swe e) jd pid CALC_FLAGS) as [[result retflag] | x].
    + specialize (IH (set_position dd name (position_of result)) w1).
      cbv zeta in IH. destruct IH as (IHq & IHf & IHr).
      fold (schedule_for jd ps).
      destruct (replay (swe e) (schedule_for jd ps)) as [made r].
      cbn [fst snd] in *.
      rewrite IHq, IHf, Eq1, Ef1, <- app_assoc. auto.
    + cbn [fst snd]. rewrite Eq1, Ef1. auto.
Qed.

Lemma date_step_replay (jd : Q) (desc : string) (a : AllData) (w : world) :
  let r := date_step e (jd, desc) a w in
  queries (snd r) = queries w ++ fst (replay (swe e) (schedule_for jd PLANETS)) /\
  files (snd r) = files w /\
  match snd (replay (swe e) (schedule_for jd PLANETS)) with
  | Some x => fst r = Raise x
  | None => exists a', fst r = Ok a'
  end.
Proof.
  unfold date_step. rewrite !print_bind.
  match goal with
  | |- context [bind (for_each PLANETS (planet_step e jd) ?dd) ?k ?w0] =>
      pose proof (planets_loop_replay jd PLANETS dd w0) as H; unfold bind;
      destruct (for_each PLANETS (planet_step e jd) dd w0) as [[dd' | x] w1]
  end;
    cbv zeta in H; unfold ret; cbn [queries stdout files fst snd] in *;
    destruct H as (Hq & Hf & Hr);
    destruct (replay (swe e) (schedule_for jd PLANETS)) as [made [x' |]];
    cbn [fst snd] in *; repeat split; auto;
    try discriminate; try (destruct Hr; discriminate).
  eexists; reflexivity.
  now inversion Hr.
Qed.

(** The loop over the dates makes the scheduled calls up to the first that
    raises. *)
Lemma dates_loop_replay (ds : list (Q * string)) (a : AllData) (w : world) :
  let r := for_each ds (date_step e) a w in
  let cs := flat_map (fun d => schedule_for (fst d) PLANETS) ds in
  queries (snd r) = queries w ++ fst (replay (swe e) cs) /\
  files (snd r) = files w /\
  match snd (replay (swe e) cs) with
  | Some x => fst r = Raise x
  | None => exists a', fst r = Ok a'
  end.
Proof.
  revert a w. induction ds as [| [jd desc] ds IH]; intros a w;
    cbn [for_each flat_map fst].
  - cbn. rewrite app_nil_r. repeat split. now exists a.
  - cbv zeta. rewrite replay_app.
    pose proof (date_step_replay jd desc a w) as H. cbv zeta in H.
    unfold bind.
    destruct (date_step e (jd, desc) a w) as [[a1 | x] w1];
      cbn [fst snd] in *; destruct H as (Hq & Hf & Hr);
      destruct (replay (swe e) (schedule_for jd PLANETS)) as [made [x' |]];
      cbn [fst snd] in *; try discriminate; try (destruct Hr; discriminate).
    + specialize (IH a1 w1). cbv zeta in IH. destruct IH as (IHq & IHf & IHr).
      rewrite IHq, IHf, Hq, Hf, <- app_assoc. auto.
    + rewrite Hq, Hf. auto.
Qed.

Lemma calculate_position_emits (planet_id : body) (jd : Q) :
  emits any any
    (fun pos => exists result retflag,
       calc_ut (swe e) jd planet_id CALC_FLAGS = Ok (result, retflag) /\
       pos = position_of result)
    (calculate_position e planet_id jd).
Proof.
  unfold calculate_position, swe_calc_ut.
  apply emits_call; [exact I |]. intros [result retflag] H.
  apply emits_ret. now exists result, retflag.
Qed.

Lemma planets_loop_sound (jd : Q) (desc : string) :
  emits any any
    (fun dd => GenerateReferenceData.jd dd = jd /\ description dd = desc /\
               forall name pos, In (name, pos) (positions dd) ->
                 exists result, position_from e jd name pos result)
    (for_each PLANETS (planet_step e jd)
       {| description := desc; jd := jd; positions := [] |}).
Proof.
  apply emits_for_each.
  - intros [name pid] dd Hin (Hjd & Hdesc & Hpos). unfold planet_step.
    eapply emits_bind; [apply calculate_position_emits |].
    intros pos (result & retflag & Hcall & Hp). cbv beta.
    apply emits_seq; [apply emits_print; exact I |]. intros _.
    apply emits_ret. cbn. repeat split; auto.
    intros name' pos' H. apply in_setitem in H. destruct H as [H | H]; [| auto].
    inversion H; subst name' pos'.
    exists result, pid, retflag. auto.
  - cbn. repeat split. intros name pos [].
Qed.

(** Whatever the loop over the dates leaves in [all_data] is sound. *)
Lemma build_sound : emits any any (dataset_sound e) (build e).
Proof.
  unfold build. apply emits_for_each.
  - intros [jd desc] a Hin (Hg & Hv & Ht & Hp & Hd). unfold date_step.
    do 6 (apply emits_seq; [apply emits_print; exact I |]; intros _).
    eapply emits_bind; [apply planets_loop_sound |].
    intros dd (Hjd & Hdesc & Hpos). apply emits_ret.
    unfold dataset_sound, set_date. cbn [generator version generated_at planets dates].
    repeat (split; [assumption |]).
    intros key d H. apply in_setitem in H. destruct H as [H | H]; [| now apply Hd].
    inversion H. subst key d. split; [now rewrite Hjd |].
    split; [now rewrite Hjd, Hdesc | now rewrite Hjd].
  - unfold dataset_sound, initial_all_data.
    cbn [generator version generated_at planets dates].
    repeat (split; [reflexivity |]). intros key d [].
Qed.

Lemma key_values_emits (a : AllData) : emits (fun _ => False) any any (key_values a).
Proof.
  unfold key_values, key_values_step. repeat emits_step; exact I.
Qed.

Lemma main_unfold :
  run (main e)
  = bind (build e)
      (fun all_data =>
         write_file json_path (dumps (repr e) (all_data_dict all_data)) ;;
         print [Lit (nl ++ nl ++ "JSON data saved to: "); Fmt (AStr json_path) ""] ;;
         key_values all_data)
      (after_heading e).
Proof. unfold run, main. rewrite !print_bind. reflexivity. Qed.

(** The file the run leaves, from what the loop over the dates returned. *)
Lemma main_files :
  files (snd (run (main e)))
  = match fst (build e (after_heading e)) with
    | Ok a => [(json_path, dumps (repr e) (all_data_dict a))]
    | Raise _ => []
    end /\
  queries (snd (run (main e))) = queries (snd (build e (after_heading e))).
Proof.
  rewrite main_unfold.
  destruct (build_sound (after_heading e)) as (q0 & l0 & _ & _ & Hf & _).
  destruct (build e (after_heading e)) as [[a | x] w1] eqn:Eb; cbn [fst snd] in *.
  - rewrite (bind_ok _ _ _ _ _ Eb), write_file_bind, print_bind.
    match goal with
    | |- context [key_values a ?w] =>
        destruct (emits_silent any any (key_values a) w (key_values_emits a)) as [Kq Kf]
    end.
    rewrite Kq, Kf. cbn [queries files]. rewrite Hf. split; reflexivity.
  - rewrite (bind_raise _ _ _ _ _ Eb). cbn [fst snd]. rewrite Hf. split; reflexivity.
Qed.

(** The whole run: the calls made, and the file or the exception. *)
Lemma main_outcome :
  queries (snd (run (main e))) = fst (replay (swe e) schedule) /\
  match snd (replay (swe e) schedule) with
  | Some x => fst (run (main e)) = Raise x /\ files (snd (run (main e))) = []
  | None =>
      exists a, dataset_sound e a /\
        files (snd (run (main e))) = [(json_path, dumps (repr e) (all_data_dict a))]
  end.
Proof.
  rewrite main_unfold.
  set (w0 := after_heading e).
  pose proof (dates_loop_replay TEST_DATES (initial_all_data e) w0) as H.
  cbv zeta in H. fold schedule in H. fold (build e) in H.
  destruct (build_sound w0) as (q0 & l0 & _ & _ & _ & _ & _ & Hsound).
  destruct (build e w0) as [[a | x] w1] eqn:Eb; cbn [fst snd] in *;
    destruct H as (Hq & Hf & Hr);
    destruct (replay (swe e) schedule) as [made [x' |]]; cbn [fst snd] in *;
    try discriminate; try (destruct Hr; discriminate).
  - rewrite (bind_ok _ _ _ _ _ Eb), write_file_bind, print_bind.
    match goal with
    | |- context [key_values a ?w] =>
        destruct (emits_silent any any (key_values a) w (key_values_emits a)) as [Kq Kf]
    end.
    rewrite Kq, Kf. cbn [queries files]. rewrite Hf. split; [exact Hq |].
    exists a. split; [now apply Hsound | reflexivity].
  - rewrite (bind_raise _ _ _ _ _ Eb). inversion Hr; subst x'. auto.
Qed.

End Script.

Lemma for_each_map_outcome {A S} (f : S -> S) (body body' : A -> S -> M S)
  (xs : list A) (s : S) (w : world) :
  (forall x s' w', body' x (f s') w' = map_outcome f (body x s' w')) ->
  for_each xs body' (f s) w = map_outcome f (for_each xs body s w).
Proof.
  intros H. revert s w. induction xs as [| x xs IH]; intros s w; cbn [for_each].
  - reflexivity.
  - unfold bind. rewrite H.
    destruct (body x s w) as [[s1 | x1] w1]; cbn [map_outcome]; [apply IH | reflexivity].
Qed.

(** The clock reading reaches the data under ['generated_at'] only. *)
Lemma build_clock (e : env) (t : string) (w : world) :
  build (with_clock e t) w = map_outcome (with_generated_at t) (build e w).
Proof.
  unfold build.
  change (initial_all_data (with_clock e t))
    with (with_generated_at t (initial_all_data e)).
  apply for_each_map_outcome.
  intros [jd desc] a w'. unfold date_step. rewrite !print_bind.
  unfold bind.
  match goal with
  | |- context [for_each PLANETS ?body ?dd ?w0] =>
      change (for_each PLANETS body dd w0)
        with (for_each PLANETS (planet_step e jd) dd w0);
      destruct (for_each PLANETS (planet_step e jd) dd w0) as [[dd' | x] w1]
  end; reflexivity.
Qed.

Lemma append_assoc (s1 s2 s3 : string) :
  ((s1 ++ s2) ++ s3)%string = (s1 ++ (s2 ++ s3))%string.
Proof.
  induction s1 as [| c s1 IH]; cbn [String.append]; [reflexivity | now rewrite IH].
Qed.

(** The clock reading occupies one place in the text of the file. *)
Lemma dumps_generated_at (repr : Q -> string) (a : AllData) (t : string) :
  dumps repr (all_data_dict (with_generated_at t a))
  = (dump_prefix a ++ encode_string t ++ dump_suffix repr a)%string.
Proof.
  unfold dumps, all_data_dict, with_generated_at, dump_prefix, dump_suffix.
  cbn [dumps_at generator version generated_at dates planets].
  repeat rewrite append_assoc. reflexivity.
Qed.

Lemma replay_subset (lib : api) (P : call -> Prop) (cs : list call) :
  Forall P cs -> Forall P (fst (replay lib cs)).
Proof.
  intros H. induction H as [| c cs Hc Hcs IH]; cbn [replay].
  - constructor.
  - destruct (outcome lib c); [now repeat constructor |].
    destruct (replay lib cs) as [made r]. cbn [fst] in *. now constructor.
Qed.

Lemma schedule_queries : Forall dataset_query schedule.
Proof.
  apply Forall_forall. intros c Hc. unfold schedule in Hc.
  apply in_flat_map in Hc. destruct Hc as ([jd desc] & Hd & Hc).
  unfold schedule_for in Hc. apply in_map_iff in Hc.
  destruct Hc as ([name pid] & Ec & Hp). cbn [fst snd] in Ec.
  exists jd, desc, name, pid. auto.
Qed.

End GenFacts.

(** * Facts about binary64 rounding *)
Module Float64Facts.
Import PyFacts Float64.

(** Powers of two. *)
Lemma pow2_pos z : 0 < pow2 z.
Proof. apply Qpower_0_lt. reflexivity. Qed.

Lemma pow2_add a b : pow2 (a + b) == pow2 a * pow2 b.
Proof. apply Qpower_plus. discriminate. Qed.

Lemma pow2_le a b : (a <= b)%Z -> pow2 a <= pow2 b.
Proof. intros H. apply Qpower_le_compat_l; [exact H | discriminate]. Qed.

Lemma pow2_lt_inv a b : pow2 a < pow2 b -> (a < b)%Z.
Proof. intros H. apply (Qpower_lt_compat_l_inv 2); [exact H | reflexivity]. Qed.

Lemma pow2_Z n : (0 <= n)%Z -> pow2 n == inject_Z (2 ^ n).
Proof. intros H. unfold pow2. now rewrite Zpower_Qpower. Qed.

Lemma pow2_succ a : pow2 (a + 1) == 2 * pow2 a.
Proof. rewrite pow2_add. change (pow2 1) with 2. ring. Qed.

Lemma pow2_sub a b : pow2 (a - b) == pow2 a / pow2 b.
Proof. apply Qpower_minus. discriminate. Qed.

(** Comparing two fractions with positive denominators. *)
Lemma frac_lt (a b c d : Q) : 0 < b -> 0 < d -> a * d < c * b -> a / b < c / d.
Proof.
  intros Hb Hd H. apply Qlt_shift_div_l; [exact Hd |].
  assert (E : a / b * d == a * d / b) by (field; lra).
  rewrite E. apply Qlt_shift_div_r; [exact Hb | exact H].
Qed.

Lemma frac_le (a b c d : Q) : 0 < b -> 0 < d -> a * d <= c * b -> a / b <= c / d.
Proof.
  intros Hb Hd H. apply Qle_shift_div_l; [exact Hd |].
  assert (E : a / b * d == a * d / b) by (field; lra).
  rewrite E. apply Qle_shift_div_r; [exact Hb | exact H].
Qed.

(** [binade x] is the exponent of the power of two next below [|x|]. *)
Lemma binade_spec (x : Q) :
  ~ x == 0 -> pow2 (binade x) <= Qabs x /\ Qabs x < pow2 (binade x + 1).
Proof.
  intros Hx. destruct x as [n d]. unfold binade. cbn [Qnum Qden].
  assert (Hn : (0 < Z.abs n)%Z).
  { assert (n <> 0)%Z; [| lia]. intros E. apply Hx. subst n. reflexivity. }
  set (a := Z.abs n) in *. set (la := Z.log2 a). set (ld := Z.log2 (Zpos d)).
  pose proof (Z.log2_spec a Hn) as [A1 A2]. fold la in A1, A2.
  pose proof (Z.log2_spec (Zpos d) ltac:(lia)) as [D1 D2]. fold ld in D1, D2.
  pose proof (Z.log2_nonneg a) as La. fold la in La.
  pose proof (Z.log2_nonneg (Zpos d)) as Ld. fold ld in Ld.
  assert (Eabs : Qabs (n # d) == inject_Z a / inject_Z (Zpos d)).
  { unfold Qabs. fold a. apply Qmake_Qdiv. }
  rewrite Z.pow_succ_r in A2, D2 by assumption.
  rewrite Zle_Qle in A1, D1. rewrite Zlt_Qlt in A2, D2.
  rewrite inject_Z_mult in A2, D2. rewrite <- !pow2_Z in * by assumption.
  change (inject_Z 2) with 2 in *.
  set (qa := inject_Z a) in *. set (qd := inject_Z (Zpos d)) in *.
  pose proof (pow2_pos la) as Pa. pose proof (pow2_pos ld) as Pd.
  set (pa := pow2 la) in *. set (pd := pow2 ld) in *.
  assert (Hqd : 0 < qd) by lra. assert (Hqa : 0 < qa) by lra.
  assert (Ee : pow2 (la - ld) == pa / pd) by apply pow2_sub.
  assert (Up : qa / qd < 2 * pa / pd).
  { apply frac_lt; [exact Hqd | exact Pd |].
    apply Qlt_le_trans with (2 * pa * pd).
    - apply Qmult_lt_compat_r; [exact Pd | exact A2].
    - rewrite !(Qmult_comm (2 * pa)). apply Qmult_le_compat_r; lra. }
  assert (Lo : pa / (2 * pd) <= qa / qd).
  { apply frac_le; [lra | exact Hqd |].
    apply Qle_trans with (pa * (2 * pd)).
    - rewrite !(Qmult_comm pa). apply Qmult_le_compat_r; lra.
    - apply Qmult_le_compat_r; lra. }
  destruct (Qle_bool (pow2 (la - ld)) (Qabs (n # d))) eqn:E.
  - apply Qle_bool_iff in E. split; [exact E |].
    rewrite pow2_succ, Ee, Eabs. 
    assert (E2 : 2 * (pa / pd) == 2 * pa / pd) by (field; lra). now rewrite E2.
  - assert (Hlt : Qabs (n # d) < pow2 (la - ld)).
    { apply Qnot_le_lt. intros H. apply Qle_bool_iff in H. congruence. }
    split.
    + rewrite pow2_sub, Eabs. change (pow2 1) with 2.
      rewrite Ee.
      assert (E2 : pa / pd / 2 == pa / (2 * pd)) by (field; lra). now rewrite E2.
    + replace (la - ld - 1 + 1)%Z with (la - ld)%Z by lia. exact Hlt.
Qed.

Lemma binade_le (x : Q) (k : Z) : ~ x == 0 -> Qabs x < pow2 (k + 1) -> (binade x <= k)%Z.
Proof.
  intros Hx H. destruct (binade_spec x Hx) as [L _].
  assert (pow2 (binade x) < pow2 (k + 1)) by (eapply Qle_lt_trans; eassumption).
  apply pow2_lt_inv in H0. lia.
Qed.

Lemma binade_ge (x : Q) (k : Z) : ~ x == 0 -> pow2 k <= Qabs x -> (k <= binade x)%Z.
Proof.
  intros Hx H. destruct (binade_spec x Hx) as [_ U].
  assert (pow2 k < pow2 (binade x + 1)) by (eapply Qle_lt_trans; eassumption).
  apply pow2_lt_inv in H0. lia.
Qed.

(** Rounding to the nearest whole number does not cross a whole number. *)
Lemma rhe_ge_int (y : Q) (M : Z) : inject_Z M <= y -> (M <= Py.round_half_even y)%Z.
Proof.
  intros H. pose proof (round_half_even_between y) as [B _].
  apply Qfloor_resp_le in H. rewrite Qfloor_Z in H. lia.
Qed.

Lemma inject_Z_pred (M : Z) : inject_Z (M - 1) == inject_Z M - 1.
Proof. unfold Z.sub. rewrite inject_Z_plus. reflexivity. Qed.

(** Below half a unit under a whole number, rounding stays under it. *)
Lemma rhe_lt_half (y : Q) (M : Z) :
  y < inject_Z M - (1 # 2) -> (Py.round_half_even y <= M - 1)%Z.
Proof.
  intros H. unfold Py.round_half_even.
  pose proof (Qfloor_le y) as F1.
  assert (F : (Qfloor y < M)%Z).
  { rewrite Zlt_Qlt. lra. }
  destruct (Qcompare _ _) eqn:E.
  - apply Qeq_alt in E.
    assert (Qfloor y <> M - 1)%Z; [| destruct (Z.even _); lia].
    intros E2. rewrite E2, inject_Z_pred in E. lra.
  - lia.
  - apply Qgt_alt in E.
    assert (Qfloor y <> M - 1)%Z; [| lia].
    intros E2. rewrite E2, inject_Z_pred in E. lra.
Qed.

(** [int] of a number that is not negative is its floor. *)
Lemma int_floor_bounds (z : Q) (f : Z) :
  (0 <= f)%Z -> inject_Z f <= z -> z < inject_Z f + 1 -> Py.int z = f.
Proof.
  intros Hf H1 H2.
  assert (0 <= z) by (assert (0 <= inject_Z f) by (change 0 with (inject_Z 0); now rewrite <- Zle_Qle); lra).
  rewrite int_nonneg by assumption.
  assert (B : (f <= Qfloor z < f + 1)%Z).
  { apply floor_bounds; [exact H1 |]. rewrite inject_Z_plus. exact H2. }
  lia.
Qed.

(** Zero included, a number below 1 in magnitude has a negative exponent. *)
Lemma binade_small (x : Q) : Qabs x < 1 -> (binade x <= -1)%Z.
Proof.
  intros H. destruct (Qeq_dec x 0) as [E | E].
  - destruct x as [n d]. unfold Qeq in E. cbn [Qnum Qden] in E. assert (n = 0%Z) by lia. subst n.
    pose proof (Z.log2_nonneg (Zpos d)).
    unfold binade. cbn [Qnum Qden]. change (Z.log2 (Z.abs 0)) with 0%Z.
    set (ld := Z.log2 (Zpos d)) in *.
    destruct (Qle_bool _ _) eqn:B; [| lia].
    apply Qle_bool_iff in B.
    match type of B with
    | pow2 ?e <= ?r => pose proof (pow2_pos e) as P; assert (E0 : r == 0) by reflexivity
    end.
    lra.
  - apply binade_le; [exact E | exact H].
Qed.

Lemma binade_below (x : Q) (k : Z) :
  (-1 <= k)%Z -> Qabs x < pow2 (k + 1) -> (binade x <= k)%Z.
Proof.
  intros Hk H. destruct (Qeq_dec x 0) as [E | E].
  - assert (Qabs x < 1) by (rewrite E; reflexivity).
    pose proof (binade_small x H0). lia.
  - now apply binade_le.
Qed.

Lemma ulp_pos (x : Q) : 0 < ulp x.
Proof. apply pow2_pos. Qed.

(** The grid of a number below 2^53 contains the whole numbers. *)
Lemma ulp_grid (x : Q) :
  Qabs x < Py.two_53 -> exists K : Z, (0 < K)%Z /\ / ulp x == inject_Z K.
Proof.
  intros H. assert (B : (binade x <= 52)%Z) by (apply binade_below; [lia | exact H]).
  unfold ulp. set (c := Z.max (binade x - 52) (-1074)).
  assert (Hc : (c <= 0)%Z) by (unfold c; lia).
  exists (2 ^ (- c))%Z. split; [apply Z.pow_pos_nonneg; lia |].
  rewrite <- pow2_Z by lia. unfold pow2. now rewrite Qpower_opp.
Qed.

Lemma rhe_le_int (y : Q) (M : Z) : y <= inject_Z M -> (Py.round_half_even y <= M)%Z.
Proof.
  intros H. unfold Py.round_half_even.
  pose proof (Qfloor_le y) as F1.
  assert (F : (Qfloor y <= M)%Z) by (rewrite Zle_Qle; lra).
  destruct (Qcompare _ _) eqn:E.
  - apply Qeq_alt in E.
    assert (Qfloor y <> M)%Z; [| destruct (Z.even _); lia].
    intros E2. rewrite E2 in E. lra.
  - lia.
  - apply Qgt_alt in E.
    assert (Qfloor y <> M)%Z; [| lia].
    intros E2. rewrite E2 in E. lra.
Qed.

(** Rounding to a float does not cross a whole number below 2^53. *)
Lemma b64_le_int (y : Q) (M : Z) :
  Qabs y < Py.two_53 -> y <= inject_Z M -> b64 y <= inject_Z M.
Proof.
  intros Hy H. destruct (ulp_grid y Hy) as (K & HK & EK).
  pose proof (ulp_pos y) as P. unfold b64. set (s := ulp y) in *.
  assert (R : (Py.round_half_even (y / s) <= M * K)%Z).
  { apply rhe_le_int. rewrite inject_Z_mult, <- EK. unfold Qdiv.
    apply Qmult_le_compat_r; [exact H |]. apply Qinv_le_0_compat. lra. }
  rewrite Zle_Qle, inject_Z_mult, <- EK in R.
  assert (H3 : inject_Z (Py.round_half_even (y / s)) * s <= inject_Z M * / s * s)
    by (apply Qmult_le_compat_r; [exact R | lra]).
  assert (E : inject_Z M * / s * s == inject_Z M) by (field; lra).
  rewrite E in H3. exact H3.
Qed.

Lemma b64_ge_int (y : Q) (M : Z) :
  Qabs y < Py.two_53 -> inject_Z M <= y -> inject_Z M <= b64 y.
Proof.
  intros Hy H. destruct (ulp_grid y Hy) as (K & HK & EK).
  pose proof (ulp_pos y) as P. unfold b64. set (s := ulp y) in *.
  assert (R : (M * K <= Py.round_half_even (y / s))%Z).
  { apply rhe_ge_int. rewrite inject_Z_mult, <- EK. unfold Qdiv.
    apply Qmult_le_compat_r; [exact H |]. apply Qinv_le_0_compat. lra. }
  rewrite Zle_Qle, inject_Z_mult, <- EK in R.
  assert (H3 : inject_Z M * / s * s <= inject_Z (Py.round_half_even (y / s)) * s)
    by (apply Qmult_le_compat_r; [exact R | lra]).
  assert (E : inject_Z M * / s * s == inject_Z M) by (field; lra).
  rewrite E in H3. exact H3.
Qed.

Lemma pow2_inv_Z (c : Z) : (c <= 0)%Z -> / pow2 c == inject_Z (2 ^ (- c)).
Proof. intros H. rewrite <- pow2_Z by lia. unfold pow2. now rewrite Qpower_opp. Qed.

(** A float [x] below a point [X0] of its own grid, scaled by a factor [c]
    between [2^(j-1)] and [2^j], rounds to a float below the scaled point
    when that is a whole number [T]. *)
Lemma rounds_below (x c X0 : Q) (T N j : Z) :
  is_b64 x -> 0 < x -> x < X0 ->
  (-1022 <= binade x)%Z -> (-1022 <= binade x + j - 1)%Z -> (binade x <= 52)%Z ->
  X0 * / ulp x == inject_Z N ->
  pow2 (j - 1) < c -> c < pow2 j ->
  inject_Z T == X0 * c -> inject_Z T <= Py.two_53 ->
  b64 (x * c) < inject_Z T.
Proof.
  intros Hfl Hx0 HxX Bn Bn' Bx1 HN Hc1 Hc2 HT HT53.
  assert (Hxn : ~ x == 0) by lra.
  assert (Habs : Qabs x == x) by (apply Qabs_pos; lra).
  destruct (binade_spec x Hxn) as [Sx1 Sx2]. rewrite Habs in Sx1, Sx2.
  set (bx := binade x) in *.
  assert (Ux : ulp x = pow2 (bx - 52)).
  { unfold ulp. fold bx. now rewrite Z.max_l by lia. }
  rewrite Ux in HN.
  pose proof (pow2_pos (j - 1)) as Pj.
  assert (Hc0 : 0 < c) by lra.
  (* x on its grid *)
  assert (HKx : / pow2 (bx - 52) == inject_Z (2 ^ (52 - bx))).
  { rewrite pow2_inv_Z by lia. f_equiv. f_equal. lia. }
  assert (HKxpos : 0 < inject_Z (2 ^ (52 - bx))).
  { change 0 with (inject_Z 0). rewrite <- Zlt_Qlt. apply Z.pow_pos_nonneg; lia. }
  unfold is_b64, b64 in Hfl. rewrite Ux in Hfl.
  set (m := Py.round_half_even (x / pow2 (bx - 52))) in *.
  assert (Hm : x * inject_Z (2 ^ (52 - bx)) == inject_Z m).
  { rewrite <- HKx. rewrite <- Hfl at 1. field. pose proof (pow2_pos (bx - 52)). lra. }
  rewrite HKx in HN. set (kx := inject_Z (2 ^ (52 - bx))) in *.
  assert (Gap : 1 <= (X0 - x) * kx).
  { assert (G : (m + 1 <= N)%Z).
    { assert (m < N)%Z; [| lia]. rewrite Zlt_Qlt, <- Hm, <- HN.
      apply Qmult_lt_compat_r; assumption. }
    rewrite Zle_Qle, inject_Z_plus, <- Hm, <- HN in G. change (inject_Z 1) with 1 in G.
    assert (E : (X0 - x) * kx == X0 * kx - x * kx) by ring. rewrite E. lra. }
  (* the product *)
  set (y := x * c).
  assert (Hy0 : 0 < y) by (unfold y; apply Qmult_lt_0_compat; assumption).
  assert (Hyn : ~ y == 0) by lra.
  assert (Hyabs : Qabs y == y) by (apply Qabs_pos; lra).
  assert (HyT : y < inject_Z T).
  { rewrite HT. unfold y. apply Qmult_lt_compat_r; assumption. }
  assert (By1 : (binade y <= bx + j)%Z).
  { apply binade_le; [exact Hyn |]. rewrite Hyabs.
    replace (bx + j + 1)%Z with (bx + 1 + j)%Z by lia. rewrite pow2_add.
    unfold y. apply Qlt_trans with (pow2 (bx + 1) * c).
    - apply Qmult_lt_compat_r; assumption.
    - rewrite !(Qmult_comm (pow2 (bx + 1))). apply Qmult_lt_compat_r; [apply pow2_pos | exact Hc2]. }
  assert (By0 : (bx + j - 1 <= binade y)%Z).
  { apply binade_ge; [exact Hyn |]. rewrite Hyabs.
    replace (bx + j - 1)%Z with (bx + (j - 1))%Z by lia. rewrite pow2_add.
    unfold y. apply Qle_trans with (x * pow2 (j - 1)).
    - apply Qmult_le_compat_r; lra.
    - rewrite !(Qmult_comm x). apply Qmult_le_compat_r; lra. }
  assert (By2 : (binade y <= 52)%Z).
  { apply binade_le; [exact Hyn |]. rewrite Hyabs. change (pow2 (52 + 1)) with Py.two_53. lra. }
  set (by_ := binade y) in *.
  assert (Uy : ulp y = pow2 (by_ - 52)).
  { unfold ulp. fold by_. now rewrite Z.max_l by lia. }
  assert (HK : / pow2 (by_ - 52) == inject_Z (2 ^ (52 - by_))).
  { rewrite pow2_inv_Z by lia. f_equiv. f_equal. lia. }
  assert (HKK : inject_Z (2 ^ (52 - by_)) == kx * pow2 (bx - by_)).
  { unfold kx. rewrite <- !pow2_Z by lia. rewrite <- pow2_add. unfold pow2. f_equiv. lia. }
  assert (Ht : pow2 (- j) <= pow2 (bx - by_)) by (apply pow2_le; lia).
  assert (Hjj : pow2 (j - 1) * pow2 (- j) == 1 # 2).
  { rewrite <- pow2_add. replace (j - 1 + - j)%Z with (-1)%Z by lia. reflexivity. }
  pose proof (pow2_pos (- j)) as Pnj.
  set (t := pow2 (bx - by_)) in *.
  (* rounding *)
  unfold b64. fold y. rewrite Uy.
  assert (Hu : (Py.round_half_even (y / pow2 (by_ - 52)) <= T * 2 ^ (52 - by_) - 1)%Z).
  { apply rhe_lt_half. unfold Qdiv. rewrite HK, inject_Z_mult, HKK.
    (* y * (kx*t) < T * (kx*t) - 1/2 *)
    assert (G1 : (1 # 2) < c * ((X0 - x) * kx) * t).
    { apply Qlt_le_trans with (c * pow2 (- j)).
      - rewrite <- Hjj. apply Qmult_lt_compat_r; assumption.
      - apply Qle_trans with (c * 1 * t).
        + rewrite Qmult_1_r. rewrite !(Qmult_comm c). apply Qmult_le_compat_r; lra.
        + apply Qmult_le_compat_r; [| lra].
          rewrite !(Qmult_comm c). apply Qmult_le_compat_r; lra. }
    assert (E : inject_Z T * (kx * t) - y * (kx * t) == c * ((X0 - x) * kx) * t).
    { rewrite HT. unfold y. ring. }
    lra. }
  rewrite Zle_Qle, inject_Z_pred, inject_Z_mult, <- HK in Hu.
  pose proof (pow2_pos (by_ - 52)) as Pp. set (s := pow2 (by_ - 52)) in *.
  set (r := inject_Z (Py.round_half_even (y / s))) in *.
  assert (H3 : r * s <= (inject_Z T * / s - 1) * s).
  { apply Qmult_le_compat_r; [exact Hu | lra]. }
  assert (E : (inject_Z T * / s - 1) * s == inject_Z T - s) by (field; lra).
  lra.
Qed.

(** The whole part of the rounded quotient by 30 of a float from 1 up to
    2^53 is that of the exact quotient. *)
Lemma rounded_quotient_large (x : Q) :
  is_b64 x -> 1 <= x -> x < Py.two_53 ->
  Py.int (b64 (x / 30)) = Py.int (x / 30).
Proof.
  intros Hfl H1 H2.
  assert (Hxn : ~ x == 0) by lra.
  assert (Habs : Qabs x == x) by (apply Qabs_pos; lra).
  assert (Bx0 : (0 <= binade x)%Z) by (apply binade_ge; [exact Hxn | now rewrite Habs]).
  assert (Bx1 : (binade x <= 52)%Z) by (apply binade_le; [exact Hxn | now rewrite Habs]).
  set (q := x / 30). assert (Hq : x == q * 30) by (unfold q; field).
  pose proof (Qfloor_le q) as F1. pose proof (Qlt_floor q) as F2.
  rewrite inject_Z_plus in F2. change (inject_Z 1) with 1 in F2.
  set (f := Qfloor q) in *.
  assert (Hf0 : (0 <= f)%Z) by (change 0%Z with (Qfloor 0); apply Qfloor_resp_le; lra).
  rewrite (int_floor_bounds q f Hf0 F1 F2).
  apply int_floor_bounds; [exact Hf0 | |].
  - apply b64_ge_int; [| exact F1]. rewrite Qabs_pos by lra. unfold Py.two_53 in *. lra.
  - change (inject_Z f + 1) with (inject_Z f + inject_Z 1). rewrite <- inject_Z_plus.
    unfold q, Qdiv.
    apply (rounds_below x (/ 30) (30 * inject_Z (f + 1)) (f + 1)
             (30 * (f + 1) * 2 ^ (52 - binade x)) (-4)).
    + exact Hfl.
    + lra.
    + rewrite inject_Z_plus. change (inject_Z 1) with 1. lra.
    + lia.
    + lia.
    + exact Bx1.
    + unfold ulp. rewrite Z.max_l by lia. rewrite pow2_inv_Z by lia.
      rewrite !inject_Z_mult. change (inject_Z 30) with 30.
      replace (- (binade x - 52))%Z with (52 - binade x)%Z by lia. reflexivity.
    + reflexivity.
    + reflexivity.
    + field.
    + rewrite inject_Z_plus. change (inject_Z 1) with 1. unfold Py.two_53 in *. lra.
Qed.

(** Below 1 the quotient by 30 and its rounding both truncate to 0. *)
Lemma rounded_quotient_small (x : Q) :
  0 <= x -> x < 1 -> Py.int (b64 (x / 30)) = Py.int (x / 30).
Proof.
  intros H0 H1. set (q := x / 30).
  assert (Hq : x == q * 30) by (unfold q; field).
  assert (Hqabs : Qabs q == q) by (apply Qabs_pos; lra).
  rewrite (int_floor_bounds q 0); [| lia | unfold inject_Z; lra | unfold inject_Z; lra].
  apply int_floor_bounds; [lia | |].
  - apply b64_ge_int; [rewrite Hqabs; unfold Py.two_53; lra | unfold inject_Z; lra].
  - assert (B : (binade q <= -1)%Z).
    { apply binade_small. rewrite Hqabs. lra. }
    assert (U : ulp q <= 1 # 2).
    { unfold ulp. change (1 # 2) with (pow2 (-1)). apply pow2_le. lia. }
    pose proof (ulp_pos q) as P. unfold b64. set (s := ulp q) in *.
    pose proof (round_half_even_between (q / s)) as [_ R].
    pose proof (Qfloor_le (q / s)) as F.
    rewrite Zle_Qle, inject_Z_plus in R. change (inject_Z 1) with 1 in R.
    assert (H3 : inject_Z (Py.round_half_even (q / s)) * s <= (q / s + 1) * s)
      by (apply Qmult_le_compat_r; lra).
    assert (E : (q / s + 1) * s == q + s) by (field; lra).
    rewrite E in H3. change (inject_Z 0) with 0. lra.
Qed.

Lemma rounded_quotient_nonneg (x : Q) :
  is_b64 x -> 0 <= x -> x < Py.two_53 -> Py.int (b64 (x / 30)) = Py.int (x / 30).
Proof.
  intros Hf H0 H1. destruct (Qlt_le_dec x 1).
  - now apply rounded_quotient_small.
  - now apply rounded_quotient_large.
Qed.

(** Rounding is symmetric about zero. *)
Lemma rhe_opp (y : Q) : Py.round_half_even (- y) = (- Py.round_half_even y)%Z.
Proof.
  unfold Py.round_half_even.
  pose proof (Qfloor_le y) as F1. pose proof (Qlt_floor y) as F2.
  rewrite inject_Z_plus in F2. change (inject_Z 1) with 1 in F2.
  set (f := Qfloor y) in *.
  destruct (Qeq_dec y (inject_Z f)) as [Hint | Hfrac].
  - assert (Hf : Qfloor (- y) = (- f)%Z).
    { assert (B : (- f <= Qfloor (- y) < - f + 1)%Z).
      { apply floor_bounds; rewrite ?inject_Z_plus, inject_Z_opp;
          change (inject_Z 1) with 1; lra. }
      lia. }
    rewrite Hf, inject_Z_opp.
    destruct (Qcompare (- y - - inject_Z f) (1 # 2)) eqn:E1;
      [apply Qeq_alt in E1; lra | | apply Qgt_alt in E1; lra].
    destruct (Qcompare (y - inject_Z f) (1 # 2)) eqn:E2;
      [apply Qeq_alt in E2; lra | | apply Qgt_alt in E2; lra].
    reflexivity.
  - assert (Hf : Qfloor (- y) = (- f - 1)%Z).
    { assert (B : (- f - 1 <= Qfloor (- y) < - f - 1 + 1)%Z).
      { apply floor_bounds; rewrite ?inject_Z_plus, inject_Z_pred, inject_Z_opp;
          change (inject_Z 1) with 1; lra. }
      lia. }
    rewrite Hf, inject_Z_pred, inject_Z_opp.
    assert (Ev : Z.even (- f - 1) = negb (Z.even f)).
    { replace (- f - 1)%Z with (- Z.succ f)%Z by lia.
      rewrite Z.even_opp, Z.even_succ. symmetry. apply Z.negb_even. }
    rewrite Ev.
    destruct (Qcompare (- y - (- inject_Z f - 1)) (1 # 2)) eqn:E1;
      [apply Qeq_alt in E1 | apply Qlt_alt in E1 | apply Qgt_alt in E1];
      (destruct (Qcompare (y - inject_Z f) (1 # 2)) eqn:E2;
       [apply Qeq_alt in E2 | apply Qlt_alt in E2 | apply Qgt_alt in E2]);
      try lra; try lia.
    destruct (Z.even f); cbn [negb]; lia.
Qed.

Lemma binade_opp (x : Q) : binade (- x) = binade x.
Proof.
  destruct x as [n d]. unfold binade, Qopp, Qabs. cbn [Qnum Qden].
  now rewrite Z.abs_opp.
Qed.

Lemma Qdiv_opp_l (x u : Q) : (- x) / u = - (x / u).
Proof.
  destruct x as [n d]. unfold Qdiv, Qmult, Qopp. cbn [Qnum Qden].
  f_equal. lia.
Qed.

Lemma b64_opp (x : Q) : b64 (- x) = - b64 x.
Proof.
  unfold b64, ulp. rewrite binade_opp, Qdiv_opp_l, rhe_opp.
  set (r := Py.round_half_even _). set (u := pow2 _).
  unfold Qmult, Qopp, inject_Z. cbn [Qnum Qden]. f_equal. lia.
Qed.

Lemma int_opp (z : Q) : Py.int (- z) = (- Py.int z)%Z.
Proof.
  destruct z as [n d]. unfold Py.int, Qopp. cbn [Qnum Qden].
  apply Z.quot_opp_l. lia.
Qed.

(** For a float of magnitude below 2^53 the rounded quotient by 30 truncates
    to the same whole number as the exact quotient. *)
Lemma rounded_quotient (x : Q) :
  is_b64 x -> - Py.two_53 < x -> x < Py.two_53 ->
  Py.int (b64 (x / 30)) = Py.int (x / 30).
Proof.
  intros Hf H0 H1. destruct (Qlt_le_dec x 0) as [Hneg | Hpos].
  - assert (E : x / 30 = - ((- x) / 30)).
    { rewrite Qdiv_opp_l. destruct x as [n d]. unfold Qdiv, Qmult, Qopp. cbn [Qnum Qden].
      f_equal. lia. }
    rewrite E, b64_opp, !int_opp. f_equal.
    apply rounded_quotient_nonneg; [| lra | lra].
    unfold is_b64 in *. rewrite b64_opp. now rewrite Hf.
  - now apply rounded_quotient_nonneg.
Qed.

Lemma b64_between (y : Q) (a b : Z) :
  (- 2 ^ 53 < a)%Z -> (b < 2 ^ 53)%Z -> inject_Z a <= y -> y <= inject_Z b ->
  inject_Z a <= b64 y /\ b64 y <= inject_Z b.
Proof.
  intros Ha Hb H1 H2.
  assert (Hy : Qabs y < Py.two_53).
  { rewrite Zlt_Qlt in Ha, Hb. rewrite inject_Z_opp in Ha.
    change (inject_Z (2 ^ 53)) with Py.two_53 in *.
    apply Qabs_case; intros; lra. }
  split; [now apply b64_ge_int | now apply b64_le_int].
Qed.








(** The remainder of the truncated division of a negative number by 30. *)
Lemma truncated_remainder_range (L : Q) :
  L < 0 ->
  - (30) < L - 30 * inject_Z (Py.int (L / 30)) /\ L - 30 * inject_Z (Py.int (L / 30)) <= 0.
Proof.
  intros Hneg.
  assert (E : L / 30 = - ((- L) / 30)).
  { rewrite Qdiv_opp_l. destruct L as [n d]. unfold Qdiv, Qmult, Qopp. cbn [Qnum Qden].
    f_equal. lia. }
  rewrite E, int_opp, inject_Z_opp.
  rewrite int_nonneg by (apply div30_nonneg; lra).
  pose proof (fmod_range (- L) 30 ltac:(reflexivity)) as [A B]. unfold Py.fmod in A, B.
  set (k := inject_Z (Qfloor (- L / 30))) in *. split; lra.
Qed.

End Float64Facts.

(** * The claims of the specification *)
Module Claims.
Import Swe Run Py Props RunFacts PyFacts ChartProps GenProps EinsteinFacts GenFacts Examples.
Local Open Scope list_scope.

(** ** Zodiac formatting *)

(** C1, as the claim states it, fails on negative longitudes: at -10
    degrees the script computes index 0 and prints 20 degrees of Aries, where
    [floor(L/30) mod 12] is 11 (Pisces). *)
Lemma sign_idx_at_minus_ten :
  Zodiac.sign_idx (-10) <> Zodiac.spec_sign_idx (-10) /\
  Zodiac.sign_idx (-10) = 0%Z /\
  Zodiac.spec_sign_idx (-10) = 11%Z /\
  Zodiac.degrees (-10) == 20 /\
  GenerateReferenceData.format_zodiac (-10)
  = [ Fmt (AFloat (Zodiac.degrees (-10))) ".2f"; Lit (degree_sign ++ " ")%string;
      Fmt (AStr "Ari") "" ].
Proof. split; [discriminate | repeat split]. Qed.

(** C1, amended.  On every longitude [format_zodiac] is defined, its sign
    index is within 0..11 and names a sign, and its degree is the longitude
    modulo 30, from 0 up to 30.  On a longitude that is not negative the
    degree stays below 30; if the longitude is also below 2^53, the sign
    index is [floor(L/30) mod 12], and below 360 degrees index times 30 plus
    degree gives the longitude back.  The two restrictions are where the
    float operations give what the exact ones give: the remainder of a float
    that is not negative is computed without rounding, and below 2^53 the
    rounded quotient has the whole part of the exact one
    ([Float64Facts.rounded_quotient]). *)
Theorem format_zodiac_sign_and_degree (L : Q) :
  GenerateReferenceData.format_zodiac L
  = [ Fmt (AFloat (Zodiac.degrees L)) ".2f"; Lit (degree_sign ++ " ")%string;
      Fmt (AStr (nth (Z.to_nat (Zodiac.sign_idx L)) GenerateReferenceData.signs ""%string))
          "" ] /\
  EinsteinChart.format_zodiac L
  = [ Fmt (AInt (Py.int (Zodiac.degrees L))) ""; Lit degree_sign;
      Fmt (AFloat ((Zodiac.degrees L - inject_Z (Py.int (Zodiac.degrees L))) * 60)) ".1f";
      Lit "' ";
      Fmt (AStr (nth (Z.to_nat (Zodiac.sign_idx L)) EinsteinChart.SIGNS ""%string)) "" ] /\
  (0 <= Zodiac.sign_idx L < 12)%Z /\
  nth_error GenerateReferenceData.signs (Z.to_nat (Zodiac.sign_idx L)) <> None /\
  nth_error EinsteinChart.SIGNS (Z.to_nat (Zodiac.sign_idx L)) <> None /\
  Zodiac.degrees L == L - 30 * inject_Z (Py.floor (L / 30)) /\
  0 <= Zodiac.degrees L /\ Zodiac.degrees L <= 30 /\
  (0 <= L -> Zodiac.degrees L < 30) /\
  (0 <= L -> L < two_53 -> Zodiac.sign_idx L = Zodiac.spec_sign_idx L) /\
  (0 <= L -> L < 360 -> inject_Z (Zodiac.sign_idx L) * 30 + Zodiac.degrees L == L).
Proof.
  pose proof (sign_idx_range L) as Hs. pose proof (degrees_range L) as [Hd0 Hd1].
  split; [reflexivity |]. split; [reflexivity |]. split; [exact Hs |].
  split; [apply nth_error_Some; cbn [GenerateReferenceData.signs List.length]; lia |].
  split; [apply nth_error_Some; cbn [EinsteinChart.SIGNS List.length]; lia |].
  split; [reflexivity |]. split; [exact Hd0 |]. split; [now apply Qlt_le_weak |].
  split; [intros _; exact Hd1 |].
  split; [intros H0 _; now apply sign_idx_nonneg | apply reconstruction].
Qed.

Lemma format_zodiac_sign_and_degree_witness :
  0 <= 47.25 /\ 47.25 < 360 /\ 47.25 < two_53 /\
  Zodiac.degrees 47.25 < 30 /\
  Zodiac.sign_idx 47.25 = Zodiac.spec_sign_idx 47.25 /\
  inject_Z (Zodiac.sign_idx 47.25) * 30 + Zodiac.degrees 47.25 == 47.25.
Proof.
  split; [vm_compute; discriminate |]. split; [reflexivity |]. split; [reflexivity |].
  destruct (format_zodiac_sign_and_degree 47.25)
    as (_ & _ & _ & _ & _ & _ & _ & _ & Hdeg & Hidx & Hback).
  split; [apply Hdeg | split; [apply Hidx | apply Hback]];
    solve [reflexivity | vm_compute; discriminate].
Defined.

(** Beyond a full circle the index wraps: 362.5 degrees is 2.5 degrees of
    Aries. *)
Example format_zodiac_beyond_full_circle :
  Zodiac.sign_idx 362.5 = 0%Z /\ Zodiac.degrees 362.5 == 2.5.
Proof. split; reflexivity. Qed.

(** The Julian Day of the example library for 1879-03-14, 10:50 UT. *)
Example einstein_julian_day : einstein_jd == 2407422 + (137 # 144).
Proof. reflexivity. Qed.

(** ** Time scales and sidereal time *)

(** C5.  Once [julday] and [deltat] have answered, the chart prints Delta T
    in seconds and the Julian Day (TT), and the latter is the Julian Day (UT)
    plus the former divided by 86400. *)
Theorem jd_tt_is_jd_ut_plus_delta_t (e : env) (b : EinsteinChart.BirthData) (jd dt : Q) :
  jd_is e b jd -> deltat (swe e) jd = Ok dt ->
  exists seconds jd_tt,
    In (delta_t_line seconds) (stdout (snd (run (EinsteinChart.chart e b)))) /\
    In (jd_tt_line jd_tt) (stdout (snd (run (EinsteinChart.chart e b)))) /\
    seconds == dt * 86400 /\
    jd_tt == jd + seconds / 86400.
Proof.
  intros Hjd Hdt. destruct (chart_prints_delta_t e b jd dt Hjd Hdt) as [H1 H2].
  exists (dt * 86400), (jd + dt).
  split; [exact H1 |]. split; [exact H2 |]. split; [reflexivity | field].
Qed.

Lemma jd_tt_is_jd_ut_plus_delta_t_witness :
  exists seconds jd_tt,
    In (delta_t_line seconds)
       (stdout (snd (run (EinsteinChart.chart morning EinsteinChart.einstein)))) /\
    In (jd_tt_line jd_tt)
       (stdout (snd (run (EinsteinChart.chart morning EinsteinChart.einstein)))) /\
    seconds == einstein_delta_t * 86400 /\
    jd_tt == einstein_jd + seconds / 86400.
Proof.
  apply (jd_tt_is_jd_ut_plus_delta_t morning EinsteinChart.einstein einstein_jd
           einstein_delta_t); reflexivity.
Defined.

(** C4.  For a sidereal time within [0,24) hours and a longitude from 0 to
    180 degrees east, as the 10 degrees east of the script are, the local
    sidereal time the chart prints is [GMST * 15 + longitude] reduced modulo
    360, within [0,360).  On this range the sum stays below 540, away from
    the second turn, so that rounding does not take the value to 360. *)
Theorem lst_reduced_east_of_greenwich (e : env) (b : EinsteinChart.BirthData)
  (jd dt gmst : Q) :
  jd_is e b jd -> deltat (swe e) jd = Ok dt -> sidtime (swe e) jd = Ok gmst ->
  0 <= gmst -> gmst < 24 ->
  0 <= EinsteinChart.LONGITUDE b -> EinsteinChart.LONGITUDE b <= 180 ->
  exists lst,
    In (lst_line lst) (stdout (snd (run (EinsteinChart.chart e b)))) /\
    lst == Py.fmod (gmst * 15 + EinsteinChart.LONGITUDE b) 360 /\
    0 <= lst /\ lst < 360.
Proof.
  intros Hjd Hdt Hst Hg0 Hg1 Hl0 Hl1.
  exists (EinsteinChart.local_sidereal_time (gmst * 15) (EinsteinChart.LONGITUDE b)).
  split; [now apply (chart_prints_lst e b jd dt gmst) |].
  apply local_sidereal_time_range; try assumption. lra.
Qed.

Lemma lst_reduced_east_of_greenwich_witness :
  exists lst,
    In (lst_line lst)
       (stdout (snd (run (EinsteinChart.chart morning EinsteinChart.einstein)))) /\
    lst == Py.fmod (23.9 * 15 + EinsteinChart.LONGITUDE EinsteinChart.einstein) 360 /\
    0 <= lst /\ lst < 360.
Proof.
  apply (lst_reduced_east_of_greenwich morning EinsteinChart.einstein einstein_jd
           einstein_delta_t 23.9);
    solve [reflexivity | vm_compute; discriminate].
Defined.

(** The single subtraction is a reduction for the longitude of the script;
    it is not one for every value the constant could be given.  Were it 10
    degrees west, a sidereal time of half an hour would print as -2.5
    degrees. *)
Remark lst_negative_west_of_greenwich :
  0 <= 0.5 /\ 0.5 < 24 /\
  EinsteinChart.local_sidereal_time (0.5 * 15) (-10) < 0 /\
  exists lst,
    In (lst_line lst)
       (stdout (snd (run (EinsteinChart.chart small_gmst west_of_greenwich)))) /\
    lst < 0.
Proof.
  split; [discriminate |]. split; [reflexivity |]. split; [reflexivity |].
  exists (EinsteinChart.local_sidereal_time (0.5 * 15) (-10.0)). split; [| reflexivity].
  apply (chart_prints_lst small_gmst west_of_greenwich
           (julday_formula 1879 3 14 (EinsteinChart.hour_decimal west_of_greenwich))
           einstein_delta_t 0.5); reflexivity.
Qed.

(** C9, as the claim states it, fails: with month 13 the chart runs to its
    end and the library is queried for positions. *)
Lemma month_13_is_not_rejected :
  EinsteinChart.MONTH month_13 = 13%Z /\
  fst (run (EinsteinChart.chart morning month_13)) = Ok tt /\
  exists jd,
    In (CalcUt jd SUN FLG_SPEED)
       (queries (snd (run (EinsteinChart.chart morning month_13)))).
Proof.
  split; [reflexivity |]. split; [vm_compute; reflexivity |].
  eexists. vm_compute. do 6 right. left. reflexivity.
Qed.

(** C9, amended.  The chart checks no calendar field: its first library call
    is [julday] on year, month, day and decimal hour as they are.  If that
    call raises, the run ends there with the library's exception and no other
    call; if it answers, the run goes on with the Julian Day returned. *)
Theorem julday_called_without_validation (e : env) (b : EinsteinChart.BirthData) :
  match julday (swe e) (EinsteinChart.YEAR b) (EinsteinChart.MONTH b)
          (EinsteinChart.DAY b) (EinsteinChart.hour_decimal b) with
  | Ok jd =>
      exists rest,
        queries (snd (run (EinsteinChart.chart e b)))
        = Julday (EinsteinChart.YEAR b) (EinsteinChart.MONTH b) (EinsteinChart.DAY b)
            (EinsteinChart.hour_decimal b) :: Deltat jd :: rest
  | Raise x =>
      fst (run (EinsteinChart.chart e b)) = Raise x /\
      queries (snd (run (EinsteinChart.chart e b)))
      = [Julday (EinsteinChart.YEAR b) (EinsteinChart.MONTH b) (EinsteinChart.DAY b)
           (EinsteinChart.hour_decimal b)]
  end.
Proof. apply chart_julday_first. Qed.

(** ** Provider queries and positions *)

(** C6.  Every call the dataset build makes is a position query for one of
    the ten planets at the Julian Day of one of the six dates, as listed and
    with nothing added; every position query of the chart is made at the
    Julian Day (UT) that [julday] returned, not at the Julian Day (TT) the
    chart computes from Delta T. *)
Theorem position_queries_use_ut_julian_day (e : env) (b : EinsteinChart.BirthData) :
  Forall dataset_query (queries (snd (run (GenerateReferenceData.main e)))) /\
  Forall (ut_query e b) (queries (snd (run (EinsteinChart.chart e b)))).
Proof.
  split.
  - destruct (main_outcome e) as [Hq _]. rewrite Hq.
    apply replay_subset. apply schedule_queries.
  - apply (emits_run _ any any _ (chart_ut_queries e b)).
Qed.

(** When the library answers every call, the chart makes these calls, all at
    the same Julian Day. *)
Lemma chart_queries_example :
  queries (snd (run (EinsteinChart.chart morning EinsteinChart.einstein)))
  = [ Julday 1879 3 14 (EinsteinChart.hour_decimal EinsteinChart.einstein);
      Deltat einstein_jd; Sidtime einstein_jd; Sidtime einstein_jd;
      Calc einstein_jd ECL_NUT;
      Houses einstein_jd 48.4 10.0 "P" ]
    ++ map (fun p => CalcUt einstein_jd (snd p) FLG_SPEED) EinsteinChart.PLANETS
    ++ map (fun p => CalcUt einstein_jd p FLG_SPEED)
         [ TRUE_NODE; MEAN_NODE; MEAN_APOG; SUN; SUN; SUN; MOON; MOON; MOON;
           MERCURY; MERCURY; MERCURY ].
Proof. vm_compute. reflexivity. Qed.



(** With the example library the chart marks Mercury, and Saturn too. *)
Example chart_marks_retrograde_rows :
  exists lon zodiac lat speed,
    In [ Fmt (AStr "Mercury") "<10"; Lit " ";
         Fmt (AFloat lon) ">12.4f"; Lit (degree_sign ++ " ")%string;
         Fmt (AText zodiac) ">22"; Lit " ";
         Fmt (AFloat lat) ">+10.4f"; Lit (degree_sign ++ " ")%string;
         Fmt (AFloat speed) ">+10.4f"; Fmt (AStr " R") "" ]
       (stdout (snd (run (EinsteinChart.chart morning EinsteinChart.einstein)))).
Proof.
  do 4 eexists. vm_compute.
  repeat (try (left; reflexivity); right).
Qed.



(** The exported speed does not determine the exported flag: two library
    results give the same [longitude_speed] and opposite [is_retrograde]. *)
Lemma retrograde_not_determined_by_exported_speed :
  let slow := {| xx0 := 0; xx1 := 0; xx2 := 1; xx3 := -0.0000005; xx4 := 0; xx5 := 0 |} in
  let still := {| xx0 := 0; xx1 := 0; xx2 := 1; xx3 := 0; xx4 := 0; xx5 := 0 |} in
  GenerateReferenceData.longitude_speed (position_of slow)
  == GenerateReferenceData.longitude_speed (position_of still) /\
  GenerateReferenceData.is_retrograde (position_of slow) = true /\
  GenerateReferenceData.is_retrograde (position_of still) = false.
Proof. repeat split. Qed.

(** ** The dataset *)

Lemma round6_rounded_from (raw : Q) : rounded_from raw (round6 raw).
Proof.
  split; [| apply round6_near].
  exists (round_half_even (raw * 1000000)). reflexivity.
Qed.

(** C8.  The dictionary [calculate_position] returns has the six keys
    longitude, latitude, distance, longitude_speed, latitude_speed and
    is_retrograde, in this order, and each of its five numbers is the
    library's value rounded to six decimal places; when the build writes its
    file, every record under ['positions'] is such a dictionary. *)
Theorem exported_record_fields (e : env) :
  (forall planet_id jd w,
     match calc_ut (swe e) jd planet_id GenerateReferenceData.CALC_FLAGS with
     | Ok (result, _) =>
         exists pos,
           fst (GenerateReferenceData.calculate_position e planet_id jd w) = Ok pos /\
           obj_keys (GenerateReferenceData.position_dict pos) = record_keys /\
           rounded_from (xx0 result) (GenerateReferenceData.longitude pos) /\
           rounded_from (xx1 result) (GenerateReferenceData.latitude pos) /\
           rounded_from (xx2 result) (GenerateReferenceData.distance pos) /\
           rounded_from (xx3 result) (GenerateReferenceData.longitude_speed pos) /\
           rounded_from (xx4 result) (GenerateReferenceData.latitude_speed pos)
     | Raise x =>
         fst (GenerateReferenceData.calculate_position e planet_id jd w) = Raise x
     end) /\
  (files (snd (run (GenerateReferenceData.main e))) = [] \/
   exists a,
     files (snd (run (GenerateReferenceData.main e)))
     = [(GenerateReferenceData.json_path,
         dumps (repr e) (GenerateReferenceData.all_data_dict a))] /\
     forall key d name pos,
       In (key, d) (GenerateReferenceData.dates a) ->
       In (name, pos) (GenerateReferenceData.positions d) ->
       obj_keys (GenerateReferenceData.position_dict pos) = record_keys /\
       exists result,
         position_from e (GenerateReferenceData.jd d) name pos result /\
         rounded_from (xx0 result) (GenerateReferenceData.longitude pos) /\
         rounded_from (xx1 result) (GenerateReferenceData.latitude pos) /\
         rounded_from (xx2 result) (GenerateReferenceData.distance pos) /\
         rounded_from (xx3 result) (GenerateReferenceData.longitude_speed pos) /\
         rounded_from (xx4 result) (GenerateReferenceData.latitude_speed pos)).
Proof.
  split.
  - intros planet_id jd w. rewrite calculate_position_run.
    destruct (calc_ut (swe e) jd planet_id GenerateReferenceData.CALC_FLAGS)
      as [[result retflag] | x]; cbn [fst]; [| reflexivity].
    exists (position_of result). split; [reflexivity |]. split; [reflexivity |].
    cbn [position_of GenerateReferenceData.longitude GenerateReferenceData.latitude
         GenerateReferenceData.distance GenerateReferenceData.longitude_speed
         GenerateReferenceData.latitude_speed].
    repeat split; apply round6_rounded_from.
  - destruct (main_outcome e) as [_ H].
    destruct (snd (replay (swe e) schedule)) as [x |].
    + left. apply H.
    + right. destruct H as (a & Hsound & Hfile). exists a. split; [exact Hfile |].
      intros key d name pos Hd Hp. split; [reflexivity |].
      destruct Hsound as (_ & _ & _ & _ & Hdates).
      destruct (Hdates key d Hd) as (_ & _ & Hpos).
      destruct (Hpos name pos Hp) as [result Hfrom]. exists result.
      split; [exact Hfrom |].
      destruct Hfrom as (pid & retflag & _ & _ & Epos). subst pos.
      cbn [position_of GenerateReferenceData.longitude GenerateReferenceData.latitude
           GenerateReferenceData.distance GenerateReferenceData.longitude_speed
           GenerateReferenceData.latitude_speed].
      repeat split; apply round6_rounded_from.
Qed.

(** With the example library the file is written and holds all sixty records. *)
Lemma exported_records_example :
  exists content,
    files (snd (run (GenerateReferenceData.main morning)))
    = [(GenerateReferenceData.json_path, content)] /\
    fst (run (GenerateReferenceData.main morning)) = Ok tt.
Proof. eexists. vm_compute. split; reflexivity. Qed.

(** C3, as the claim states it, fails: without the file for Pluto the build
    ends with the library's exception at the first query for Pluto, writes
    no file and queries nothing for the five later dates. *)
Lemma provider_failure_aborts_build :
  fst (run (GenerateReferenceData.main no_pluto))
  = Raise (Error "ephemeris file not found") /\
  files (snd (run (GenerateReferenceData.main no_pluto))) = [] /\
  queries (snd (run (GenerateReferenceData.main no_pluto)))
  = schedule_for 2451545.0 GenerateReferenceData.PLANETS.
Proof. vm_compute. repeat split. Qed.

(** C3, amended.  The first query of the schedule that raises ends the
    build: the exception leaves [main], the calls made are those up to and
    including that query, and no file is written. *)
Theorem first_failure_aborts_build (e : env) (pre post : list call) (c : call)
  (x : exn) :
  schedule = pre ++ c :: post ->
  Forall (fun c' => outcome (swe e) c' = None) pre ->
  outcome (swe e) c = Some x ->
  fst (run (GenerateReferenceData.main e)) = Raise x /\
  queries (snd (run (GenerateReferenceData.main e))) = pre ++ [c] /\
  files (snd (run (GenerateReferenceData.main e))) = [].
Proof.
  intros Hs Hpre Hc. destruct (main_outcome e) as [Hq H].
  rewrite Hs, (replay_first_failure _ _ _ _ _ Hpre Hc) in *. cbn [fst snd] in *.
  tauto.
Qed.

Lemma first_failure_aborts_build_witness :
  fst (run (GenerateReferenceData.main no_pluto))
  = Raise (Error "ephemeris file not found") /\
  queries (snd (run (GenerateReferenceData.main no_pluto)))
  = firstn 9 schedule ++ [CalcUt 2451545.0 PLUTO FLG_SPEED] /\
  files (snd (run (GenerateReferenceData.main no_pluto))) = [].
Proof.
  apply (first_failure_aborts_build no_pluto (firstn 9 schedule) (skipn 10 schedule)
           (CalcUt 2451545.0 PLUTO FLG_SPEED) (Error "ephemeris file not found")).
  - reflexivity.
  - vm_compute. repeat constructor.
  - reflexivity.
Defined.

(** When the library answers every scheduled query, all of them are made and
    the file is written. *)
Lemma all_answered_writes_dataset (e : env) :
  Forall (fun c => outcome (swe e) c = None) schedule ->
  queries (snd (run (GenerateReferenceData.main e))) = schedule /\
  exists a,
    dataset_sound e a /\
    files (snd (run (GenerateReferenceData.main e)))
    = [(GenerateReferenceData.json_path,
        dumps (repr e) (GenerateReferenceData.all_data_dict a))].
Proof.
  intros H. destruct (main_outcome e) as [Hq Hr].
  rewrite (replay_all_answered _ _ H) in *. cbn [fst snd] in *. auto.
Qed.

(** C2, as the claim states it, fails: two runs against the same library and
    the same [repr], one in the morning and one in the evening, leave files
    that differ. *)
Lemma dataset_differs_between_runs :
  swe morning = swe evening /\ repr morning = repr evening /\
  getitem (files (snd (run (GenerateReferenceData.main morning))))
    GenerateReferenceData.json_path
  <> getitem (files (snd (run (GenerateReferenceData.main evening))))
       GenerateReferenceData.json_path.
Proof.
  split; [reflexivity |]. split; [reflexivity |].
  set (x := getitem (files (snd (run (GenerateReferenceData.main morning)))) _).
  set (y := getitem (files (snd (run (GenerateReferenceData.main evening)))) _).
  assert (E : match x, y with
              | Some s1, Some s2 => String.eqb s1 s2
              | _, _ => true
              end = false) by (vm_compute; reflexivity).
  clearbody x y. intros H. subst y.
  destruct x; [rewrite String.eqb_refl in E |]; discriminate.
Qed.

(** C2, amended.  Two runs that differ in the clock reading only make the
    same calls, and either both write no file or write the same text but for
    the clock reading under ['generated_at']; nothing under ['dates'] depends
    on the clock. *)
Theorem dataset_same_but_generated_at (e : env) (t1 t2 : string) :
  queries (snd (run (GenerateReferenceData.main (with_clock e t1))))
  = queries (snd (run (GenerateReferenceData.main (with_clock e t2)))) /\
  ((files (snd (run (GenerateReferenceData.main (with_clock e t1)))) = [] /\
    files (snd (run (GenerateReferenceData.main (with_clock e t2)))) = []) \/
   exists before after,
     files (snd (run (GenerateReferenceData.main (with_clock e t1))))
     = [(GenerateReferenceData.json_path,
         (before ++ encode_string t1 ++ after)%string)] /\
     files (snd (run (GenerateReferenceData.main (with_clock e t2))))
     = [(GenerateReferenceData.json_path,
         (before ++ encode_string t2 ++ after)%string)]).
Proof.
  destruct (main_files (with_clock e t1)) as [F1 Q1].
  destruct (main_files (with_clock e t2)) as [F2 Q2].
  rewrite F1, F2, Q1, Q2. clear F1 F2 Q1 Q2.
  change (after_heading (with_clock e t1)) with (after_heading e).
  change (after_heading (with_clock e t2)) with (after_heading e).
  rewrite !build_clock.
  destruct (build e (after_heading e)) as [[a | x] w1]; cbn [map_outcome fst snd].
  - split; [reflexivity |]. right.
    exists (dump_prefix a), (dump_suffix (repr e) a).
    change (repr (with_clock e t1)) with (repr e).
    change (repr (with_clock e t2)) with (repr e).
    now rewrite !dumps_generated_at.
  - split; [reflexivity |]. left. split; reflexivity.
Qed.

End Claims.

(** * Further properties of the two scripts *)
Module Extras.
Import Swe Run Py Props RunFacts PyFacts ChartProps GenProps EinsteinFacts GenFacts Examples.
Import MoreProps MoreExamples Float64 Float64Facts.
Local Open Scope list_scope.

(** ** Arithmetic of [format_zodiac] and of the rounding *)

Lemma floor_shift (x : Q) (n : Z) : Qfloor (x + inject_Z n) = (Qfloor x + n)%Z.
Proof.
  pose proof (Qfloor_le x) as H1. pose proof (Qlt_floor x) as H2.
  rewrite inject_Z_plus in H2. change (inject_Z 1) with 1 in H2.
  assert (B : (Qfloor x + n <= Qfloor (x + inject_Z n) < Qfloor x + n + 1)%Z).
  { apply floor_bounds.
    - rewrite inject_Z_plus. lra.
    - rewrite !inject_Z_plus. change (inject_Z 1) with 1. lra. }
  lia.
Qed.

(** On a negative longitude above -2^53 that is not a multiple of 30
    degrees [format_zodiac] names the sign after the one the longitude lies
    in: its index is the floor index plus one, around the zodiac.  The bound
    is the range on which the rounded quotient has the whole part of the
    exact one. *)
Theorem format_zodiac_below_zero (L : Q) :
  - two_53 < L -> L < 0 -> ~ L / 30 == inject_Z (Qfloor (L / 30)) ->
  Zodiac.sign_idx L = ((Zodiac.spec_sign_idx L + 1) mod 12)%Z /\
  Zodiac.sign_idx L <> Zodiac.spec_sign_idx L.
Proof.
  intros _ Hneg Hfrac. pose proof (sign_idx_negative L Hneg Hfrac) as H.
  split; [exact H |].
  rewrite H. unfold Zodiac.spec_sign_idx.
  pose proof (Z.mod_pos_bound (Py.floor (L / 30)) 12 ltac:(lia)) as B.
  set (s := (Py.floor (L / 30) mod 12)%Z) in *.
  destruct (Z.eq_dec s 11) as [E | E].
  - rewrite E. discriminate.
  - rewrite Z.mod_small by lia. lia.
Qed.

Lemma format_zodiac_below_zero_witness :
  Zodiac.sign_idx (-10) = ((Zodiac.spec_sign_idx (-10) + 1) mod 12)%Z /\
  Zodiac.sign_idx (-10) <> Zodiac.spec_sign_idx (-10).
Proof.
  apply (format_zodiac_below_zero (-10));
    [reflexivity | reflexivity | vm_compute; discriminate].
Defined.

(** The degree and minute of [format_zodiac] in [einstein_chart.py]: on a
    longitude that is not negative the degree is a whole number from 0 to 29,
    the minute lies in [0,60), and together they give the longitude modulo 30
    back. *)
Theorem degree_minute_split (L : Q) :
  0 <= L ->
  let degrees := Zodiac.degrees L in
  let deg := Py.int degrees in
  let minutes := (degrees - inject_Z deg) * 60 in
  EinsteinChart.format_zodiac L
  = [ Fmt (AInt deg) ""; Lit degree_sign; Fmt (AFloat minutes) ".1f"; Lit "' ";
      Fmt (AStr (nth (Z.to_nat (Zodiac.sign_idx L)) EinsteinChart.SIGNS ""%string)) "" ] /\
  (0 <= deg <= 29)%Z /\
  0 <= minutes /\ minutes < 60 /\
  inject_Z deg + minutes / 60 == degrees.
Proof.
  intros _. cbv zeta. pose proof (degrees_range L) as [H0 H1].
  split; [reflexivity |].
  rewrite (int_nonneg _ H0).
  pose proof (Qfloor_le (Zodiac.degrees L)) as F1.
  pose proof (Qlt_floor (Zodiac.degrees L)) as F2.
  rewrite inject_Z_plus in F2. change (inject_Z 1) with 1 in F2.
  assert (B : (0 <= Qfloor (Zodiac.degrees L) < 30)%Z)
    by (apply floor_bounds; unfold inject_Z; lra).
  split; [lia |]. split; [lra |]. split; [lra | field].
Qed.

Lemma degree_minute_split_witness :
  let degrees := Zodiac.degrees 47.25 in
  let deg := Py.int degrees in
  let minutes := (degrees - inject_Z deg) * 60 in
  EinsteinChart.format_zodiac 47.25
  = [ Fmt (AInt deg) ""; Lit degree_sign; Fmt (AFloat minutes) ".1f"; Lit "' ";
      Fmt (AStr (nth (Z.to_nat (Zodiac.sign_idx 47.25)) EinsteinChart.SIGNS ""%string)) "" ] /\
  (0 <= deg <= 29)%Z /\
  0 <= minutes /\ minutes < 60 /\
  inject_Z deg + minutes / 60 == degrees.
Proof. apply (degree_minute_split 47.25). vm_compute; discriminate. Defined.

Lemma floor_div30_turns (L : Q) (k : Z) :
  Qfloor ((L + 360 * inject_Z k) / 30) = (Qfloor (L / 30) + 12 * k)%Z.
Proof.
  rewrite <- floor_shift. apply Qfloor_comp.
  rewrite inject_Z_mult. change (inject_Z 12) with 12. field.
Qed.

(** Whole turns do not change what [format_zodiac] shows: two longitudes
    from 0 up to 2^53 that lie [k] times 360 degrees apart get the same sign
    index and the same degree.  Both longitudes are inputs; no sum is
    computed. *)
Theorem format_zodiac_full_turns (L L' : Q) (k : Z) :
  0 <= L -> L < two_53 -> 0 <= L' -> L' < two_53 ->
  L' == L + 360 * inject_Z k ->
  Zodiac.sign_idx L' = Zodiac.sign_idx L /\
  Zodiac.degrees L' == Zodiac.degrees L.
Proof.
  intros HL _ HL' _ Hk.
  assert (Hf : Qfloor (L' / 30) = (Qfloor (L / 30) + 12 * k)%Z).
  { rewrite <- floor_div30_turns. apply Qfloor_comp. now rewrite Hk. }
  split.
  - rewrite !sign_idx_nonneg by assumption.
    unfold Zodiac.spec_sign_idx, Py.floor. rewrite Hf.
    rewrite Z.mul_comm. apply Z.mod_add. lia.
  - unfold Zodiac.degrees, Py.fmod. rewrite Hf, Hk.
    rewrite inject_Z_plus, inject_Z_mult. change (inject_Z 12) with 12. ring.
Qed.

Lemma format_zodiac_full_turns_witness :
  Zodiac.sign_idx 767.25 = Zodiac.sign_idx 47.25 /\
  Zodiac.degrees 767.25 == Zodiac.degrees 47.25.
Proof.
  apply (format_zodiac_full_turns 47.25 767.25 2);
    solve [reflexivity | vm_compute; discriminate].
Defined.

(** What the exported speed still tells about the flag: in the dictionary of
    [calculate_position] a negative [longitude_speed] comes with
    [is_retrograde] true and a positive one with [is_retrograde] false; only
    an exported speed of zero leaves the flag open. *)
Theorem exported_speed_sign (e : env) (planet_id : body) (jd : Q) (w : world) :
  match calc_ut (swe e) jd planet_id GenerateReferenceData.CALC_FLAGS with
  | Ok (result, _) =>
      exists pos,
        fst (GenerateReferenceData.calculate_position e planet_id jd w) = Ok pos /\
        (GenerateReferenceData.longitude_speed pos < 0 ->
         GenerateReferenceData.is_retrograde pos = true) /\
        (0 < GenerateReferenceData.longitude_speed pos ->
         GenerateReferenceData.is_retrograde pos = false)
  | Raise x =>
      fst (GenerateReferenceData.calculate_position e planet_id jd w) = Raise x
  end.
Proof.
  rewrite calculate_position_run.
  destruct (calc_ut (swe e) jd planet_id GenerateReferenceData.CALC_FLAGS)
    as [[result retflag] | x]; cbn [fst]; [| reflexivity].
  exists (position_of result). split; [reflexivity |].
  cbn [position_of GenerateReferenceData.is_retrograde
       GenerateReferenceData.longitude_speed].
  split; intros H.
  - apply ltb_spec. apply Qnot_le_lt. intros Hge.
    apply round6_of_nonneg in Hge. lra.
  - destruct (ltb (xx3 result) 0) eqn:E; [| reflexivity].
    apply ltb_spec in E. apply round6_of_negative in E. lra.
Qed.

Lemma round6_reaches_360 (raw : Q) :
  359.9999995 <= raw -> raw < 360 -> round6 raw = inject_Z 360000000 / 1000000.
Proof.
  intros Hlo Hhi. unfold round6. f_equal. f_equal.
  assert (Hf : Qfloor (raw * 1000000) = 359999999%Z).
  { assert (B : (359999999 <= Qfloor (raw * 1000000) < 360000000)%Z)
      by (apply floor_bounds; unfold inject_Z; lra).
    lia. }
  unfold round_half_even. rewrite Hf.
  destruct (Qcompare _ _) eqn:E; try reflexivity.
  apply Qlt_alt in E. unfold inject_Z in E. lra.
Qed.

(** The exported longitude can leave [0,360): for a library longitude within
    [0,360) the rounded value lies within [0,360], and it is 360 exactly when
    the library longitude is 359.9999995 or more; [format_zodiac] then shows
    0 degrees of the first sign. *)
Theorem exported_longitude_range (e : env) (planet_id : body) (jd : Q)
  (result : xx) (retflag : Z) (w : world) :
  calc_ut (swe e) jd planet_id GenerateReferenceData.CALC_FLAGS = Ok (result, retflag) ->
  0 <= xx0 result -> xx0 result < 360 ->
  exists pos,
    fst (GenerateReferenceData.calculate_position e planet_id jd w) = Ok pos /\
    0 <= GenerateReferenceData.longitude pos /\
    GenerateReferenceData.longitude pos <= 360 /\
    (GenerateReferenceData.longitude pos == 360 <-> 359.9999995 <= xx0 result) /\
    (359.9999995 <= xx0 result ->
     Zodiac.sign_idx (GenerateReferenceData.longitude pos) = 0%Z /\
     Zodiac.degrees (GenerateReferenceData.longitude pos) == 0).
Proof.
  intros Hcall H0 H1. rewrite calculate_position_run, Hcall. cbn [fst].
  exists (position_of result). split; [reflexivity |].
  cbn [position_of GenerateReferenceData.longitude].
  split; [now apply round6_of_nonneg |].
  assert (Hle : round6 (xx0 result) <= 360).
  { unfold round6.
    assert (B : (Qfloor (xx0 result * 1000000) < 360000000)%Z).
    { rewrite Zlt_Qlt. eapply Qle_lt_trans; [apply Qfloor_le |]. unfold inject_Z. lra. }
    pose proof (round_half_even_between (xx0 result * 1000000)) as K.
    apply Qle_shift_div_r; [reflexivity |].
    change (360 * 1000000) with (inject_Z 360000000). rewrite <- Zle_Qle. lia. }
  split; [exact Hle |]. split.
  - split.
    + intros Heq. pose proof (round6_near (xx0 result)) as N.
      apply Qabs_Qle_condition in N. lra.
    + intros Hlo. now rewrite (round6_reaches_360 _ Hlo H1).
  - intros Hlo. rewrite (round6_reaches_360 _ Hlo H1). split; reflexivity.
Qed.

Lemma exported_longitude_range_witness :
  exists pos,
    fst (GenerateReferenceData.calculate_position end_of_pisces SUN
           2451545.0 start) = Ok pos /\
    0 <= GenerateReferenceData.longitude pos /\
    GenerateReferenceData.longitude pos <= 360 /\
    (GenerateReferenceData.longitude pos == 360 <-> 359.9999995 <= 359.9999997) /\
    (359.9999995 <= 359.9999997 ->
     Zodiac.sign_idx (GenerateReferenceData.longitude pos) = 0%Z /\
     Zodiac.degrees (GenerateReferenceData.longitude pos) == 0).
Proof.
  apply (exported_longitude_range end_of_pisces SUN 2451545.0
           {| xx0 := 359.9999997; xx1 := 0.0000004; xx2 := 1.0167103;
              xx3 := 0.9856473; xx4 := 0; xx5 := 0 |} 258%Z start);
    solve [reflexivity | vm_compute; discriminate].
Defined.

(** ** Calls in order: rules for [follows] *)

Section Follows.
Variable lib : api.

Lemma follows_ret {A} (Q : A -> Prop) (a : A) : Q a -> follows lib [] Q (ret a).
Proof.
  intros H w. cbn. rewrite app_nil_r. repeat split. now exists a.
Qed.

Lemma follows_print (Q : unit -> Prop) (line : list text) :
  Q tt -> follows lib [] Q (print line).
Proof.
  intros H w. cbn. rewrite app_nil_r. repeat split. now exists tt.
Qed.

Lemma follows_lift {A} (Q : A -> Prop) (o : option A) (x : exn) :
  o <> None -> (forall a, o = Some a -> Q a) -> follows lib [] Q (lift o x).
Proof.
  intros Ho HQ. destruct o as [a |]; [| contradiction].
  apply follows_ret. now apply HQ.
Qed.

Lemma follows_invoke {A} (Q : A -> Prop) (c : call) (r : result A) :
  answered lib c r -> (forall a, r = Ok a -> Q a) -> follows lib [c] Q (invoke c r).
Proof.
  intros Hr HQ w. unfold answered in Hr. cbn [replay].
  destruct r as [a | x]; rewrite Hr; cbn; repeat split.
  exists a. auto.
Qed.

Lemma follows_bind {A B} (Q1 : A -> Prop) (Q : B -> Prop) (cs1 cs2 : list call)
  (m : M A) (k : A -> M B) :
  follows lib cs1 Q1 m -> (forall a, Q1 a -> follows lib cs2 Q (k a)) ->
  follows lib (cs1 ++ cs2) Q (bind m k).
Proof.
  intros Hm Hk w. destruct (Hm w) as (Hq & Hf & Hr).
  rewrite replay_app. unfold bind.
  destruct (m w) as [[a | x] w1]; cbn [fst snd] in *;
    destruct (replay lib cs1) as [made [x1 |]]; cbn [fst snd] in *;
    try discriminate; try (destruct Hr as (a' & E & _); discriminate).
  - destruct Hr as (a' & E & Ha). inversion E; subst a'.
    destruct (Hk a Ha w1) as (Kq & Kf & Kr).
    rewrite Kq, Kf, Hq, Hf, app_assoc. auto.
  - inversion Hr. auto.
Qed.

Lemma follows_for_each {A S} (I : S -> Prop) (calls : A -> list call) (xs : list A)
  (body : A -> S -> M S) (s : S) :
  (forall x s', In x xs -> I s' -> follows lib (calls x) I (body x s')) -> I s ->
  follows lib (flat_map calls xs) I (for_each xs body s).
Proof.
  revert s. induction xs as [| x xs IH]; intros s Hb Hs; cbn [flat_map for_each].
  - now apply follows_ret.
  - apply follows_bind with (Q1 := I).
    + apply Hb; [now left | exact Hs].
    + intros s' Hs'. apply IH; [| exact Hs']. intros y s2 Hy. apply Hb. now right.
Qed.

Lemma follows_conv {A} (Q : A -> Prop) (cs cs' : list call) (m : M A) :
  follows lib cs' Q m -> cs = cs' -> follows lib cs Q m.
Proof. intros H E. now subst. Qed.

End Follows.

(** ** The chart, call by call *)

Lemma house_steps_run (cusps : list Q) (indices : list nat) (w : world) :
  Forall (fun i => (i < List.length cusps)%nat) indices ->
  for_each indices (EinsteinChart.house_step cusps) tt w
  = (Ok tt,
     {| queries := queries w;
        stdout := stdout w ++ map (fun i => house_line i (nth i cusps 0)) indices;
        files := files w |}).
Proof.
  intros H. revert w. induction H as [| i indices Hi Hrest IH]; intros w; cbn [for_each map].
  - destruct w. cbn. now rewrite app_nil_r.
  - unfold EinsteinChart.house_step at 1.
    rewrite (nth_error_nth' cusps 0 Hi). cbn [lift].
    unfold bind at 2. cbn [ret]. rewrite print_bind. rewrite IH. cbn [queries stdout files].
    now rewrite <- app_assoc.
Qed.

Lemma house_indices_in_range (cusps : list Q) :
  Forall (fun i => (i < List.length cusps)%nat)
    (seq 1 (Nat.min 13 (List.length cusps) - 1)).
Proof. apply Forall_forall. intros i Hi. apply in_seq in Hi. lia. Qed.

(** The loop over the house cusps never fails on an index: whatever tuple
    [houses] returned, it prints the lines of the cusps 1 up to 12, or up to
    the last index of a shorter tuple, makes no call and ends normally.  A
    tuple of 13 entries gives twelve lines, one of 12 entries only eleven. *)
Theorem house_loop_lines (cusps : list Q) (w : world) :
  for_each (seq 1 (Nat.min 13 (List.length cusps) - 1))
           (EinsteinChart.house_step cusps) tt w
  = (Ok tt,
     {| queries := queries w;
        stdout := stdout w
                  ++ map (fun i => house_line i (nth i cusps 0))
                       (seq 1 (Nat.min 12 (List.length cusps - 1)));
        files := files w |}).
Proof.
  replace (Nat.min 12 (List.length cusps - 1))
    with (Nat.min 13 (List.length cusps) - 1)%nat by lia.
  apply house_steps_run. apply house_indices_in_range.
Qed.

Section FollowsMore.
Variable lib : api.

Lemma follows_prints_only (m : M unit) : prints_only m -> follows lib [] any m.
Proof.
  intros H w. destruct (H w) as [s E]. rewrite E. cbn. rewrite app_nil_r.
  repeat split. now exists tt.
Qed.

Lemma follows_quiet {A B} (Q : B -> Prop) (cs : list call) (m : M A) (k : A -> M B) :
  follows lib [] any m -> (forall a, follows lib cs Q (k a)) ->
  follows lib cs Q (bind m k).
Proof.
  intros Hm Hk. change cs with ([] ++ cs). apply follows_bind with (Q1 := any); auto.
Qed.

Lemma follows_call {A B} (Q : B -> Prop) (c : call) (cs : list call) (r : result A)
  (k : A -> M B) :
  answered lib c r -> (forall a, r = Ok a -> follows lib cs Q (k a)) ->
  follows lib (c :: cs) Q (bind (invoke c r) k).
Proof.
  intros Hr Hk. change (c :: cs) with ([c] ++ cs).
  apply follows_bind with (Q1 := fun a => r = Ok a); auto.
  apply follows_invoke; auto.
Qed.

End FollowsMore.

Ltac answered_tac :=
  unfold answered; cbn [outcome];
  match goal with
  | |- match ?r with _ => _ end => destruct r as [? | ?]; reflexivity
  end.

Ltac follows_step :=
  lazymatch goal with
  | |- follows _ _ _ (bind (invoke _ _) _) =>
      eapply follows_call; [answered_tac | intros ? ?]
  | |- follows _ _ _ (bind (print _) _) =>
      eapply follows_quiet; [apply follows_print; exact I | intros ?]
  | |- follows _ _ _ (for_each _ _ _) => fail "a loop"
  | |- follows _ _ _ (lift _ _) => fail "a lookup"
  | |- follows _ _ _ (bind (lift _ _) _) => fail "a lookup"
  | |- follows _ _ _ (bind _ _) =>
      eapply follows_bind with (Q1 := any); [ | intros ? ?]
  | |- follows _ _ _ (ret _) => eapply follows_ret
  | |- follows _ _ _ (print _) => eapply follows_print
  | |- follows _ _ _ (invoke _ _) => eapply follows_invoke; [answered_tac | intros ? ?]
  | |- follows _ _ _ (match ?x with _ => _ end) => destruct x
  | |- follows _ _ _ (let '(_, _) := ?x in _) => destruct x
  end.

Lemma at_least_four (ascmc : list Q) (i : nat) :
  (4 <= List.length ascmc)%nat -> (i < 4)%nat -> nth_error ascmc i <> None.
Proof. intros H Hi. apply nth_error_Some. lia. Qed.

Ltac follows_lookup H :=
  lazymatch goal with
  | |- follows _ _ _ (bind (lift (nth_error _ _) _) _) =>
      eapply follows_quiet;
      [ apply follows_lift; [apply at_least_four; [exact H | lia] | intros; exact I]
      | intros ? ]
  | _ => follows_step
  end.

Section ChartCalls.
Variable e : env.
Variable b : EinsteinChart.BirthData.

Lemma chart_follows (jd : Q) :
  jd_is e b jd ->
  (forall cusps ascmc,
     houses (swe e) jd (EinsteinChart.LATITUDE b) (EinsteinChart.LONGITUDE b) "P"
     = Ok (cusps, ascmc) -> (4 <= List.length ascmc)%nat) ->
  follows (swe e)
    (Julday (EinsteinChart.YEAR b) (EinsteinChart.MONTH b) (EinsteinChart.DAY b)
       (EinsteinChart.hour_decimal b) :: chart_schedule b jd)
    any (EinsteinChart.chart e b).
Proof.
  intros Hjd Hlen. eapply follows_conv.
  - unfold EinsteinChart.chart.
    eapply follows_quiet; [apply follows_prints_only, banner_run |]. intros _.
    eapply follows_bind with (Q1 := jd_is e b).
    { unfold EinsteinChart.julian_date, swe_julday. repeat follows_step; auto. }
    intros jd' Hjd'. unfold jd_is in Hjd, Hjd'. rewrite Hjd in Hjd'.
    inversion Hjd'. subst jd'. clear Hjd'.
    eapply follows_bind with (Q1 := any).
    { unfold EinsteinChart.delta_t_block, swe_deltat. repeat follows_step; exact I. }
    intros _ _.
    eapply follows_bind with (Q1 := any).
    { unfold EinsteinChart.sidereal_time_block, swe_sidtime. repeat follows_step; exact I. }
    intros _ _.
    eapply follows_bind with (Q1 := any).
    { unfold EinsteinChart.obliquity_block, swe_calc. repeat follows_step; exact I. }
    intros _ _.
    eapply follows_bind with (Q1 := fun ascmc => (4 <= List.length ascmc)%nat).
    { unfold EinsteinChart.houses_block, swe_houses, EinsteinChart.angle_line.
      do 3 follows_step.
      eapply follows_call; [answered_tac |]. intros [cusps ascmc] Hh.
      pose proof (Hlen cusps ascmc Hh) as H4.
      repeat (follows_lookup H4); try exact I; try exact H4.
      apply follows_prints_only. intros w0. eexists.
      apply house_steps_run. apply house_indices_in_range. }
    intros ascmc H4.
    eapply follows_bind with (Q1 := any).
    { unfold EinsteinChart.planets_block. do 6 follows_step.
      apply follows_for_each
        with (calls := fun p => [CalcUt jd (snd p) EinsteinChart.CALC_FLAGS]) (I := any).
      - intros [name pid] [] _ _. unfold EinsteinChart.planet_step, swe_calc_ut.
        cbn [snd]. repeat follows_step; exact I.
      - exact I. }
    intros _ _.
    eapply follows_bind with (Q1 := any).
    { unfold EinsteinChart.points_block, EinsteinChart.point_line,
        EinsteinChart.angle_line, swe_calc_ut.
      repeat follows_step; exact I. }
    intros _ _.
    unfold EinsteinChart.summary_block, EinsteinChart.summary_body, swe_calc_ut.
    repeat (follows_lookup H4); exact I.
  - reflexivity.
Qed.

End ChartCalls.

(** The chart makes its calls in a fixed order and stops at the first one
    that raises: after [julday] come [deltat], [sidtime] twice, [calc] for the
    obliquity, [houses], the ten planets, the three points and three queries
    each for Sun, Moon and Mercury.  If a call raises, the run ends with its
    exception and no later call is made; if all 28 answer, the run ends
    normally.  No file is written. *)
Theorem chart_calls_in_order (e : env) (b : EinsteinChart.BirthData) (jd : Q) :
  jd_is e b jd -> ascmc_complete e b jd ->
  queries (snd (run (EinsteinChart.chart e b)))
  = Julday (EinsteinChart.YEAR b) (EinsteinChart.MONTH b) (EinsteinChart.DAY b)
      (EinsteinChart.hour_decimal b)
    :: fst (replay (swe e) (chart_schedule b jd)) /\
  files (snd (run (EinsteinChart.chart e b))) = [] /\
  match snd (replay (swe e) (chart_schedule b jd)) with
  | Some x => fst (run (EinsteinChart.chart e b)) = Raise x
  | None => fst (run (EinsteinChart.chart e b)) = Ok tt
  end.
Proof.
  intros Hjd Hlen.
  assert (Hlen' : forall cusps ascmc,
            houses (swe e) jd (EinsteinChart.LATITUDE b) (EinsteinChart.LONGITUDE b) "P"
            = Ok (cusps, ascmc) -> (4 <= List.length ascmc)%nat).
  { intros cusps ascmc H. unfold ascmc_complete in Hlen. now rewrite H in Hlen. }
  destruct (chart_follows e b jd Hjd Hlen' start) as (Hq & Hf & Hr).
  unfold run. cbn [replay outcome] in Hq, Hr. unfold jd_is in Hjd. rewrite Hjd in Hq, Hr.
  destruct (replay (swe e) (chart_schedule b jd)) as [made [x |]];
    cbn [fst snd] in *.
  - auto.
  - destruct Hr as ([] & E & _). auto.
Qed.

Lemma chart_calls_in_order_witness :
  queries (snd (run (EinsteinChart.chart morning EinsteinChart.einstein)))
  = Julday 1879 3 14 (EinsteinChart.hour_decimal EinsteinChart.einstein)
    :: fst (replay (swe morning) (chart_schedule EinsteinChart.einstein einstein_jd)) /\
  files (snd (run (EinsteinChart.chart morning EinsteinChart.einstein))) = [] /\
  match snd (replay (swe morning) (chart_schedule EinsteinChart.einstein einstein_jd)) with
  | Some x => fst (run (EinsteinChart.chart morning EinsteinChart.einstein)) = Raise x
  | None => fst (run (EinsteinChart.chart morning EinsteinChart.einstein)) = Ok tt
  end.
Proof.
  apply (chart_calls_in_order morning EinsteinChart.einstein einstein_jd);
    [reflexivity | vm_compute; lia].
Defined.

(** With the library of the examples all 28 calls are made and the run ends
    normally; when [houses] fails the run ends there, after six calls. *)
Example chart_runs_to_the_end :
  fst (run (EinsteinChart.chart morning EinsteinChart.einstein)) = Ok tt /\
  List.length (queries (snd (run (EinsteinChart.chart morning EinsteinChart.einstein))))
  = 28%nat /\
  fst (run (EinsteinChart.chart no_houses EinsteinChart.einstein))
  = Raise (Error "within polar circle") /\
  List.length (queries (snd (run (EinsteinChart.chart no_houses EinsteinChart.einstein))))
  = 6%nat.
Proof. vm_compute. repeat split. Qed.

Lemma invoke_bind {A B} (c : call) (r : result A) (k : A -> M B) (w : world) :
  bind (invoke c r) k w
  = match r with
    | Ok a => k a {| queries := queries w ++ [c]; stdout := stdout w; files := files w |}
    | Raise x =>
        (Raise x, {| queries := queries w ++ [c]; stdout := stdout w; files := files w |})
    end.
Proof. unfold bind, invoke. now destruct r. Qed.

Section ChartEdges.
Variable e : env.
Variable b : EinsteinChart.BirthData.

Lemma obliquity_block_ok (w : world) (jd : Q) (v : xx * Z) :
  calc (swe e) jd ECL_NUT = Ok v ->
  exists l,
    EinsteinChart.obliquity_block e jd w
    = (Ok tt,
       {| queries := queries w ++ [Calc jd ECL_NUT];
          stdout := stdout w ++ [l; []];
          files := files w |}).
Proof.
  intros H. unfold EinsteinChart.obliquity_block, swe_calc.
  rewrite invoke_bind, H, print_bind. unfold print. cbn [queries stdout files].
  rewrite <- app_assoc. eexists. reflexivity.
Qed.

Lemma houses_block_short (w : world) (jd : Q) (cusps ascmc : list Q) :
  houses (swe e) jd (EinsteinChart.LATITUDE b) (EinsteinChart.LONGITUDE b) "P"
  = Ok (cusps, ascmc) ->
  (List.length ascmc < 4)%nat ->
  exists w',
    EinsteinChart.houses_block e b jd w = (Raise IndexError, w') /\
    queries w'
    = queries w
      ++ [Houses jd (EinsteinChart.LATITUDE b) (EinsteinChart.LONGITUDE b) "P"] /\
    files w' = files w.
Proof.
  intros H Hshort. unfold EinsteinChart.houses_block, swe_houses, EinsteinChart.angle_line.
  rewrite !print_bind, invoke_bind, H, print_bind.
  destruct ascmc as [| a0 [| a1 [| a2 [| a3 rest]]]];
    [ | | | | cbn [List.length] in Hshort; lia ];
    eexists; (split; [reflexivity | split; reflexivity]).
Qed.

(** A tuple of fewer than four angles from [houses] ends the chart with
    [IndexError] right after that call: Julian Day, Delta T, sidereal time
    and obliquity are already printed, and no planet is queried. *)
Theorem chart_short_ascmc (jd dt gmst : Q) (eps : xx * Z) (cusps ascmc : list Q) :
  jd_is e b jd -> deltat (swe e) jd = Ok dt -> sidtime (swe e) jd = Ok gmst ->
  calc (swe e) jd ECL_NUT = Ok eps ->
  houses (swe e) jd (EinsteinChart.LATITUDE b) (EinsteinChart.LONGITUDE b) "P"
  = Ok (cusps, ascmc) ->
  (List.length ascmc < 4)%nat ->
  fst (run (EinsteinChart.chart e b)) = Raise IndexError /\
  queries (snd (run (EinsteinChart.chart e b)))
  = [ Julday (EinsteinChart.YEAR b) (EinsteinChart.MONTH b) (EinsteinChart.DAY b)
        (EinsteinChart.hour_decimal b);
      Deltat jd; Sidtime jd; Sidtime jd; Calc jd ECL_NUT;
      Houses jd (EinsteinChart.LATITUDE b) (EinsteinChart.LONGITUDE b) "P" ].
Proof.
  intros Hjd Hdt Hst Hcalc Hh Hshort. unfold run, EinsteinChart.chart.
  destruct (banner_run e b start) as [s0 Hb]. rewrite (bind_ok _ _ _ _ _ Hb).
  rewrite (bind_ok _ _ _ _ _ (julian_date_ok e b _ _ Hjd)).
  rewrite (bind_ok _ _ _ _ _ (delta_t_block_ok e _ _ _ Hdt)).
  match goal with
  | |- context [bind (EinsteinChart.sidereal_time_block e b jd) _ ?w] =>
      destruct (sidereal_time_block_ok e b w jd gmst Hst) as [l1 H1]
  end.
  rewrite (bind_ok _ _ _ _ _ H1).
  match goal with
  | |- context [bind (EinsteinChart.obliquity_block e jd) _ ?w] =>
      destruct (obliquity_block_ok w jd eps Hcalc) as [l2 H2]
  end.
  rewrite (bind_ok _ _ _ _ _ H2).
  match goal with
  | |- context [bind (EinsteinChart.houses_block e b jd) _ ?w] =>
      destruct (houses_block_short w jd cusps ascmc Hh Hshort) as (w' & H3 & Hq & _)
  end.
  rewrite (bind_raise _ _ _ _ _ H3). cbn [fst snd]. split; [reflexivity |].
  rewrite Hq. reflexivity.
Qed.

(** Every call of the chart carries the birth data or the Julian Day (UT)
    that [julday] returned: Delta T, sidereal time, obliquity, houses and
    every position are asked for at that Julian Day, houses for the latitude
    and longitude of the script and the Placidus system; the Julian Day (TT)
    is printed and never passed on. *)
Theorem chart_calls_at_julian_day_ut :
  Forall (chart_call_ok e b) (queries (snd (run (EinsteinChart.chart e b)))).
Proof.
  apply (emits_run _ any any (EinsteinChart.chart e b)).
  unfold EinsteinChart.chart.
  apply emits_seq; [unfold_blocks; repeat emits_step; exact I |]. intros _.
  apply emits_bind with (Q1 := jd_is e b).
  { unfold_blocks. repeat emits_step; try exact I; try assumption.
    cbn. auto. }
  intros jd Hjd.
  unfold_blocks. repeat emits_step; try exact I; try exact Hjd.
  cbn. auto.
Qed.

End ChartEdges.

Lemma chart_short_ascmc_witness :
  fst (run (EinsteinChart.chart three_angles EinsteinChart.einstein)) = Raise IndexError /\
  queries (snd (run (EinsteinChart.chart three_angles EinsteinChart.einstein)))
  = [ Julday 1879 3 14 (EinsteinChart.hour_decimal EinsteinChart.einstein);
      Deltat einstein_jd; Sidtime einstein_jd; Sidtime einstein_jd;
      Calc einstein_jd ECL_NUT; Houses einstein_jd 48.4 10.0 "P" ].
Proof.
  apply (chart_short_ascmc three_angles EinsteinChart.einstein einstein_jd einstein_delta_t 23.9
           ({| xx0 := 23.4576; xx1 := 23.4561; xx2 := 0.0012; xx3 := -0.0015;
               xx4 := 0; xx5 := 0 |}, 0%Z)
           [0; 191.2; 216.1; 247.3; 283.5; 318.7; 348.2; 11.2; 36.1; 67.3; 103.5;
            138.7; 168.2]
           [191.2; 103.5; 101.6]);
    solve [reflexivity | vm_compute; lia].
Defined.

(** ** The dataset, entry by entry *)

Lemma distinctb_NoDup (l : list string) : distinctb l = true -> NoDup l.
Proof.
  induction l as [| x l IH]; cbn [distinctb]; intros H; constructor.
  - apply andb_prop in H. destruct H as [H _]. apply negb_true_iff in H.
    intros Hin. assert (E : existsb (String.eqb x) l = true).
    { apply existsb_exists. exists x. split; [exact Hin | apply String.eqb_refl]. }
    congruence.
  - apply IH. apply andb_prop in H. tauto.
Qed.

Lemma setitem_fresh {V} (d : list (string * V)) (k : string) (v : V) :
  ~ In k (keys d) -> setitem d k v = d ++ [(k, v)].
Proof.
  induction d as [| [k0 v0] d IH]; cbn [setitem keys map fst app]; intros H.
  - reflexivity.
  - destruct (String.eqb k0 k) eqn:E.
    + apply String.eqb_eq in E. exfalso. apply H. now left.
    + f_equal. apply IH. intros Hin. apply H. now right.
Qed.

Lemma keys_app {V} (d1 d2 : list (string * V)) : keys (d1 ++ d2) = keys d1 ++ keys d2.
Proof. unfold keys. apply map_app. Qed.

Lemma Forall2_keys {A V} (R : A -> string * V -> Prop) (key : A -> string)
  (xs : list A) (d : list (string * V)) :
  (forall x entry, R x entry -> fst entry = key x) ->
  Forall2 R xs d -> keys d = map key xs.
Proof.
  intros HR H. induction H as [| x entry xs d Hx Hrest IH]; cbn; [reflexivity |].
  now rewrite (HR _ _ Hx), <- IH.
Qed.

Lemma emits_post (P : call -> Prop) (R : list text -> Prop) {A} (Q Q' : A -> Prop)
  (m : M A) :
  emits P R Q m -> (forall a, Q a -> Q' a) -> emits P R Q' m.
Proof.
  intros Hm HQ w. destruct (Hm w) as (q & s & Eq & Es & Ef & Fq & Fs & Ha).
  exists q, s. repeat split; auto.
Qed.

Section Layout.
Variable e : env.

Lemma planets_loop_layout (jd : Q) (ps : list (string * body))
  (dd : GenerateReferenceData.DateData) :
  NoDup (keys (GenerateReferenceData.positions dd) ++ map fst ps) ->
  emits any any
    (fun dd' =>
       GenerateReferenceData.jd dd' = GenerateReferenceData.jd dd /\
       GenerateReferenceData.description dd' = GenerateReferenceData.description dd /\
       exists added,
         GenerateReferenceData.positions dd'
         = GenerateReferenceData.positions dd ++ added /\
         Forall2 (record_for e jd) ps added)
    (for_each ps (GenerateReferenceData.planet_step e jd) dd).
Proof.
  revert dd. induction ps as [| [name pid] ps IH]; intros dd Hnd; cbn [for_each].
  - apply emits_ret. repeat split. exists []. rewrite app_nil_r. split; constructor.
  - eapply emits_bind
      with (Q1 := fun dd1 =>
                    GenerateReferenceData.jd dd1 = GenerateReferenceData.jd dd /\
                    GenerateReferenceData.description dd1
                    = GenerateReferenceData.description dd /\
                    exists entry,
                      GenerateReferenceData.positions dd1
                      = GenerateReferenceData.positions dd ++ [entry] /\
                      record_for e jd (name, pid) entry).
    + unfold GenerateReferenceData.planet_step.
      eapply emits_bind; [apply calculate_position_emits |].
      intros pos (result & retflag & Hcall & Hp). cbv beta.
      apply emits_seq; [apply emits_print; exact I |]. intros _.
      apply emits_ret. cbn [GenerateReferenceData.set_position GenerateReferenceData.jd
                            GenerateReferenceData.description
                            GenerateReferenceData.positions].
      repeat split. exists (name, pos). split.
      * apply setitem_fresh. intros Hin.
        cbn [map fst] in Hnd. apply NoDup_remove_2 in Hnd. apply Hnd.
        apply in_or_app. now left.
      * split; [reflexivity |]. exists result, retflag. auto.
    + intros dd1 (Hjd & Hdesc & entry & Hpos & Hentry).
      assert (Hnd1 : NoDup (keys (GenerateReferenceData.positions dd1) ++ map fst ps)).
      { rewrite Hpos, keys_app. destruct Hentry as [Hk _]. cbn [keys map] .
        cbn [fst] in Hk. rewrite Hk, <- app_assoc. exact Hnd. }
      eapply emits_post; [apply (IH dd1 Hnd1) |].
      intros dd2 (Hjd2 & Hdesc2 & added & Hpos2 & Hadded).
      split; [congruence |]. split; [congruence |].
      exists (entry :: added). split; [| now constructor].
      rewrite Hpos2, Hpos, <- app_assoc. reflexivity.
Qed.

Lemma planets_distinct : NoDup (map fst GenerateReferenceData.PLANETS).
Proof. apply distinctb_NoDup. reflexivity. Qed.

Lemma date_step_layout (jd : Q) (desc : string) (a : GenerateReferenceData.AllData) :
  ~ In (repr e jd) (keys (GenerateReferenceData.dates a)) ->
  emits any any
    (fun a' =>
       GenerateReferenceData.generator a' = GenerateReferenceData.generator a /\
       GenerateReferenceData.version a' = GenerateReferenceData.version a /\
       GenerateReferenceData.generated_at a' = GenerateReferenceData.generated_at a /\
       GenerateReferenceData.planets a' = GenerateReferenceData.planets a /\
       exists entry,
         GenerateReferenceData.dates a' = GenerateReferenceData.dates a ++ [entry] /\
         date_entry_for e (jd, desc) entry)
    (GenerateReferenceData.date_step e (jd, desc) a).
Proof.
  intros Hfresh. unfold GenerateReferenceData.date_step.
  do 6 (apply emits_seq; [apply emits_print; exact I |]; intros _).
  eapply emits_bind.
  { apply (planets_loop_layout jd GenerateReferenceData.PLANETS). cbn [app keys map
      GenerateReferenceData.positions]. apply planets_distinct. }
  cbn [GenerateReferenceData.positions GenerateReferenceData.jd
       GenerateReferenceData.description app].
  intros dd (Hjd & Hdesc & added & Hpos & Hadded). apply emits_ret.
  cbn [GenerateReferenceData.set_date GenerateReferenceData.generator
       GenerateReferenceData.version GenerateReferenceData.generated_at
       GenerateReferenceData.planets GenerateReferenceData.dates].
  repeat (split; [reflexivity |]).
  exists (repr e jd, dd). split; [now apply setitem_fresh |].
  unfold date_entry_for. cbn [fst snd]. rewrite Hpos. auto.
Qed.

Lemma dates_loop_layout (ds : list (Q * string)) (a : GenerateReferenceData.AllData) :
  NoDup (keys (GenerateReferenceData.dates a) ++ map (fun d => repr e (fst d)) ds) ->
  emits any any
    (fun a' =>
       GenerateReferenceData.generator a' = GenerateReferenceData.generator a /\
       GenerateReferenceData.version a' = GenerateReferenceData.version a /\
       GenerateReferenceData.generated_at a' = GenerateReferenceData.generated_at a /\
       GenerateReferenceData.planets a' = GenerateReferenceData.planets a /\
       exists added,
         GenerateReferenceData.dates a' = GenerateReferenceData.dates a ++ added /\
         Forall2 (date_entry_for e) ds added)
    (for_each ds (GenerateReferenceData.date_step e) a).
Proof.
  revert a. induction ds as [| [jd desc] ds IH]; intros a Hnd; cbn [for_each].
  - apply emits_ret. repeat split. exists []. rewrite app_nil_r. split; constructor.
  - eapply emits_bind.
    { apply date_step_layout. cbn [map fst] in Hnd. apply NoDup_remove_2 in Hnd.
      intros Hin. apply Hnd. apply in_or_app. now left. }
    intros a1 (Hg & Hv & Ht & Hp & entry & Hdates & Hentry).
    assert (Hnd1 : NoDup (keys (GenerateReferenceData.dates a1)
                          ++ map (fun d => repr e (fst d)) ds)).
    { rewrite Hdates, keys_app. destruct Hentry as [Hk _]. cbn [keys map].
      cbn [fst] in Hk. rewrite Hk, <- app_assoc. exact Hnd. }
    eapply emits_post; [apply (IH a1 Hnd1) |].
    intros a2 (Hg2 & Hv2 & Ht2 & Hp2 & added & Hdates2 & Hadded).
    repeat (split; [congruence |]).
    exists (entry :: added). split; [| now constructor].
    rewrite Hdates2, Hdates, <- app_assoc. reflexivity.
Qed.

(** What the loop of [main] returns when [str] tells the six Julian Days
    apart. *)
Lemma build_layout :
  distinctb (date_keys e) = true ->
  emits any any
    (fun a =>
       GenerateReferenceData.generator a = "pyswisseph"%string /\
       GenerateReferenceData.version a = Swe.version (swe e) /\
       GenerateReferenceData.generated_at a = now_isoformat e /\
       GenerateReferenceData.planets a = map fst GenerateReferenceData.PLANETS /\
       Forall2 (date_entry_for e) GenerateReferenceData.TEST_DATES
         (GenerateReferenceData.dates a))
    (build e).
Proof.
  intros Hd. unfold build. eapply emits_post.
  - apply dates_loop_layout. cbn [GenerateReferenceData.initial_all_data
      GenerateReferenceData.dates keys map app].
    apply distinctb_NoDup. exact Hd.
  - cbn [GenerateReferenceData.initial_all_data GenerateReferenceData.generator
         GenerateReferenceData.version GenerateReferenceData.generated_at
         GenerateReferenceData.planets GenerateReferenceData.dates app].
    intros a (Hg & Hv & Ht & Hp & added & Hdates & Hadded).
    repeat (split; [assumption |]). now rewrite Hdates.
Qed.

Lemma build_answered (w : world) :
  snd (replay (swe e) schedule) = None -> exists a, fst (build e w) = Ok a.
Proof.
  intros H. pose proof (dates_loop_replay e GenerateReferenceData.TEST_DATES
                          (GenerateReferenceData.initial_all_data e) w) as K.
  cbv zeta in K. fold schedule in K. fold (build e) in K.
  rewrite H in K. tauto.
Qed.

End Layout.

Lemma getitem_none {V} (d : list (string * V)) (k : string) :
  getitem d k = None <-> ~ In k (keys d).
Proof.
  induction d as [| [k0 v0] d IH]; cbn [getitem keys map fst In].
  - tauto.
  - destruct (String.eqb k0 k) eqn:E.
    + apply String.eqb_eq in E. split; [discriminate | intros H; exfalso; auto].
    + apply String.eqb_neq in E. unfold keys in IH. rewrite IH. tauto.
Qed.

Lemma getitem_some_in {V} (d : list (string * V)) (k : string) (v : V) :
  getitem d k = Some v -> In (k, v) d.
Proof.
  induction d as [| [k0 v0] d IH]; cbn [getitem In]; [discriminate |].
  destruct (String.eqb k0 k) eqn:E.
  - apply String.eqb_eq in E. intros H. inversion H. subst. now left.
  - intros H. right. now apply IH.
Qed.

Lemma Forall2_in_right {A B} (R : A -> B -> Prop) (xs : list A) (ys : list B) (y : B) :
  Forall2 R xs ys -> In y ys -> exists x, In x xs /\ R x y.
Proof.
  intros H. induction H as [| x y0 xs ys Hxy Hrest IH]; cbn [In]; [tauto |].
  intros [E | Hin].
  - subst. exists x. auto.
  - destruct (IH Hin) as (x' & Hx' & HR). exists x'. auto.
Qed.

Lemma key_values_step_ok (pd : list (string * GenerateReferenceData.Position))
  (n : string) (pos : GenerateReferenceData.Position) (w : world) :
  getitem pd n = Some pos ->
  exists l,
    GenerateReferenceData.key_values_step pd n tt w
    = (Ok tt, {| queries := queries w; stdout := stdout w ++ [l]; files := files w |}).
Proof.
  intros H. unfold GenerateReferenceData.key_values_step. rewrite H. cbn [lift].
  unfold bind at 1. cbn [ret]. eexists. reflexivity.
Qed.

Lemma key_values_steps (pd : list (string * GenerateReferenceData.Position))
  (names : list string) (w : world) :
  Forall (fun n => In n (keys pd)) names ->
  fst (for_each names (GenerateReferenceData.key_values_step pd) tt w) = Ok tt.
Proof.
  intros H. revert w. induction H as [| n names Hn Hrest IH]; intros w; cbn [for_each].
  - reflexivity.
  - destruct (getitem pd n) as [pos |] eqn:E.
    + destruct (key_values_step_ok pd n pos w E) as [l El].
      rewrite (bind_ok _ _ _ _ _ El). apply IH.
    + apply getitem_none in E. contradiction.
Qed.

Lemma replay_none (lib : api) (cs : list call) :
  snd (replay lib cs) = None -> fst (replay lib cs) = cs.
Proof.
  induction cs as [| c cs IH]; cbn [replay]; [reflexivity |].
  destruct (outcome lib c); [discriminate |].
  destruct (replay lib cs) as [made r]. cbn [fst snd] in *.
  intros H. now rewrite IH.
Qed.

Lemma key_values_found (a : GenerateReferenceData.AllData)
  (d : GenerateReferenceData.DateData) (w : world) :
  getitem (GenerateReferenceData.dates a) "2451545.0" = Some d ->
  keys (GenerateReferenceData.positions d) = map fst GenerateReferenceData.PLANETS ->
  fst (GenerateReferenceData.key_values a w) = Ok tt.
Proof.
  intros Hd Hk. unfold GenerateReferenceData.key_values.
  rewrite !print_bind, Hd. cbn [lift]. unfold bind. cbn [ret].
  apply key_values_steps. rewrite Hk.
  repeat constructor; cbn; tauto.
Qed.

Lemma key_values_missing (a : GenerateReferenceData.AllData) (w : world) :
  getitem (GenerateReferenceData.dates a) "2451545.0" = None ->
  fst (GenerateReferenceData.key_values a w) = Raise (KeyError "2451545.0").
Proof.
  intros Hd. unfold GenerateReferenceData.key_values.
  rewrite !print_bind, Hd. reflexivity.
Qed.

(** The layout of the exported document.  When the library answers every
    query and [str] tells the six Julian Days apart, the file holds the
    generator name, the library version, the clock reading, one entry per
    date in the order of [TEST_DATES] under the key [str(jd)], each with its
    description, its Julian Day and one record per planet in the order of
    [PLANETS] made from the library's answer for that planet and day, and the
    list of the ten planet names. *)
Theorem dataset_layout (e : env) :
  snd (replay (swe e) schedule) = None -> distinctb (date_keys e) = true ->
  exists a,
    files (snd (run (GenerateReferenceData.main e)))
    = [(GenerateReferenceData.json_path,
        dumps (repr e) (GenerateReferenceData.all_data_dict a))] /\
    GenerateReferenceData.generator a = "pyswisseph"%string /\
    GenerateReferenceData.version a = Swe.version (swe e) /\
    GenerateReferenceData.generated_at a = now_isoformat e /\
    GenerateReferenceData.planets a
    = ["Sun"; "Moon"; "Mercury"; "Venus"; "Mars"; "Jupiter"; "Saturn"; "Uranus";
       "Neptune"; "Pluto"]%string /\
    Forall2 (date_entry_for e) GenerateReferenceData.TEST_DATES
      (GenerateReferenceData.dates a).
Proof.
  intros Hans Hkeys.
  destruct (main_files e) as [Hfiles _].
  destruct (build_answered e (after_heading e) Hans) as [a Ha].
  destruct (build_layout e Hkeys (after_heading e)) as (q & s & _ & _ & _ & _ & _ & HQ).
  rewrite Ha in Hfiles. exists a. split; [exact Hfiles |]. apply HQ. exact Ha.
Qed.

Lemma dataset_layout_witness :
  exists a,
    files (snd (run (GenerateReferenceData.main morning)))
    = [(GenerateReferenceData.json_path,
        dumps (repr morning) (GenerateReferenceData.all_data_dict a))] /\
    GenerateReferenceData.generator a = "pyswisseph"%string /\
    GenerateReferenceData.version a = Swe.version (swe morning) /\
    GenerateReferenceData.generated_at a = now_isoformat morning /\
    GenerateReferenceData.planets a
    = ["Sun"; "Moon"; "Mercury"; "Venus"; "Mars"; "Jupiter"; "Saturn"; "Uranus";
       "Neptune"; "Pluto"]%string /\
    Forall2 (date_entry_for morning) GenerateReferenceData.TEST_DATES
      (GenerateReferenceData.dates a).
Proof. apply (dataset_layout morning); reflexivity. Defined.

(** How [main] ends after the file is written.  When the library answers
    every query and [str] tells the six Julian Days apart, all sixty queries
    are made and the file is written; the run then ends normally if
    ["2451545.0"] is the key of one of the dates, and with
    [KeyError('2451545.0')] otherwise, the file staying as written. *)
Theorem main_ends_after_key_values (e : env) :
  snd (replay (swe e) schedule) = None -> distinctb (date_keys e) = true ->
  queries (snd (run (GenerateReferenceData.main e))) = schedule /\
  files (snd (run (GenerateReferenceData.main e))) <> [] /\
  (In "2451545.0"%string (date_keys e) ->
   fst (run (GenerateReferenceData.main e)) = Ok tt) /\
  (~ In "2451545.0"%string (date_keys e) ->
   fst (run (GenerateReferenceData.main e)) = Raise (KeyError "2451545.0")).
Proof.
  intros Hans Hkeys.
  destruct (main_outcome e) as [Hq _].
  destruct (main_files e) as [Hfiles _].
  destruct (build_layout e Hkeys (after_heading e)) as (q & s & _ & _ & _ & _ & _ & HQ).
  pose proof (dates_loop_replay e GenerateReferenceData.TEST_DATES
                (GenerateReferenceData.initial_all_data e) (after_heading e)) as K.
  cbv zeta in K. fold schedule in K. fold (build e) in K.
  destruct K as (Kq & _ & Kr). rewrite Hans in Kr. destruct Kr as [a Ha].
  destruct (HQ a Ha) as (_ & _ & _ & _ & Hlayout).
  assert (Hk : keys (GenerateReferenceData.dates a) = date_keys e).
  { apply (Forall2_keys (date_entry_for e) (fun d => repr e (fst d))); [| exact Hlayout].
    intros x entry H. apply H. }
  split.
  { rewrite Hq. now apply replay_none. }
  split; [rewrite Hfiles, Ha; discriminate |].
  rewrite main_unfold.
  destruct (build e (after_heading e)) as [[a' | x] w1] eqn:Eb; cbn [fst] in Ha;
    [| discriminate].
  inversion Ha. subst a'.
  rewrite (bind_ok _ _ _ _ _ Eb), write_file_bind, print_bind.
  split; intros Hin.
  - destruct (getitem (GenerateReferenceData.dates a) "2451545.0") as [d |] eqn:Eg.
    + apply (key_values_found a d); [exact Eg |].
      apply getitem_some_in in Eg.
      destruct (Forall2_in_right _ _ _ _ Hlayout Eg) as (date & _ & _ & _ & _ & Hrec).
      apply (Forall2_keys (record_for e (fst date)) fst); [| exact Hrec].
      intros x entry H. apply H.
    + apply getitem_none in Eg. rewrite Hk in Eg. contradiction.
  - apply key_values_missing. apply getitem_none. now rewrite Hk.
Qed.

Lemma main_ends_after_key_values_witness :
  queries (snd (run (GenerateReferenceData.main morning))) = schedule /\
  files (snd (run (GenerateReferenceData.main morning))) <> [] /\
  (In "2451545.0"%string (date_keys morning) ->
   fst (run (GenerateReferenceData.main morning)) = Ok tt) /\
  (~ In "2451545.0"%string (date_keys morning) ->
   fst (run (GenerateReferenceData.main morning)) = Raise (KeyError "2451545.0")).
Proof. apply (main_ends_after_key_values morning); reflexivity. Defined.

(** ** The scripts on binary64 floats *)

(** The sign index on floats.  For a float of magnitude below 2^53 the
    rounded quotient by 30 has the whole part of the exact quotient, so
    [int(longitude / 30) % 12] as Python computes it is [Zodiac.sign_idx];
    for such a float that is not negative it is [floor(L/30) mod 12]. *)
Theorem sign_idx_of_rounded_quotient (L : Q) :
  is_b64 L -> - two_53 < L -> L < two_53 ->
  sign_idx64 L = Zodiac.sign_idx L /\
  (0 <= L -> sign_idx64 L = Zodiac.spec_sign_idx L).
Proof.
  intros Hfl H0 H1.
  assert (E : sign_idx64 L = Zodiac.sign_idx L).
  { unfold sign_idx64, Zodiac.sign_idx. now rewrite rounded_quotient. }
  split; [exact E |]. intros Hpos. rewrite E. now apply sign_idx_nonneg.
Qed.

Lemma sign_idx_of_rounded_quotient_witness :
  sign_idx64 47.25 = Zodiac.sign_idx 47.25 /\
  (0 <= 47.25 -> sign_idx64 47.25 = Zodiac.spec_sign_idx 47.25).
Proof.
  apply (sign_idx_of_rounded_quotient 47.25); vm_compute; reflexivity.
Defined.

(** Beyond 2^53 the rounded quotient can have another whole part: 10^22 is
    a float, of index 4 with the rounded quotient and 9 with the exact
    one. *)
Example sign_idx64_beyond_2_53 :
  is_b64 1e22 /\ sign_idx64 1e22 = 4%Z /\ Zodiac.sign_idx 1e22 = 9%Z.
Proof. split; [vm_compute; reflexivity |]. split; vm_compute; reflexivity. Qed.

(** The degree on floats.  [longitude % 30] as Python computes it lies from
    0 up to 30, 30 included; on a longitude that is not negative it is
    computed without rounding, is [Zodiac.degrees] and stays below 30. *)
Theorem degree_of_rounded_remainder (L : Q) :
  0 <= fmod64 L 30 /\ fmod64 L 30 <= 30 /\
  (0 <= L -> fmod64 L 30 == Zodiac.degrees L /\ fmod64 L 30 < 30).
Proof.
  unfold fmod64. destruct (Qlt_le_dec L 0) as [Hneg | Hpos].
  - destruct (truncated_remainder_range L Hneg) as [A B].
    set (r := L - 30 * inject_Z (Py.int (L / 30))) in *.
    destruct (Py.ltb r 0) eqn:E.
    + destruct (b64_between (r + 30) 0 30) as [C D];
        [lia | lia | unfold inject_Z; lra | unfold inject_Z; lra |].
      change (inject_Z 0) with 0 in C. change (inject_Z 30) with 30 in D.
      split; [exact C |]. split; [exact D |]. intros H. lra.
    + assert (0 <= r).
      { apply Qnot_lt_le. intros H. apply ltb_spec in H. congruence. }
      split; [lra |]. split; [lra |]. intros H'. lra.
  - assert (Er : L - 30 * inject_Z (Py.int (L / 30)) = Zodiac.degrees L).
    { unfold Zodiac.degrees, Py.fmod. now rewrite int_nonneg by (now apply div30_nonneg). }
    rewrite Er. pose proof (degrees_range L) as [A B].
    destruct (Py.ltb (Zodiac.degrees L) 0) eqn:E.
    + apply ltb_spec in E. lra.
    + split; [exact A |]. split; [lra |]. intros _. split; [reflexivity | exact B].
Qed.

(** On a negative longitude next to zero the rounded remainder is 30, where
    the exact one is below. *)
Example fmod64_tiny_negative :
  fmod64 (-1e-20) 30 == 30 /\ Zodiac.degrees (-1e-20) < 30.
Proof. split; vm_compute; reflexivity. Qed.



(** The local sidereal time on floats.  For a sidereal time within [0,24)
    hours and a longitude from 0 to 180 degrees east the value computed with
    rounded product, sum and difference lies within [0,360). *)
Theorem rounded_local_sidereal_time_range (gmst lon : Q) :
  0 <= gmst -> gmst < 24 -> 0 <= lon -> lon <= 180 ->
  0 <= local_sidereal_time64 gmst lon /\ local_sidereal_time64 gmst lon < 360.
Proof.
  intros Hg0 Hg1 Hl0 Hl1. unfold local_sidereal_time64.
  destruct (b64_between (gmst * 15) 0 360) as [A0 A1];
    [lia | lia | unfold inject_Z; lra | unfold inject_Z; lra |].
  change (inject_Z 0) with 0 in A0. change (inject_Z 360) with 360 in A1.
  set (armc := b64 (gmst * 15)) in *.
  destruct (b64_between (armc + lon) 0 540) as [B0 B1];
    [lia | lia | unfold inject_Z; lra | unfold inject_Z; lra |].
  change (inject_Z 0) with 0 in B0. change (inject_Z 540) with 540 in B1.
  set (lst := b64 (armc + lon)) in *.
  destruct (Py.geb lst 360) eqn:E.
  - apply geb_spec in E.
    destruct (b64_between (lst - 360) 0 180) as [C0 C1];
      [lia | lia | unfold inject_Z; lra | unfold inject_Z; lra |].
    change (inject_Z 0) with 0 in C0. change (inject_Z 180) with 180 in C1.
    split; lra.
  - split; [exact B0 |]. apply Qnot_le_lt. intros H. apply geb_spec in H. congruence.
Qed.

Lemma rounded_local_sidereal_time_range_witness :
  0 <= local_sidereal_time64 23.9 10 /\ local_sidereal_time64 23.9 10 < 360.
Proof.
  apply (rounded_local_sidereal_time_range 23.9 10); vm_compute;
    solve [reflexivity | discriminate].
Defined.

(** With a longitude of 360 degrees the bound is lost to rounding: for the
    float next below 24 hours the sum rounds to 720 and the value is 360. *)
Example local_sidereal_time64_at_360 :
  is_b64 (24 - 1 / inject_Z (2 ^ 48)) /\
  local_sidereal_time64 (24 - 1 / inject_Z (2 ^ 48)) 360 == 360.
Proof. split; vm_compute; reflexivity. Qed.

End Extras.
